(** * img-proxy: the fetch / cache / serve / expire pipeline of [main.go]

    A shallow embedding of the Go program: the handlers [handleProxy] and
    [handleImage], the fetcher [downloadImage], the naming helpers
    [getExtFromContentType] and [randomString], and the sweeper
    [cleanupOldFiles], over an explicit model of the pieces of the Go runtime
    they touch (strings, [path/filepath], a file tree, the clock and the
    network). *)

From Stdlib Require Import String Ascii List ZArith Lia Bool.
From Stdlib Require Import DecimalString DecimalZ DecimalPos.
From Stdlib Require HexString.
Import ListNotations.

Local Open Scope string_scope.
Local Open Scope Z_scope.

(** ** Go strings

    A Go [string] is a byte sequence; it is modelled by [string], whose
    characters are bytes. *)

Module GoStrings.

Definition chars (s : string) : list ascii := list_ascii_of_string s.
Definition unchars (l : list ascii) : string := string_of_list_ascii l.

Definition bytes_of (codes : list nat) : list ascii := map ascii_of_nat codes.

(** [strings.HasPrefix]. *)
Fixpoint has_prefix (p l : list ascii) : bool :=
  match p, l with
  | [], _ => true
  | a :: p', b :: l' => Ascii.eqb a b && has_prefix p' l'
  | _ :: _, [] => false
  end.

Definition HasPrefix (s p : string) : bool := has_prefix (chars p) (chars s).

(** [strings.TrimPrefix]: one occurrence of the prefix is removed. *)
Definition TrimPrefix (s p : string) : string :=
  if HasPrefix s p then unchars (skipn (List.length (chars p)) (chars s)) else s.

(** The encodings of the runes for which [unicode.IsSpace] holds: the six
    ASCII ones, U+0085, U+00A0, U+1680, U+2000..U+200A, U+2028, U+2029,
    U+202F, U+205F and U+3000.  A UTF-8 encoding is unique, so a string starts
    (ends) with a space rune exactly when it starts (ends) with one of these
    byte sequences. *)
Definition space_runes : list (list ascii) :=
  map bytes_of
    [ [9]; [10]; [11]; [12]; [13]; [32];
      [194; 133]; [194; 160];
      [225; 154; 128];
      [226; 128; 128]; [226; 128; 129]; [226; 128; 130]; [226; 128; 131];
      [226; 128; 132]; [226; 128; 133]; [226; 128; 134]; [226; 128; 135];
      [226; 128; 136]; [226; 128; 137]; [226; 128; 138];
      [226; 128; 168]; [226; 128; 169]; [226; 128; 175];
      [226; 129; 159];
      [227; 128; 128] ]%nat.

Fixpoint strip_first (seqs : list (list ascii)) (l : list ascii) : option (list ascii) :=
  match seqs with
  | [] => None
  | q :: seqs' =>
      if has_prefix q l then Some (skipn (List.length q) l) else strip_first seqs' l
  end.

Fixpoint trim_front (fuel : nat) (seqs : list (list ascii)) (l : list ascii) : list ascii :=
  match fuel with
  | O => l
  | S fuel' =>
      match strip_first seqs l with
      | Some l' => trim_front fuel' seqs l'
      | None => l
      end
  end.

Definition trim_left (l : list ascii) : list ascii :=
  trim_front (List.length l) space_runes l.

Definition trim_right (l : list ascii) : list ascii :=
  rev (trim_front (List.length l) (map (@rev ascii) space_runes) (rev l)).

(** [strings.TrimSpace]. *)
Definition TrimSpace (s : string) : string :=
  unchars (trim_right (trim_left (chars s))).

(** [ct[:idx]] for [idx = strings.Index(ct, ";")], and [ct] itself when
    there is no semicolon. *)
Fixpoint before_semicolon (l : list ascii) : list ascii :=
  match l with
  | [] => []
  | c :: l' => if Ascii.eqb c ";" then [] else c :: before_semicolon l'
  end.

Definition is_upper (c : ascii) : bool :=
  ((65 <=? nat_of_ascii c) && (nat_of_ascii c <=? 90))%nat.

Definition lower_ascii (c : ascii) : ascii :=
  if is_upper c then ascii_of_nat (nat_of_ascii c + 32) else c.

(** [strings.ToLower], as far as a comparison of the result with an ASCII
    string can observe it: ASCII letters are lowered, and so are the two
    runes outside ASCII whose lower case is an ASCII letter, U+0130 (to [i])
    and U+212A (to [k]); every other byte is kept. *)
Fixpoint lower (fuel : nat) (l : list ascii) : list ascii :=
  match fuel with
  | O => l
  | S fuel' =>
      if has_prefix (bytes_of [196; 176]%nat) l
      then "i"%char :: lower fuel' (skipn 2 l)
      else if has_prefix (bytes_of [226; 132; 170]%nat) l
      then "k"%char :: lower fuel' (skipn 3 l)
      else match l with
           | [] => []
           | c :: l' => lower_ascii c :: lower fuel' l'
           end
  end.

Definition ToLower (s : string) : string :=
  unchars (lower (List.length (chars s)) (chars s)).

(** [%d] of an [int64]. *)
Definition itoa (z : Z) : string := NilZero.string_of_int (Z.to_int z).

(** [%x] of an [int64]. *)
Definition hex (z : Z) : string :=
  match z with
  | Z0 => "0"
  | Zpos p => HexString.Raw.of_pos p ""
  | Zneg p => "-" ++ HexString.Raw.of_pos p ""
  end.

End GoStrings.

Import GoStrings.

(** ** path/filepath (Unix)

    A cleaned path is kept as its list of elements, together with whether it
    is rooted; [path_string] writes it back the way [filepath.Clean] prints
    it. *)

Module FilePath.

Inductive fpath : Type :=
| PEmpty                                          (* the empty string *)
| PClean (rooted : bool) (segs : list string).

Fixpoint split_slash (l : list ascii) : list ascii * list (list ascii) :=
  match l with
  | [] => ([], [])
  | c :: l' =>
      let '(s, r) := split_slash l' in
      if Ascii.eqb c "/" then ([], s :: r) else (c :: s, r)
  end.

(** The elements of a path string, empty ones included. *)
Definition elements (s : string) : list string :=
  let '(s0, r) := split_slash (chars s) in map unchars (s0 :: r).

(** One element of the lexical processing of [filepath.Clean]; [stack] holds
    the elements kept so far, the last one first. *)
Definition clean_step (rooted : bool) (stack : list string) (seg : string) : list string :=
  if (seg =? "")%string || (seg =? ".")%string then stack
  else if (seg =? "..")%string then
    match stack with
    | top :: rest => if (top =? "..")%string then seg :: stack else rest
    | [] => if rooted then [] else [seg]
    end
  else seg :: stack.

Definition clean_from (rooted : bool) (stack : list string) (segs : list string) : list string :=
  fold_left (clean_step rooted) segs stack.

(** [filepath.Clean]. *)
Definition Clean (s : string) : fpath :=
  let rooted := HasPrefix s "/" in
  PClean rooted (rev (clean_from rooted [] (elements s))).

(** [filepath.Join] of two elements: empty elements are ignored, and the
    result is cleaned; joining nothing gives the empty string. *)
Definition Join (a b : string) : fpath :=
  if negb (a =? "")%string then Clean (a ++ "/" ++ b)
  else if negb (b =? "")%string then Clean b
  else PEmpty.

(** [filepath.Dir] of a cleaned path. *)
Definition Dir (p : fpath) : fpath :=
  match p with
  | PEmpty => PClean false []
  | PClean rooted segs => PClean rooted (removelast segs)
  end.

Fixpoint ext_chars (l : list ascii) : option (list ascii) :=
  match l with
  | [] => None
  | c :: l' =>
      match ext_chars l' with
      | Some e => Some e
      | None => if Ascii.eqb c "." then Some (c :: l') else None
      end
  end.

(** The suffix of an element that starts at its last dot. *)
Definition ext_of (seg : string) : string :=
  match ext_chars (chars seg) with
  | Some e => unchars e
  | None => ""
  end.

(** [filepath.Ext]: the extension of the last element. *)
Definition Ext (p : fpath) : string :=
  match p with
  | PEmpty => ""
  | PClean rooted segs =>
      match rev segs with
      | [] => if rooted then "" else "."
      | seg :: _ => ext_of seg
      end
  end.

Definition path_string (p : fpath) : string :=
  match p with
  | PEmpty => ""
  | PClean rooted [] => if rooted then "/" else "."
  | PClean rooted segs => (if rooted then "/" else "") ++ String.concat "/" segs
  end.

(** The absolute location the operating system resolves a cleaned path to,
    from the working directory [cwd]; the empty path names nothing. *)
Definition resolve (cwd : list string) (p : fpath) : option (list string) :=
  match p with
  | PEmpty => None
  | PClean true segs => Some segs
  | PClean false segs => Some (rev (clean_from true (rev cwd) segs))
  end.

(** [inside root p]: the location [p] is [root] or lies below it. *)
Fixpoint inside (root p : list string) : bool :=
  match root, p with
  | [], _ => true
  | r :: root', s :: p' => (r =? s)%string && inside root' p'
  | _ :: _, [] => false
  end.

End FilePath.

Import FilePath.

(** ** The file tree

    The part of the operating system the program uses: a tree of regular
    files and directories, addressed by absolute locations (lists of names
    from the root).  There are no symbolic links. *)

Module FS.

Inductive Errno : Type := ENOENT | ENOTDIR | EISDIR | EACCES | EIO.

(** [os.IsNotExist]. *)
Definition IsNotExist (err : option Errno) : bool :=
  match err with
  | Some ENOENT => true
  | _ => false
  end.

#[warnings="-register-all"]
Inductive node : Type :=
| File (data : list Byte.byte) (mtime : Z)
| Folder (children : list (string * node)).

(** What [os.FileInfo] tells the program. *)
Inductive FileInfo : Type :=
| InfoFile (modTime : Z) (size : Z)
| InfoDir.

Definition info_of (n : node) : FileInfo :=
  match n with
  | File data mtime => InfoFile mtime (Z.of_nat (List.length data))
  | Folder _ => InfoDir
  end.

Definition IsDir (i : FileInfo) : bool :=
  match i with
  | InfoDir => true
  | InfoFile _ _ => false
  end.

(** [ModTime()], in nanoseconds since the epoch; the time of a directory
    is not modelled. *)
Definition ModTime (i : FileInfo) : Z :=
  match i with
  | InfoFile t _ => t
  | InfoDir => 0
  end.

Fixpoint child (name : string) (cs : list (string * node)) : option node :=
  match cs with
  | [] => None
  | (s, c) :: cs' => if (s =? name)%string then Some c else child name cs'
  end.

Fixpoint set_child (name : string) (c : node) (cs : list (string * node)) : list (string * node) :=
  match cs with
  | [] => [(name, c)]
  | (s, c0) :: cs' =>
      if (s =? name)%string then (s, c) :: cs' else (s, c0) :: set_child name c cs'
  end.

Fixpoint remove_child (name : string) (cs : list (string * node)) : list (string * node) :=
  match cs with
  | [] => []
  | (s, c0) :: cs' =>
      if (s =? name)%string then cs' else (s, c0) :: remove_child name cs'
  end.

Inductive lookup_result : Type :=
| Found (n : node)
| Missing (e : Errno).

(** Path resolution: a missing name is [ENOENT], a name below a regular
    file is [ENOTDIR]. *)
Fixpoint lookup (n : node) (p : list string) : lookup_result :=
  match p with
  | [] => Found n
  | s :: p' =>
      match n with
      | File _ _ => Missing ENOTDIR
      | Folder cs =>
          match child s cs with
          | Some c => lookup c p'
          | None => Missing ENOENT
          end
      end
  end.

(** [os.MkdirAll]: the directories missing along [p] are created; a regular
    file in the way is an error. *)
Fixpoint mkdir_all (n : node) (p : list string) : Errno + node :=
  match p with
  | [] =>
      match n with
      | Folder _ => inr n
      | File _ _ => inl ENOTDIR
      end
  | s :: p' =>
      match n with
      | File _ _ => inl ENOTDIR
      | Folder cs =>
          let c := match child s cs with Some c => c | None => Folder [] end in
          match mkdir_all c p' with
          | inr c' => inr (Folder (set_child s c' cs))
          | inl e => inl e
          end
      end
  end.

(** The tree in which the file at [p] has been opened for writing and holds
    [data]: the file is created in an existing directory, or replaced; [t] is
    the modification time it gets. *)
Fixpoint write_file (n : node) (p : list string) (data : list Byte.byte) (t : Z) : Errno + node :=
  match p with
  | [] =>
      match n with
      | File _ _ => inr (File data t)
      | Folder _ => inl EISDIR
      end
  | s :: p' =>
      match n with
      | File _ _ => inl ENOTDIR
      | Folder cs =>
          match child s cs, p' with
          | Some c, _ =>
              match write_file c p' data t with
              | inr c' => inr (Folder (set_child s c' cs))
              | inl e => inl e
              end
          | None, [] => inr (Folder (set_child s (File data t) cs))
          | None, _ :: _ => inl ENOENT
          end
      end
  end.

(** The tree in which the node at [p] has become [f] of it; [None] says
    that the node is removed from its directory. *)
Fixpoint update_opt (n : node) (p : list string) (f : node -> option node) : option node :=
  match p with
  | [] => f n
  | s :: p' =>
      match n with
      | File _ _ => Some n
      | Folder cs =>
          match child s cs with
          | None => Some n
          | Some c =>
              match update_opt c p' f with
              | Some c' => Some (Folder (set_child s c' cs))
              | None => Some (Folder (remove_child s cs))
              end
          end
      end
  end.

(** The root itself is never removed. *)
Definition update_at (n : node) (p : list string) (f : node -> option node) : node :=
  match update_opt n p f with
  | Some n' => n'
  | None => n
  end.

(** A directory holds each name once. *)
Fixpoint names_distinct (names : list string) : bool :=
  match names with
  | [] => true
  | s :: names' => negb (existsb (String.eqb s) names') && names_distinct names'
  end.

Fixpoint wf (n : node) : bool :=
  match n with
  | File _ _ => true
  | Folder cs => names_distinct (map fst cs) && forallb (fun sc => wf (snd sc)) cs
  end.

(** The root of the tree is a directory. *)
Definition wf_root (n : node) : bool :=
  match n with
  | File _ _ => false
  | Folder _ => wf n
  end.

End FS.

Import FS.

(** ** The server *)

(** [CONFIG]; durations are in nanoseconds, as [time.Duration]. *)
Record Config : Type := {
  CustomDomain : string;
  PathPrefix : string;
  AllowedOrigins : list string;
  APIKey : string;
  StoragePath : string;
  ListenAddr : string;
  FileExpiryHours : Z
}.

(** What [http.DefaultClient.Do] and the reading of the body come to for one
    request. [Body] holds the bytes that can be read, [BodyErr] the error
    that ends the reading, if any. *)
Record HttpResponse : Type := {
  StatusCode : Z;
  Body : list Byte.byte;
  BodyErr : option string;
  ContentTypeHeader : string
}.

Inductive HttpResult : Type :=
| NewRequestFails (e : string)
| DoFails (e : string)
| Responds (resp : HttpResponse).

(** The error values [downloadImage] returns. *)
Inductive Error : Type :=
| TransportError (e : string)
| ServerError (status : Z) (body : list Byte.byte)
| ClientError (status : Z) (body : list Byte.byte).

Definition Error_string (e : Error) : string :=
  match e with
  | TransportError m => m
  | ServerError st b => "server error: " ++ itoa st ++ " - " ++ string_of_list_byte b
  | ClientError st b => "client error: " ++ itoa st ++ " - " ++ string_of_list_byte b
  end.

Inductive Op : Type :=
| OpStat | OpLstat | OpOpen | OpReadDir | OpMkdirAll | OpWriteFile | OpWrite | OpRemove.

(** The surroundings of a run: the working directory, the readings of the
    clock ([clock k] is the [k]-th reading, by [time.Now().UnixNano()] or by
    the file system when it stamps a file), the answers of the network
    ([net k url] is the result of the [k]-th request), the failures the
    operating system injects (permissions, I/O errors) into file
    operations, and, for a write to a file that fails, the number of bytes
    that had reached the file by then. *)
Record Env : Type := {
  cwd : list string;
  clock : nat -> Z;
  net : nat -> string -> HttpResult;
  fault : Op -> list string -> option Errno;
  short : list string -> nat
}.

Inductive Event : Type :=
| EvDownload (url : string)        (* one call of downloadImage *)
| EvSleep (d : Z).                 (* time.Sleep(d) *)

Record World : Type := {
  fs : node;
  ticks : nat;
  trace : list Event
}.

Definition is_download (e : Event) : bool :=
  match e with
  | EvDownload _ => true
  | EvSleep _ => false
  end.

Definition downloads (tr : list Event) : nat := List.length (filter is_download tr).

(** A handler either returns or panics. *)
Inductive outcome (A : Type) : Type :=
| Ret (a : A)
| Panic (msg : string).

Arguments Ret {A} a.
Arguments Panic {A} msg.

Definition M (A : Type) : Type := World -> outcome A * World.

Definition ret {A : Type} (a : A) : M A := fun w => (Ret a, w).

Definition bind {A B : Type} (m : M A) (k : A -> M B) : M B :=
  fun w =>
    match m w with
    | (Ret a, w') => k a w'
    | (Panic msg, w') => (Panic msg, w')
    end.

Definition panic {A : Type} (msg : string) : M A := fun w => (Panic msg, w).

Notation "x <- m ;; k" := (bind m (fun x => k))
  (at level 61, m at next level, right associativity).
Notation "' pat <- m ;; k" := (bind m (fun x => match x with pat => k end))
  (at level 61, pat pattern, m at next level, right associativity).

Definition Second : Z := 1000000000.
Definition maxDuration : Z := 2 ^ 63 - 1.
Definition minDuration : Z := - 2 ^ 63.

(** [t.Sub(u)]: the difference, saturated to the range of a Duration. *)
Definition Sub (t u : Z) : Z :=
  let d := t - u in
  if d <? minDuration then minDuration
  else if maxDuration <? d then maxDuration
  else d.

(** [t.Unix()]: whole seconds since the epoch. *)
Definition Unix (t : Z) : Z := t / Second.

Definition Headers : Type := list (string * string).

(** [Header().Set(k, v)]. *)
Fixpoint header_set (k v : string) (h : Headers) : Headers :=
  match h with
  | [] => [(k, v)]
  | (k0, v0) :: h' =>
      if (k0 =? k)%string then (k0, v) :: h' else (k0, v0) :: header_set k v h'
  end.

Fixpoint header_get (k : string) (h : Headers) : string :=
  match h with
  | [] => ""
  | (k0, v0) :: h' => if (k0 =? k)%string then v0 else header_get k h'
  end.

(** [for k, v := range headers { w.Header().Set(k, v) }]. *)
Definition set_all (headers : Headers) (h : Headers) : Headers :=
  fold_left (fun acc kv => header_set (fst kv) (snd kv) acc) headers h.

Inductive ResponseBody : Type :=
| BodyNone
| BodyError (message : string)                       (* {"error": message} *)
| BodyResult (success : bool) (url type : string) (size : Z)
| BodyText (message : string)                        (* http.Error *)
| BodyBytes (data : list Byte.byte)
| BodyRedirect (url : string).

Record Response : Type := {
  status : Z;
  headers : Headers;
  body : ResponseBody
}.

(** The request, as far as the handlers read it; [r_json] is what decoding
    the body into a [map[string]string] gives, [None] when it fails. *)
Record Request : Type := {
  r_method : string;
  r_path : string;
  r_origin : string;
  r_apikey : string;
  r_json : option (list (string * string))
}.

Definition StatusFound : Z := 302.
Definition StatusNoContent : Z := 204.
Definition StatusOK : Z := 200.
Definition StatusNotFound : Z := 404.
Definition StatusInternalServerError : Z := 500.

(** The messages of the error responses, under the names the specification
    gives to the kinds of error. *)
Definition InvalidRequest : string := "请求失败".
Definition DownloadFailed : string := "图片上传失败，请联系管理员".
Definition StorageFailed : string := "存储失败".
Definition NotFound : string := "图片不存在".
Definition ReadFailed : string := "读取失败".

Definition dquote : string := String (ascii_of_nat 34) EmptyString.

Definition responseError (headers : Headers) (message : string) : Response :=
  {| status := StatusInternalServerError;
     headers := set_all headers [];
     body := BodyError message |}.

Definition http_Error (message : string) (code : Z) : Response :=
  {| status := code;
     headers := [("Content-Type", "text/plain; charset=utf-8");
                 ("X-Content-Type-Options", "nosniff")];
     body := BodyText message |}.

Definition http_Redirect (url : string) (code : Z) : Response :=
  {| status := code; headers := [("Location", url)]; body := BodyRedirect url |}.

Definition getExtFromContentType (ct : string) : string :=
  if (ct =? "image/jpeg")%string || (ct =? "image/jpg")%string then "jpg"
  else if (ct =? "image/png")%string then "png"
  else if (ct =? "image/webp")%string then "webp"
  else if (ct =? "image/gif")%string then "gif"
  else "png".

Definition letters : string := "abcdefghijklmnopqrstuvwxyz0123456789".

Section Server.

Variable cfg : Config.
Variable env : Env.

(** [time.Now().UnixNano()]. *)
Definition UnixNano : M Z :=
  fun w => (Ret (clock env (ticks w)),
            {| fs := fs w; ticks := S (ticks w); trace := trace w |}).

Definition Sleep (d : Z) : M unit :=
  fun w => (Ret tt, {| fs := fs w; ticks := ticks w; trace := trace w ++ [EvSleep d] |}).

Definition set_fs (t : node) (w : World) : World :=
  {| fs := t; ticks := ticks w; trace := trace w |}.

(** [os.Stat]: the info, or [nil] and the error. *)
Definition os_Stat (p : fpath) : M (option FileInfo * option Errno) :=
  fun w =>
    match resolve (cwd env) p with
    | None => (Ret (None, Some ENOENT), w)
    | Some loc =>
        match fault env OpStat loc with
        | Some e => (Ret (None, Some e), w)
        | None =>
            match lookup (fs w) loc with
            | Found n => (Ret (Some (info_of n), None), w)
            | Missing e => (Ret (None, Some e), w)
            end
        end
    end.

(** [os.Open]. *)
Definition os_Open (p : fpath) : M (Errno + node) :=
  fun w =>
    match resolve (cwd env) p with
    | None => (Ret (inl ENOENT), w)
    | Some loc =>
        match fault env OpOpen loc with
        | Some e => (Ret (inl e), w)
        | None =>
            match lookup (fs w) loc with
            | Found n => (Ret (inr n), w)
            | Missing e => (Ret (inl e), w)
            end
        end
    end.

(** What [io.Copy] reads from an open file; reading a directory gives
    nothing. *)
Definition contents (n : node) : list Byte.byte :=
  match n with
  | File data _ => data
  | Folder _ => []
  end.

Definition os_MkdirAll (p : fpath) : M (option Errno) :=
  fun w =>
    match resolve (cwd env) p with
    | None => (Ret (Some ENOENT), w)
    | Some loc =>
        match fault env OpMkdirAll loc with
        | Some e => (Ret (Some e), w)
        | None =>
            match mkdir_all (fs w) loc with
            | inr t => (Ret None, set_fs t w)
            | inl e => (Ret (Some e), w)
            end
        end
    end.

(** [os.WriteFile]: [OpenFile] with [O_WRONLY|O_CREATE|O_TRUNC], which
    creates the file or empties it, then [f.Write(data)] and [f.Close()].
    When opening fails ([OpWriteFile], or the path itself) nothing changes.
    When the write or the close fails ([OpWrite]) the error is returned and
    the file stays, with the bytes that reached it. The file is stamped with
    a reading of the clock. *)
Definition os_WriteFile (p : fpath) (data : list Byte.byte) : M (option Errno) :=
  fun w =>
    match resolve (cwd env) p with
    | None => (Ret (Some ENOENT), w)
    | Some loc =>
        match fault env OpWriteFile loc with
        | Some e => (Ret (Some e), w)
        | None =>
            let err := fault env OpWrite loc in
            let written :=
              match err with
              | Some _ => firstn (short env loc) data
              | None => data
              end in
            match write_file (fs w) loc written (clock env (ticks w)) with
            | inr t => (Ret err, {| fs := t; ticks := S (ticks w); trace := trace w |})
            | inl e => (Ret (Some e), w)
            end
        end
    end.

Definition downloadImage (imageURL : string) : M (list Byte.byte * string * option Error) :=
  fun w =>
    let w' := {| fs := fs w; ticks := ticks w; trace := trace w ++ [EvDownload imageURL] |} in
    match net env (downloads (trace w)) imageURL with
    | NewRequestFails e => (Ret ([], "", Some (TransportError e)), w')
    | DoFails e => (Ret ([], "", Some (TransportError e)), w')
    | Responds resp =>
        if (StatusCode resp >=? 500) || (StatusCode resp =? 429) then
          (Ret ([], "", Some (ServerError (StatusCode resp) (firstn 100 (Body resp)))), w')
        else if StatusCode resp >=? 400 then
          (Ret ([], "", Some (ClientError (StatusCode resp) (firstn 100 (Body resp)))), w')
        else
          match BodyErr resp with
          | Some e => (Ret ([], "", Some (TransportError e)), w')
          | None =>
              let ct := ContentTypeHeader resp in
              let ct := unchars (before_semicolon (chars ct)) in
              let ct := TrimSpace ct in
              (Ret (Body resp, ct, None), w')
          end
    end.

(** The loop [for i := 0; i < 3; i++] of [handleProxy], from the iteration
    [i] on, with [n = 3 - i] iterations left; [st] holds [imageData],
    [contentType] and [err]. *)
Fixpoint retry_loop (n : nat) (i : Z) (imageURL : string)
    (st : list Byte.byte * string * option Error) : M (list Byte.byte * string * option Error) :=
  match n with
  | O => ret st
  | S n' =>
      r <- downloadImage imageURL ;;
      match snd r with
      | None => ret r
      | Some _ =>
          _ <- (if i <? 2 then Sleep ((i + 1) * Second) else ret tt) ;;
          retry_loop n' (i + 1) imageURL r
      end
  end.

(** [randomString]: the bytes [b[i]], one reading of the clock each; an
    index outside [letters] panics. *)
Fixpoint randomString_loop (n : nat) : M (list ascii) :=
  match n with
  | O => ret []
  | S n' =>
      t <- UnixNano ;;
      let idx := Z.rem t (Z.of_nat (String.length letters)) in
      if idx <? 0 then panic "index out of range"
      else
        match nth_error (chars letters) (Z.to_nat idx) with
        | None => panic "index out of range"
        | Some c => rest <- randomString_loop n' ;; ret (c :: rest)
        end
  end.

Definition randomString (n : nat) : M string :=
  b <- randomString_loop n ;; ret (unchars b).

Definition map_get (data : list (string * string)) (k : string) : string := header_get k data.

Definition handleProxy (r : Request) (corsHeaders : Headers) : M Response :=
  if negb (r_method r =? "POST")%string then ret (responseError corsHeaders InvalidRequest)
  else if negb (APIKey cfg =? "")%string && negb (r_apikey r =? APIKey cfg)%string
  then ret (responseError corsHeaders InvalidRequest)
  else
    match r_json r with
    | None => ret (responseError corsHeaders InvalidRequest)
    | Some data =>
        let imageURL := TrimSpace (map_get data "url") in
        if (imageURL =? "")%string then ret (responseError corsHeaders InvalidRequest)
        else
          '(imageData, contentType, err) <- retry_loop 3 0 imageURL ([], "", None) ;;
          match err with
          | Some _ => ret (responseError corsHeaders DownloadFailed)
          | None =>
              let ext := getExtFromContentType contentType in
              let ext := if (ext =? "")%string then "png" else ext in
              t <- UnixNano ;;
              rs <- randomString 6 ;;
              let filename := PathPrefix cfg ++ itoa t ++ "-" ++ rs ++ "." ++ ext in
              let fullPath := Join (StoragePath cfg) filename in
              e <- os_MkdirAll (Dir fullPath) ;;
              match e with
              | Some _ => ret (responseError corsHeaders StorageFailed)
              | None =>
                  e <- os_WriteFile fullPath imageData ;;
                  match e with
                  | Some _ => ret (responseError corsHeaders StorageFailed)
                  | None =>
                      let proxyURL := CustomDomain cfg ++ "/" ++ filename in
                      ret {| status := StatusOK;
                             headers := header_set "Content-Type" "application/json"
                                          (set_all corsHeaders []);
                             body := BodyResult true proxyURL contentType
                                       (Z.of_nat (List.length imageData)) |}
                  end
              end
          end
    end.

Definition handleImage (urlPath : string) : M Response :=
  let filePath := Join (StoragePath cfg) (TrimPrefix urlPath "/") in
  '(info, err) <- os_Stat filePath ;;
  if IsNotExist err then ret (http_Error NotFound StatusNotFound)
  else
    match info with
    | None => panic "invalid memory address or nil pointer dereference"
    | Some info =>
        if IsDir info then ret (http_Error NotFound StatusNotFound)
        else
          let ext := ToLower (Ext filePath) in
          let contentType :=
            if (ext =? ".jpg")%string || (ext =? ".jpeg")%string then "image/jpeg"
            else if (ext =? ".png")%string then "image/png"
            else if (ext =? ".webp")%string then "image/webp"
            else if (ext =? ".gif")%string then "image/gif"
            else "image/png" in
          f <- os_Open filePath ;;
          match f with
          | inl _ => ret (http_Error ReadFailed StatusInternalServerError)
          | inr f =>
              ret {| status := StatusOK;
                     headers :=
                       header_set "ETag" (dquote ++ hex (Unix (ModTime info)) ++ dquote)
                         (header_set "Cache-Control" "public, max-age=31536000, immutable"
                            (header_set "Content-Type" contentType []));
                     body := BodyBytes (contents f) |}
          end
    end.

Definition rateLimitHandler (r : Request) : M Response :=
  if (r_path r =? "/")%string then ret (http_Redirect "https://api.qhaigc.net" StatusFound)
  else
    let origin := r_origin r in
    let corsOrigin := if existsb (String.eqb origin) (AllowedOrigins cfg) then origin else "*" in
    let corsHeaders :=
      [ ("Access-Control-Allow-Origin", corsOrigin);
        ("Access-Control-Allow-Methods", "GET, POST, OPTIONS");
        ("Access-Control-Allow-Headers", "Content-Type, Authorization, X-API-Key");
        ("Access-Control-Max-Age", "86400");
        ("Content-Type", "application/json") ] in
    if (r_method r =? "OPTIONS")%string then
      ret {| status := StatusNoContent; headers := set_all corsHeaders []; body := BodyNone |}
    else if (r_path r =? "/proxy")%string then handleProxy r corsHeaders
    else if HasPrefix (r_path r) ("/" ++ PathPrefix cfg) then handleImage (r_path r)
    else ret (http_Redirect "https://api.qhaigc.net" StatusFound).

(** The function [cleanupOldFiles] hands to [filepath.Walk]; it always
    returns [nil], and the result here says whether it removed the entry. *)
Definition walkFn (now : Z) (path : list string) (info : option FileInfo)
    (err : option Errno) : bool :=
  match err, info with
  | Some _, _ => false
  | None, None => false
  | None, Some info =>
      if IsDir info then false
      else
        let age := Sub now (ModTime info) in
        if age >? FileExpiryHours cfg then
          match fault env OpRemove path with
          | Some _ => false
          | None => true
          end
        else false
  end.

(** The loop of [filepath.Walk] over the names of a directory [path]:
    a child whose [Lstat] fails is reported to [walkFn] and left alone, the
    others are walked. *)
Definition walk_children (now : Z) (walk : list string -> node -> option node)
    (path : list string) : list (string * node) -> list (string * node) :=
  fix go (l : list (string * node)) : list (string * node) :=
    match l with
    | [] => []
    | (name, c) :: l' =>
        let filename := (path ++ [name])%list in
        match fault env OpLstat filename with
        | Some e =>
            if walkFn now filename None (Some e) then go l' else (name, c) :: go l'
        | None =>
            match walk filename c with
            | Some c' => (name, c') :: go l'
            | None => go l'
            end
        end
    end.

(** The recursion of [filepath.Walk] below an entry whose [Lstat] succeeded;
    the result is what has become of the entry, [None] when it was removed.
    A directory that cannot be read is reported to [walkFn] and not
    entered. *)
Fixpoint walk (now : Z) (path : list string) (n : node) : option node :=
  match n with
  | File _ _ => if walkFn now path (Some (info_of n)) None then None else Some n
  | Folder cs =>
      let err := fault env OpReadDir path in
      if walkFn now path (Some (info_of n)) err then None
      else
        match err with
        | Some _ => Some n
        | None => Some (Folder (walk_children now (walk now) path cs))
        end
  end.

(** [filepath.Walk(CONFIG.StoragePath, walkFn)]. *)
Definition filepath_Walk (now : Z) (t : node) : node :=
  match resolve (cwd env) (Clean (StoragePath cfg)) with
  | None => t
  | Some root =>
      match fault env OpLstat root with
      | Some e => if walkFn now root None (Some e) then t else t
      | None =>
          match lookup t root with
          | Found _ => update_at t root (walk now root)
          | Missing e => if walkFn now root None (Some e) then t else t
          end
      end
  end.

Definition cleanupOldFiles : M unit :=
  now <- UnixNano ;;
  fun w => (Ret tt, set_fs (filepath_Walk now (fs w)) w).

End Server.

(** ** Notions used in the statements *)

(** The time slept right before the [i]-th call of [downloadImage] of a
    trace (counted from 1), [None] when there are fewer calls. *)
Fixpoint delay_scan (tr : list Event) (i : nat) (acc : Z) : option Z :=
  match tr with
  | [] => None
  | EvSleep d :: tr' => delay_scan tr' i (acc + d)
  | EvDownload _ :: tr' =>
      match i with
      | O => None
      | S O => Some acc
      | S i' => delay_scan tr' i' 0
      end
  end.

Definition delay_before (tr : list Event) (i : nat) : option Z := delay_scan tr i 0.

(** The content types [getExtFromContentType] knows. *)
Definition supported (ct : string) : bool :=
  (ct =? "image/jpeg")%string || (ct =? "image/jpg")%string || (ct =? "image/png")%string
  || (ct =? "image/webp")%string || (ct =? "image/gif")%string.

Definition is_none {A : Type} (o : option A) : bool :=
  match o with
  | None => true
  | Some _ => false
  end.

(** [strip_root root loc]: the names that lead from [root] to [loc], when
    [loc] is [root] or lies below it. *)
Fixpoint strip_root (root loc : list string) : option (list string) :=
  match root, loc with
  | [], _ => Some loc
  | r :: root', s :: loc' => if (r =? s)%string then strip_root root' loc' else None
  | _ :: _, [] => None
  end.

(** The walk gets from the directory [path] down the names [rel]: each
    directory on the way can be read and each name can be [Lstat]ed. *)
Fixpoint reached (env : Env) (path rel : list string) : bool :=
  match rel with
  | [] => true
  | s :: rel' =>
      is_none (fault env OpReadDir path)
      && is_none (fault env OpLstat (path ++ [s]))
      && reached env (path ++ [s]) rel'
  end.

(** The sweep at time [now] removes the file at [loc], last modified at
    [mtime]: the file is older than the expiry time, the walk from the
    storage root [root] gets to it, and [os.Remove] succeeds. *)
Definition swept (cfg : Config) (env : Env) (now : Z) (root loc : list string) (mtime : Z) : bool :=
  match strip_root root loc with
  | None => false
  | Some rel =>
      is_none (fault env OpLstat root)
      && reached env root rel
      && (Sub now mtime >? FileExpiryHours cfg)
      && is_none (fault env OpRemove loc)
  end.

(** No element of the path string is [..]. *)
Definition no_dotdot (s : string) : bool :=
  negb (existsb (String.eqb "..") (elements s)).

Definition ascii_space (c : ascii) : bool :=
  existsb (Ascii.eqb c) (bytes_of [9; 10; 11; 12; 13; 32]%nat).

(** The world after one more event. *)
Definition logged (e : Event) (w : World) : World :=
  {| fs := fs w; ticks := ticks w; trace := trace w ++ [e] |}.

(** ** Auxiliary notions of the proofs *)

(** The events of the three possible courses of the retry loop. *)
Definition attempts1 (url : string) : list Event := [EvDownload url].
Definition attempts2 (url : string) : list Event :=
  [EvDownload url; EvSleep (1 * Second); EvDownload url].
Definition attempts3 (url : string) : list Event :=
  [EvDownload url; EvSleep (1 * Second); EvDownload url; EvSleep (2 * Second); EvDownload url].

Definition extended (evs : list Event) (w : World) : World :=
  {| fs := fs w; ticks := ticks w; trace := trace w ++ evs |}.

Definition segs (l : list ascii) : list (list ascii) :=
  fst (split_slash l) :: snd (split_slash l).

Definition no_slash (c : ascii) : bool := negb (Ascii.eqb c "/").
Definition plain (c : ascii) : bool := negb (Ascii.eqb c "/") && negb (Ascii.eqb c ".").

(** The file name [handleProxy] composes. *)
Definition file_name (cfg : Config) (t : Z) (rs ext : string) : string :=
  PathPrefix cfg ++ itoa t ++ "-" ++ rs ++ "." ++ ext.

(** The media type [handleImage] serves for a file that was stored for the
    fetched content type [ct]: the type itself when it is one of
    [image/jpeg], [image/png], [image/webp] and [image/gif]; [image/jpeg]
    for [image/jpg]; and [image/png] for every other one. *)
Definition canonical (ct : string) : string :=
  if (ct =? "image/jpeg")%string || (ct =? "image/jpg")%string then "image/jpeg"
  else if (ct =? "image/png")%string then "image/png"
  else if (ct =? "image/webp")%string then "image/webp"
  else if (ct =? "image/gif")%string then "image/gif"
  else "image/png".

(** The headers and the body of a served file. *)
Definition served (contentType : string) (mt : Z) (data : list Byte.byte) : Response :=
  {| status := StatusOK;
     headers :=
       header_set "ETag" (dquote ++ hex (Unix mt) ++ dquote)
         (header_set "Cache-Control" "public, max-age=31536000, immutable"
            (header_set "Content-Type" contentType []));
     body := BodyBytes data |}.

Definition no_dash (c : ascii) : bool := negb (Ascii.eqb c "-").

Definition not_dotdot (s : string) : Prop := s <> "..".

(** ** Sample surroundings *)

Module Sample.

Definition cfg : Config :=
  {| CustomDomain := "https://images.qhaigc.net";
     PathPrefix := "img/";
     AllowedOrigins := ["*"];
     APIKey := "";
     StoragePath := "./storage";
     ListenAddr := ":8080";
     FileExpiryHours := 24 * 3600 * Second |}.

Definition start : Z := 1700000000000000000.

Definition no_fault : Op -> list string -> option Errno := fun _ _ => None.

Definition answer (st : Z) (ct : string) : HttpResponse :=
  {| StatusCode := st;
     Body := [Byte.x89; Byte.x50; Byte.x4e; Byte.x47];
     BodyErr := None;
     ContentTypeHeader := ct |}.

(** A remote that always answers 500. *)
Definition env500 : Env :=
  {| cwd := ["app"];
     clock := fun k => start + Z.of_nat k;
     net := fun _ _ => Responds (answer 500 "text/plain");
     fault := no_fault;
     short := fun _ => O |}.

(** A remote that answers 200 with the content type [ct]; the clock stands
    still at [start]. *)
Definition env200 (ct : string) : Env :=
  {| cwd := ["app"];
     clock := fun _ => start;
     net := fun _ _ => Responds (answer 200 ct);
     fault := no_fault;
     short := fun _ => O |}.

(** The first request fails, the second one succeeds. *)
Definition env_retry : Env :=
  {| cwd := ["app"];
     clock := fun k => start + Z.of_nat k;
     net := fun k _ => if (k <? 1)%nat then DoFails "timeout"
                       else Responds (answer 200 "image/jpeg; charset=binary");
     fault := no_fault;
     short := fun _ => O |}.

Definition secret : list Byte.byte := [Byte.x72; Byte.x6f; Byte.x6f; Byte.x74].

(** A tree with the storage directory [/app/storage], one cached image in
    it, and a file [/app/etc/passwd] next to it. *)
Definition tree : node :=
  Folder
    [("app",
      Folder
        [("storage",
          Folder [("img", Folder [("1600000000000000000-aaaaaa.png",
                                   File [Byte.x01; Byte.x02] 1600000000000000000);
                                  ("1699999999000000000-bbbbbb.gif",
                                   File [Byte.x03] 1699999999000000000)])]);
         ("etc", Folder [("passwd", File secret 1500000000000000000)])])].

Definition world : World := {| fs := tree; ticks := 0; trace := [] |}.

Definition post (url : string) : Request :=
  {| r_method := "POST"; r_path := "/proxy"; r_origin := ""; r_apikey := "";
     r_json := Some [("url", url)] |}.

Definition get (path : string) : Request :=
  {| r_method := "GET"; r_path := path; r_origin := ""; r_apikey := ""; r_json := None |}.

Definition connect (path : string) : Request :=
  {| r_method := "CONNECT"; r_path := path; r_origin := ""; r_apikey := ""; r_json := None |}.

Definition req : Request := post "http://example.com/a.png".

(** The URL of an answer of [handleProxy]. *)
Definition url_of (resp : Response) : string :=
  match body resp with
  | BodyResult _ u _ _ => u
  | _ => ""
  end.

Definition response_of (o : outcome Response) : Response :=
  match o with
  | Ret resp => resp
  | Panic msg => responseError [] msg
  end.

(** An ingest that succeeds at the second attempt, and one more after it. *)
Definition ingest1 : outcome Response * World := handleProxy cfg env_retry req [] world.
Definition ingest2 : outcome Response * World := handleProxy cfg env_retry req [] (snd ingest1).

(** An ingest of a resource of unknown type. *)
Definition ingest_unknown : outcome Response * World :=
  handleProxy cfg (env200 "application/octet-stream") req [] world.

(** The surroundings of a sweep in which the directory [img] cannot be
    read. *)
Definition env_unreadable : Env :=
  {| cwd := ["app"];
     clock := fun k => start + Z.of_nat k;
     net := fun _ _ => DoFails "offline";
     fault := fun op p =>
                match op, p with
                | OpReadDir, ["app"; "storage"; "img"] => Some EACCES
                | _, _ => None
                end;
     short := fun _ => O |}.

(** A remote that answers 200 with an image, and a disk that fails every
    write after two bytes. *)
Definition env_disk_full : Env :=
  {| cwd := ["app"];
     clock := fun k => start + Z.of_nat k;
     net := fun _ _ => Responds (answer 200 "image/png");
     fault := fun op _ =>
                match op with
                | OpWrite => Some EIO
                | _ => None
                end;
     short := fun _ => 2%nat |}.

(** As [env200], with a clock that moves on after its first reading. *)
Definition env_drift (ct : string) : Env :=
  {| cwd := ["app"];
     clock := fun k => match k with O => start | S _ => start + 1 end;
     net := fun _ _ => Responds (answer 200 ct);
     fault := no_fault;
     short := fun _ => O |}.

(** An ingest whose write fails. *)
Definition ingest_disk_full : outcome Response * World :=
  handleProxy cfg env_disk_full req [] world.

End Sample.

(** ** Start-up: the configuration and the rate limit *)

Module Startup.

(** [strings.HasSuffix] and [strings.TrimSuffix]. *)
Definition HasSuffix (s suffix : string) : bool :=
  has_prefix (rev (chars suffix)) (rev (chars s)).

Definition TrimSuffix (s suffix : string) : string :=
  if HasSuffix s suffix
  then unchars (firstn (List.length (chars s) - List.length (chars suffix)) (chars s))
  else s.

Fixpoint split_at (sep : ascii) (l : list ascii) : list ascii * list (list ascii) :=
  match l with
  | [] => ([], [])
  | c :: l' =>
      let '(s, r) := split_at sep l' in
      if Ascii.eqb c sep then ([], s :: r) else (c :: s, r)
  end.

(** [strings.Split] by a separator of one byte: every occurrence splits, so
    the result has one element more than there are separators. *)
Definition Split (s : string) (sep : ascii) : list string :=
  let '(s0, r) := split_at sep (chars s) in map unchars (s0 :: r).

Definition is_lower (c : ascii) : bool :=
  ((97 <=? nat_of_ascii c) && (nat_of_ascii c <=? 122))%nat.

Definition upper_ascii (c : ascii) : ascii :=
  if is_lower c then ascii_of_nat (nat_of_ascii c - 32) else c.

(** [strings.ToUpper], as far as a comparison of the result with an ASCII
    string can observe it: ASCII letters are raised, and so are the two runes
    outside ASCII whose upper case is an ASCII letter, U+0131 (to [I]) and
    U+017F (to [S]); every other byte is kept. *)
Fixpoint upper (fuel : nat) (l : list ascii) : list ascii :=
  match fuel with
  | O => l
  | S fuel' =>
      if has_prefix (bytes_of [196; 177]%nat) l
      then "I"%char :: upper fuel' (skipn 2 l)
      else if has_prefix (bytes_of [197; 191]%nat) l
      then "S"%char :: upper fuel' (skipn 2 l)
      else match l with
           | [] => []
           | c :: l' => upper_ascii c :: upper fuel' l'
           end
  end.

Definition ToUpper (s : string) : string :=
  unchars (upper (List.length (chars s)) (chars s)).

Definition maxInt64 : Z := 2 ^ 63 - 1.
Definition minInt64 : Z := - 2 ^ 63.

Definition in_int64 (z : Z) : option Z :=
  if (minInt64 <=? z) && (z <=? maxInt64) then Some z else None.

(** [strconv.ParseInt(s, 10, 64)]: an optional sign and at least one decimal
    digit, nothing else; a value outside of [int64] is an error. *)
Definition ParseInt (s : string) : option Z :=
  match s with
  | EmptyString => None
  | String c rest =>
      if Ascii.eqb c "+" then
        match NilZero.uint_of_string rest with
        | Some d => in_int64 (Z.of_uint d)
        | None => None
        end
      else if Ascii.eqb c "-" then
        match NilZero.uint_of_string rest with
        | Some d => in_int64 (- Z.of_uint d)
        | None => None
        end
      else
        match NilZero.uint_of_string s with
        | Some d => in_int64 (Z.of_uint d)
        | None => None
        end
  end.

(** [os.Getenv] is a function from names to values, empty for a name that
    is not set. *)
Definition getEnv (environ : string -> string) (key fallback : string) : string :=
  let value := environ key in
  if negb (value =? "")%string then value else fallback.

Definition Minute : Z := 60 * Second.
Definition Hour : Z := 60 * Minute.

(** [limiter.Rate]. *)
Record Rate : Type := {
  Period : Z;
  Limit : Z
}.

Definition defaultRate : Rate := {| Period := Minute; Limit := 100 |}.

Definition getRateLimit (environ : string -> string) : Rate :=
  let value := getEnv environ "RATE_LIMIT" "100-Minute" in
  let parts := Split value "-" in
  match parts with
  | [p0; p1] =>
      match ParseInt p0 with
      | None => defaultRate
      | Some limit =>
          let unit := ToUpper p1 in
          if (unit =? "SECOND")%string || (unit =? "SECONDS")%string
          then {| Period := Second; Limit := limit |}
          else if (unit =? "MINUTE")%string || (unit =? "MINUTES")%string
          then {| Period := Minute; Limit := limit |}
          else if (unit =? "HOUR")%string || (unit =? "HOURS")%string
          then {| Period := Hour; Limit := limit |}
          else defaultRate
      end
  | _ => defaultRate
  end.

(** [init]: the configuration read from the environment, and the storage
    directory created.  [expiry] stands for
    [time.Duration(getFloat64Env("FILE_EXPIRY_HOURS", 24.0) * float64(time.Hour))],
    a floating-point computation that is not modelled.  The result is [None]
    when [log.Fatal] ends the process. *)
Definition init (env : Env) (environ : string -> string) (expiry : Z) : M (option Config) :=
  let cfg :=
    {| CustomDomain := getEnv environ "CUSTOM_DOMAIN" "https://images.qhaigc.net";
       PathPrefix := TrimSuffix (getEnv environ "PATH_PREFIX" "img") "/" ++ "/";
       AllowedOrigins := map TrimSpace (Split (getEnv environ "ALLOWED_ORIGINS" "*") ",");
       APIKey := getEnv environ "API_KEY" "";
       StoragePath := getEnv environ "STORAGE_PATH" "./storage";
       ListenAddr := getEnv environ "LISTEN_ADDR" ":8080";
       FileExpiryHours := expiry |} in
  e <- os_MkdirAll env (Clean (StoragePath cfg)) ;;
  match e with
  | Some _ => ret None
  | None => ret (Some cfg)
  end.

End Startup.

Import Startup.

(** ** The background task *)

(** The loop of [startCleanupTask], up to the moment the ticker has fired
    [fired] times: one sweep at each tick.  The loop itself never ends. *)
Fixpoint ticker_loop (cfg : Config) (env : Env) (fired : nat) : M unit :=
  match fired with
  | O => ret tt
  | S fired' => _ <- cleanupOldFiles cfg env ;; ticker_loop cfg env fired'
  end.

(** [startCleanupTask], up to the same moment: a sweep at once, then the
    loop. *)
Definition startCleanupTask (cfg : Config) (env : Env) (fired : nat) : M unit :=
  _ <- cleanupOldFiles cfg env ;; ticker_loop cfg env fired.

(** ** Further notions used in the statements *)

(** The request is answered without an error by [downloadImage]. *)
Definition fetch_ok (r : HttpResult) : bool :=
  match r with
  | Responds resp => (StatusCode resp <? 400) && is_none (BodyErr resp)
  | _ => false
  end.

(** The time slept in a trace. *)
Fixpoint slept (tr : list Event) : Z :=
  match tr with
  | [] => 0
  | EvSleep d :: tr' => d + slept tr'
  | EvDownload _ :: tr' => slept tr'
  end.

(** The period of a unit of [RATE_LIMIT], in upper case. *)
Definition unit_period (unit : string) : option Z :=
  if (unit =? "SECOND")%string || (unit =? "SECONDS")%string then Some Second
  else if (unit =? "MINUTE")%string || (unit =? "MINUTES")%string then Some Minute
  else if (unit =? "HOUR")%string || (unit =? "HOURS")%string then Some Hour
  else None.

Definition is_letter (c : ascii) : bool := existsb (Ascii.eqb c) (chars letters).

Definition image_types : list string := ["image/jpeg"; "image/png"; "image/webp"; "image/gif"].

Definition is_folder (r : lookup_result) : bool :=
  match r with
  | Found (Folder _) => true
  | _ => false
  end.

Definition no_semicolon (c : ascii) : bool := negb (Ascii.eqb c ";").

Definition pieces (sep : ascii) (l : list ascii) : list (list ascii) :=
  fst (split_at sep l) :: snd (split_at sep l).

Definition free_of (sep : ascii) (l : list ascii) : bool :=
  forallb (fun c => negb (Ascii.eqb c sep)) l.

Definition count_of (sep : ascii) (l : list ascii) : nat :=
  List.length (filter (fun c => Ascii.eqb c sep) l).

(** The request [r] asks for [url], and the [k]-th request to the network
    was for [url] and was answered with a status below 400 and a body that
    could be read to its end. *)
Definition fetched (env : Env) (r : Request) (url : string) (k : nat)
    (answer : HttpResponse) : Prop :=
  (exists data, r_json r = Some data /\ url = TrimSpace (map_get data "url")) /\
  net env k url = Responds answer /\
  StatusCode answer < 400 /\
  BodyErr answer = None.

(** The media type [downloadImage] returns for an answer. *)
Definition media_type (answer : HttpResponse) : string :=
  TrimSpace (unchars (before_semicolon (chars (ContentTypeHeader answer)))).

(** The byte [randomString] draws from the [k]-th reading of the clock,
    [letters[t % 36]]. *)
Definition suffix_char (env : Env) (k : nat) : option ascii :=
  nth_error (chars letters) (Z.to_nat (Z.rem (clock env k) 36)).

(** * Properties *)

(** ** Strings *)

Lemma chars_app (a b : string) : chars (a ++ b) = (chars a ++ chars b)%list.
Proof. induction a as [|c a IH]; simpl; [reflexivity|]. unfold chars in *. simpl. now rewrite IH. Qed.

Lemma unchars_chars (s : string) : unchars (chars s) = s.
Proof. apply string_of_list_ascii_of_string. Qed.

Lemma chars_unchars (l : list ascii) : chars (unchars l) = l.
Proof. apply list_ascii_of_string_of_list_ascii. Qed.

Lemma chars_inj (a b : string) : chars a = chars b -> a = b.
Proof. intros H. rewrite <- (unchars_chars a), <- (unchars_chars b). now rewrite H. Qed.

Lemma strip_first_space (c : ascii) (l : list ascii) :
  ascii_space c = true -> strip_first space_runes (c :: l) = Some l.
Proof.
  unfold ascii_space. simpl. intros H.
  repeat (apply orb_true_iff in H; destruct H as [H|H];
          [apply Ascii.eqb_eq in H; subst c; reflexivity|]).
  discriminate.
Qed.

Lemma trim_front_spaces (l : list ascii) (fuel : nat) :
  forallb ascii_space l = true -> (List.length l <= fuel)%nat ->
  trim_front fuel space_runes l = [].
Proof.
  revert l. induction fuel as [|fuel IH]; intros [|c l] Hl Hf; simpl in *; try reflexivity; try lia.
  apply andb_true_iff in Hl. destruct Hl as [Hc Hl].
  change (match strip_first space_runes (c :: l) with
          | Some l' => trim_front fuel space_runes l'
          | None => c :: l
          end = []).
  rewrite (strip_first_space c l Hc). apply IH; [assumption|lia].
Qed.

(** A string of ASCII white space is trimmed to the empty string. *)
Lemma TrimSpace_blank (s : string) :
  forallb ascii_space (chars s) = true -> TrimSpace s = "".
Proof.
  intros H. unfold TrimSpace, trim_left. rewrite trim_front_spaces; [reflexivity|assumption|lia].
Qed.

(** ** The fetcher *)

Lemma downloadImage_run (env : Env) (url : string) (w : World) :
  exists out, downloadImage env url w = (Ret out, logged (EvDownload url) w).
Proof.
  unfold downloadImage, logged.
  destruct (net env (downloads (trace w)) url) as [e|e|resp]; try (eexists; reflexivity).
  destruct (_ || _); [eexists; reflexivity|].
  destruct (StatusCode resp >=? 400); [eexists; reflexivity|].
  destruct (BodyErr resp); eexists; reflexivity.
Qed.

(** C4. [downloadImage] classifies an answer by its status code: a status of
    500 or more, or 429, is a server error; another status from 400 to 499
    is a client error; any status below 400 gives the bytes of the body and
    the media type, unless reading the body fails; and an error is returned
    exactly when the status is 400 or more or the transport failed (the
    request could not be built or sent, or the body could not be read). *)
Theorem downloadImage_classifies (env : Env) (url : string) (w : World) :
  exists data ct err,
    downloadImage env url w = (Ret (data, ct, err), logged (EvDownload url) w) /\
    match net env (downloads (trace w)) url with
    | NewRequestFails e | DoFails e => err = Some (TransportError e)
    | Responds resp =>
        let st := StatusCode resp in
        (500 <= st \/ st = 429 -> err = Some (ServerError st (firstn 100 (Body resp)))) /\
        (400 <= st < 500 -> st <> 429 -> err = Some (ClientError st (firstn 100 (Body resp)))) /\
        (st < 400 -> BodyErr resp = None ->
           err = None /\ data = Body resp /\
           ct = TrimSpace (unchars (before_semicolon (chars (ContentTypeHeader resp))))) /\
        (st < 400 -> forall e, BodyErr resp = Some e -> err = Some (TransportError e)) /\
        (err <> None <-> 400 <= st \/ BodyErr resp <> None)
    end.
Proof.
  unfold downloadImage, logged.
  destruct (net env (downloads (trace w)) url) as [e|e|resp].
  - do 3 eexists. split; reflexivity.
  - do 3 eexists. split; reflexivity.
  - cbv zeta.
    destruct (StatusCode resp >=? 500) eqn:H5; [|destruct (StatusCode resp =? 429) eqn:H429];
      cbn [orb].
    + do 3 eexists. split; [reflexivity|].
      apply Z.geb_le in H5.
      repeat split; intros; try lia; try reflexivity; try discriminate; try (left; lia).
    + do 3 eexists. split; [reflexivity|].
      apply Z.eqb_eq in H429.
      repeat split; intros; try lia; try reflexivity; try discriminate; try (left; lia).
    + assert (H5' : StatusCode resp < 500) by (rewrite Z.geb_leb in H5; apply Z.leb_gt in H5; lia).
      apply Z.eqb_neq in H429.
      destruct (StatusCode resp >=? 400) eqn:H4.
      * do 3 eexists. split; [reflexivity|].
        apply Z.geb_le in H4.
        repeat split; intros; try lia; try reflexivity; try discriminate; try (left; lia).
      * assert (H4' : StatusCode resp < 400) by (rewrite Z.geb_leb in H4; apply Z.leb_gt in H4; lia).
        destruct (BodyErr resp) as [e|] eqn:Hb.
        -- do 3 eexists. split; [reflexivity|].
           repeat split; intros; try lia; try discriminate; try congruence.
           right; discriminate.
        -- do 3 eexists. split; [reflexivity|].
           repeat split; intros; try lia; try discriminate; try congruence.
           destruct H as [H|H]; [lia|congruence].
Qed.

(** ** The ingest handler *)

Lemma handleProxy_gates (cfg : Config) (env : Env) (r : Request) (hs : Headers) (w : World)
    (data : list (string * string)) :
  r_method r = "POST" ->
  APIKey cfg = "" \/ r_apikey r = APIKey cfg ->
  r_json r = Some data ->
  TrimSpace (map_get data "url") <> "" ->
  handleProxy cfg env r hs w =
  ('(imageData, contentType, err) <-
       retry_loop env 3 0 (TrimSpace (map_get data "url")) ([], "", None) ;;
   match err with
   | Some _ => ret (responseError hs DownloadFailed)
   | None =>
       let ext := getExtFromContentType contentType in
       let ext := if (ext =? "")%string then "png" else ext in
       t <- UnixNano env ;;
       rs <- randomString env 6 ;;
       let filename := PathPrefix cfg ++ itoa t ++ "-" ++ rs ++ "." ++ ext in
       let fullPath := Join (StoragePath cfg) filename in
       e <- os_MkdirAll env (Dir fullPath) ;;
       match e with
       | Some _ => ret (responseError hs StorageFailed)
       | None =>
           e <- os_WriteFile env fullPath imageData ;;
           match e with
           | Some _ => ret (responseError hs StorageFailed)
           | None =>
               let proxyURL := CustomDomain cfg ++ "/" ++ filename in
               ret {| status := StatusOK;
                      headers := header_set "Content-Type" "application/json" (set_all hs []);
                      body := BodyResult true proxyURL contentType
                                (Z.of_nat (List.length imageData)) |}
           end
       end
   end) w.
Proof.
  intros Hm Hk Hj Hu. unfold handleProxy.
  rewrite Hm, Hj. cbn [String.eqb negb].
  replace ("POST" =? "POST")%string with true by reflexivity. cbn [negb].
  assert (Hgate : negb (APIKey cfg =? "")%string && negb (r_apikey r =? APIKey cfg)%string = false).
  { destruct Hk as [Hk|Hk]; rewrite Hk.
    - reflexivity.
    - rewrite String.eqb_refl. apply andb_false_r. }
  rewrite Hgate.
  apply String.eqb_neq in Hu. rewrite Hu. reflexivity.
Qed.

(** C7. A request whose URL is empty, or is trimmed to the empty string by
    [strings.TrimSpace], is answered with the InvalidRequest error, and
    nothing is fetched: the world, and with it the trace of downloads, is as
    before. *)
Theorem handleProxy_blank_url (cfg : Config) (env : Env) (r : Request) (hs : Headers) (w : World) :
  (forall data, r_json r = Some data -> TrimSpace (map_get data "url") = "") ->
  handleProxy cfg env r hs w = (Ret (responseError hs InvalidRequest), w).
Proof.
  intros H. unfold handleProxy.
  destruct (negb (r_method r =? "POST")%string); [reflexivity|].
  destruct (negb (APIKey cfg =? "")%string && negb (r_apikey r =? APIKey cfg)%string);
    [reflexivity|].
  destruct (r_json r) as [data|]; [|reflexivity].
  rewrite (H data eq_refl). reflexivity.
Qed.

Lemma handleProxy_blank_url_witness :
  handleProxy Sample.cfg Sample.env500 (Sample.post (unchars (bytes_of [32; 9; 10; 32]%nat))) []
    Sample.world
  = (Ret (responseError [] InvalidRequest), Sample.world).
Proof.
  apply handleProxy_blank_url.
  intros data H. injection H as <-. reflexivity.
Defined.

(** One iteration of the retry loop. *)
Lemma retry_loop_step (env : Env) (n : nat) (i : Z) (url : string)
    (st : list Byte.byte * string * option Error) (w : World) :
  retry_loop env (S n) i url st w =
  match downloadImage env url w with
  | (Ret r, w1) =>
      match snd r with
      | None => (Ret r, w1)
      | Some _ =>
          retry_loop env n (i + 1) url r
            (if i <? 2 then logged (EvSleep ((i + 1) * Second)) w1 else w1)
      end
  | (Panic msg, w1) => (Panic msg, w1)
  end.
Proof.
  cbn [retry_loop]. unfold bind at 1.
  destruct (downloadImage env url w) as [[r|msg] w1]; [|reflexivity].
  destruct (snd r); [|reflexivity].
  unfold bind. destruct (i <? 2); reflexivity.
Qed.

Lemma retry_loop_run (env : Env) (url : string)
    (st : list Byte.byte * string * option Error) (w : World) :
  exists r evs,
    retry_loop env 3 0 url st w = (Ret r, extended evs w) /\
    ((snd r = None /\ (evs = attempts1 url \/ evs = attempts2 url \/ evs = attempts3 url))
     \/ (snd r <> None /\ evs = attempts3 url)) /\
    exists w0, downloadImage env url w0 = (Ret r, logged (EvDownload url) w0).
Proof.
  rewrite retry_loop_step.
  destruct (downloadImage_run env url w) as [r1 H1]. rewrite H1.
  destruct (snd r1) eqn:E1.
  2:{ exists r1, (attempts1 url). split; [reflexivity|]. split; [|eauto]. left. auto. }
  change (0 <? 2) with true. cbv iota.
  rewrite retry_loop_step.
  destruct (downloadImage_run env url (logged (EvSleep ((0 + 1) * Second)) (logged (EvDownload url) w)))
    as [r2 H2].
  rewrite H2.
  destruct (snd r2) eqn:E2.
  2:{ exists r2, (attempts2 url). split.
      - unfold logged, extended, attempts2. cbn [fs ticks trace].
        rewrite <- !app_assoc. reflexivity.
      - split; [|eauto]. left. auto. }
  change (0 + 1 <? 2) with true. cbv iota.
  rewrite retry_loop_step.
  match goal with
  | |- context [downloadImage env url ?w2] => destruct (downloadImage_run env url w2) as [r3 H3]
  end.
  rewrite H3.
  exists r3, (attempts3 url).
  assert (Hw : forall x : World,
             x = logged (EvDownload url)
                   (logged (EvSleep ((0 + 1 + 1) * Second))
                      (logged (EvDownload url)
                         (logged (EvSleep ((0 + 1) * Second)) (logged (EvDownload url) w)))) ->
             x = extended (attempts3 url) w).
  { intros x ->. unfold logged, extended, attempts3. cbn [fs ticks trace].
    rewrite <- !app_assoc. reflexivity. }
  destruct (snd r3) eqn:E3.
  - change (0 + 1 + 1 <? 2) with false. cbv iota. cbn [retry_loop]. unfold ret.
    split; [f_equal; apply Hw; reflexivity|].
    split; [right; split; [congruence|reflexivity]|eauto].
  - split; [f_equal; apply Hw; reflexivity|].
    split; [left; auto|eauto].
Qed.

(** C2. When every attempt to fetch the URL fails, [handleProxy] calls
    [downloadImage] exactly three times, answers with the DownloadFailed
    error, and leaves the file tree as it was. *)
Theorem handleProxy_download_failed (cfg : Config) (env : Env) (r : Request) (hs : Headers)
    (w : World) (data : list (string * string)) :
  r_method r = "POST" ->
  APIKey cfg = "" \/ r_apikey r = APIKey cfg ->
  r_json r = Some data ->
  TrimSpace (map_get data "url") <> "" ->
  (forall w0 out w1,
      downloadImage env (TrimSpace (map_get data "url")) w0 = (Ret out, w1) -> snd out <> None) ->
  exists w',
    handleProxy cfg env r hs w = (Ret (responseError hs DownloadFailed), w') /\
    fs w' = fs w /\
    trace w' = (trace w ++ attempts3 (TrimSpace (map_get data "url")))%list /\
    downloads (trace w') = (downloads (trace w) + 3)%nat.
Proof.
  intros Hm Hk Hj Hu Hfail.
  rewrite (handleProxy_gates cfg env r hs w data Hm Hk Hj Hu).
  set (url := TrimSpace (map_get data "url")) in *.
  destruct (retry_loop_run env url ([], "", None) w) as (res & evs & Hrun & Hshape & w0 & Hlast).
  apply Hfail in Hlast.
  destruct Hshape as [[Hnone _] | [_ ->]]; [contradiction|].
  exists (extended (attempts3 url) w).
  unfold bind at 1. rewrite Hrun.
  destruct res as [[imageData contentType] err]. cbn [snd] in Hlast.
  destruct err as [e|]; [|contradiction].
  split; [reflexivity|]. split; [reflexivity|]. split; [reflexivity|].
  cbn [extended trace]. unfold downloads. rewrite filter_app, length_app. reflexivity.
Qed.

Lemma handleProxy_download_failed_witness :
  exists w',
    handleProxy Sample.cfg Sample.env500 (Sample.post "http://example.com/a.png") [] Sample.world
    = (Ret (responseError [] DownloadFailed), w') /\
    fs w' = fs Sample.world /\
    trace w' = (trace Sample.world ++ attempts3 "http://example.com/a.png")%list /\
    downloads (trace w') = (downloads (trace Sample.world) + 3)%nat.
Proof.
  apply (handleProxy_download_failed Sample.cfg Sample.env500
           (Sample.post "http://example.com/a.png") [] Sample.world
           [("url", "http://example.com/a.png")]).
  - reflexivity.
  - left. reflexivity.
  - reflexivity.
  - vm_compute. discriminate.
  - intros w0 out w1 H. vm_compute in H. injection H as <- _. discriminate.
Defined.

Lemma trace_randomString_loop (env : Env) (n : nat) (w : World) :
  trace (snd (randomString_loop env n w)) = trace w.
Proof.
  revert w. induction n as [|n IH]; intros w; [reflexivity|].
  cbn [randomString_loop]. unfold bind at 1. unfold UnixNano at 1.
  destruct (Z.rem _ _ <? 0); [reflexivity|].
  destruct (nth_error _ _); [|reflexivity].
  unfold bind.
  match goal with |- context [randomString_loop env n ?w1] => specialize (IH w1) end.
  destruct (randomString_loop env n _) as [[rest|msg] w2]; exact IH.
Qed.

(** [handleProxy] adds to the trace the events of its retry loop, and
    nothing else. *)
Lemma handleProxy_trace (cfg : Config) (env : Env) (r : Request) (hs : Headers) (w : World) :
  exists url evs,
    trace (snd (handleProxy cfg env r hs w)) = (trace w ++ evs)%list /\
    (evs = [] \/ evs = attempts1 url \/ evs = attempts2 url \/ evs = attempts3 url).
Proof.
  unfold handleProxy.
  destruct (negb (r_method r =? "POST")%string);
    [exists "", []; split; [symmetry; apply app_nil_r|auto]|].
  destruct (negb (APIKey cfg =? "")%string && negb (r_apikey r =? APIKey cfg)%string);
    [exists "", []; split; [symmetry; apply app_nil_r|auto]|].
  destruct (r_json r) as [data|];
    [|exists "", []; split; [symmetry; apply app_nil_r|auto]].
  set (url := TrimSpace (map_get data "url")).
  destruct (url =? "")%string;
    [exists "", []; split; [symmetry; apply app_nil_r|auto]|].
  destruct (retry_loop_run env url ([], "", None) w) as (res & evs & Hrun & Hshape & _).
  exists url, evs. split.
  2:{ destruct Hshape as [[_ H]|[_ H]]; [right; exact H|right; right; right; exact H]. }
  unfold bind at 1. rewrite Hrun. destruct res as [[imageData contentType] err].
  destruct err; [reflexivity|].
  unfold bind at 1. unfold UnixNano at 1.
  unfold bind at 1. unfold randomString. unfold bind at 1.
  match goal with |- context [randomString_loop env 6 ?w1] =>
    pose proof (trace_randomString_loop env 6 w1) as Hr;
    destruct (randomString_loop env 6 w1) as [[b|msg] w2]
  end; cbn [snd trace extended] in Hr; [|exact Hr].
  unfold ret at 1. unfold bind at 1. unfold os_MkdirAll.
  destruct (resolve _ _) as [loc|]; [|exact Hr].
  destruct (fault env OpMkdirAll loc); [exact Hr|].
  destruct (mkdir_all _ _) as [e|t]; [exact Hr|].
  unfold bind at 1. unfold os_WriteFile. cbn [set_fs fs ticks trace].
  destruct (resolve _ _) as [loc'|]; [|exact Hr].
  destruct (fault env OpWriteFile loc'); [exact Hr|].
  cbv zeta. destruct (fault env OpWrite loc'); destruct (write_file _ _ _ _); exact Hr.
Qed.

Lemma downloads_app (tr1 tr2 : list Event) :
  downloads (tr1 ++ tr2) = (downloads tr1 + downloads tr2)%nat.
Proof. unfold downloads. rewrite filter_app, length_app. reflexivity. Qed.

(** [downloadImage] returns no error exactly when the request is answered
    with a status below 400 and the body can be read. *)
Lemma downloadImage_fetch_ok (env : Env) (url : string) (w : World) :
  exists out,
    downloadImage env url w = (Ret out, logged (EvDownload url) w) /\
    (snd out = None <-> fetch_ok (net env (downloads (trace w)) url) = true).
Proof.
  unfold downloadImage, logged, fetch_ok.
  destruct (net env (downloads (trace w)) url) as [e|e|resp];
    try (eexists; split; [reflexivity|]; split; discriminate).
  destruct (StatusCode resp >=? 500) eqn:H5; cbn [orb].
  { eexists. split; [reflexivity|]. split; [discriminate|].
    apply Z.geb_le in H5. intros H. apply andb_true_iff in H. destruct H as [H _].
    apply Z.ltb_lt in H. lia. }
  destruct (StatusCode resp =? 429) eqn:H429.
  { eexists. split; [reflexivity|]. split; [discriminate|].
    apply Z.eqb_eq in H429. intros H. apply andb_true_iff in H. destruct H as [H _].
    apply Z.ltb_lt in H. lia. }
  destruct (StatusCode resp >=? 400) eqn:H4.
  { eexists. split; [reflexivity|]. split; [discriminate|].
    apply Z.geb_le in H4. intros H. apply andb_true_iff in H. destruct H as [H _].
    apply Z.ltb_lt in H. lia. }
  rewrite Z.geb_leb in H4. apply Z.leb_gt in H4.
  replace (StatusCode resp <? 400) with true by (symmetry; apply Z.ltb_lt; exact H4).
  destruct (BodyErr resp); eexists; (split; [reflexivity|]); cbn; split; congruence.
Qed.

(** The trace of the loop, by the outcomes of the requests it makes. *)
Lemma retry_loop_first_success (env : Env) (url : string)
    (st : list Byte.byte * string * option Error) (w : World) :
  let ok := fun j => fetch_ok (net env (downloads (trace w) + j)%nat url) in
  exists res,
    retry_loop env 3 0 url st w
    = (Ret res,
       extended (if ok 0%nat then attempts1 url
                 else if ok 1%nat then attempts2 url else attempts3 url) w) /\
    (snd res = None <-> ok 0%nat || ok 1%nat || ok 2%nat = true).
Proof.
  intros ok. subst ok. cbv beta.
  rewrite retry_loop_step.
  destruct (downloadImage_fetch_ok env url w) as (r1 & H1 & Hok1). rewrite H1.
  rewrite Nat.add_0_r.
  destruct (snd r1) eqn:E1.
  2:{ rewrite (proj1 Hok1 eq_refl). exists r1. split; [reflexivity|].
      rewrite E1. split; reflexivity. }
  destruct (fetch_ok (net env (downloads (trace w)) url)) eqn:F1.
  { destruct Hok1 as [_ H]. discriminate (H eq_refl). }
  cbn [orb].
  change (0 <? 2) with true. cbv iota.
  rewrite retry_loop_step.
  set (w1 := logged (EvSleep ((0 + 1) * Second)) (logged (EvDownload url) w)).
  assert (D1 : downloads (trace w1) = (downloads (trace w) + 1)%nat).
  { unfold w1, logged. cbn [trace]. rewrite !downloads_app. cbn. lia. }
  destruct (downloadImage_fetch_ok env url w1) as (r2 & H2 & Hok2). rewrite H2.
  rewrite D1 in Hok2.
  destruct (snd r2) eqn:E2.
  2:{ rewrite (proj1 Hok2 eq_refl). exists r2. split.
      - unfold w1, logged, extended, attempts2. cbn [fs ticks trace].
        rewrite <- !app_assoc. reflexivity.
      - rewrite E2. split; reflexivity. }
  destruct (fetch_ok (net env (downloads (trace w) + 1)%nat url)) eqn:F2.
  { destruct Hok2 as [_ H]. discriminate (H eq_refl). }
  cbn [orb].
  change (0 + 1 <? 2) with true. cbv iota.
  rewrite retry_loop_step.
  set (w2 := logged (EvSleep ((0 + 1 + 1) * Second)) (logged (EvDownload url) w1)).
  assert (D2 : downloads (trace w2) = (downloads (trace w) + 2)%nat).
  { unfold w2, logged. cbn [trace]. rewrite !downloads_app, D1. cbn. lia. }
  destruct (downloadImage_fetch_ok env url w2) as (r3 & H3 & Hok3). rewrite H3.
  rewrite D2 in Hok3.
  assert (Hw : logged (EvDownload url) w2 = extended (attempts3 url) w).
  { unfold w2, w1, logged, extended, attempts3. cbn [fs ticks trace].
    rewrite <- !app_assoc. reflexivity. }
  exists r3. destruct (snd r3) eqn:E3.
  - change (0 + 1 + 1 <? 2) with false. cbv iota. cbn [retry_loop]. unfold ret.
    split; [rewrite Hw; reflexivity|]. exact Hok3.
  - split; [rewrite Hw; reflexivity|]. exact Hok3.
Qed.

(** After the gates and the retry loop, [handleProxy] adds no event, and
    answers with the DownloadFailed error exactly when the loop ended with
    an error. *)
Lemma handleProxy_after_retry (cfg : Config) (env : Env) (r : Request) (hs : Headers)
    (w w1 : World) (data : list (string * string))
    (res : list Byte.byte * string * option Error) :
  r_method r = "POST" ->
  APIKey cfg = "" \/ r_apikey r = APIKey cfg ->
  r_json r = Some data ->
  TrimSpace (map_get data "url") <> "" ->
  retry_loop env 3 0 (TrimSpace (map_get data "url")) ([], "", None) w = (Ret res, w1) ->
  trace (snd (handleProxy cfg env r hs w)) = trace w1 /\
  (fst (handleProxy cfg env r hs w) = Ret (responseError hs DownloadFailed) <-> snd res <> None).
Proof.
  intros Hm Hk Hj Hu Hretry.
  pose proof (handleProxy_gates cfg env r hs w data Hm Hk Hj Hu) as Hg.
  unfold bind at 1 in Hg. rewrite Hretry in Hg. rewrite Hg. clear Hg.
  destruct res as [[imageData contentType] err]. cbn [snd].
  destruct err as [e|].
  { split; [reflexivity|]. split; [discriminate|reflexivity]. }
  assert (Hgoal : forall x : outcome Response * World,
             trace (snd x) = trace w1 ->
             fst x <> Ret (responseError hs DownloadFailed) ->
             trace (snd x) = trace w1 /\
             (fst x = Ret (responseError hs DownloadFailed) <-> @None Error <> None)).
  { intros x Ht Hf. split; [exact Ht|]. split; [contradiction|congruence]. }
  apply Hgoal; clear Hgoal.
  - unfold bind at 1. unfold UnixNano at 1.
    unfold bind at 1. unfold randomString. unfold bind at 1.
    match goal with |- context [randomString_loop env 6 ?w2] =>
      pose proof (trace_randomString_loop env 6 w2) as Hr;
      destruct (randomString_loop env 6 w2) as [[b|msg] w3]
    end; cbn [snd trace] in Hr; [|exact Hr].
    unfold ret at 1. unfold bind at 1. unfold os_MkdirAll.
    destruct (resolve _ _) as [loc|]; [|exact Hr].
    destruct (fault env OpMkdirAll loc); [exact Hr|].
    destruct (mkdir_all _ _) as [e|t]; [exact Hr|].
    unfold bind at 1. unfold os_WriteFile. cbn [set_fs fs ticks trace].
    destruct (resolve _ _) as [loc'|]; [|exact Hr].
    destruct (fault env OpWriteFile loc'); [exact Hr|].
    cbv zeta. destruct (fault env OpWrite loc'); destruct (write_file _ _ _ _); exact Hr.
  - unfold bind at 1. unfold UnixNano at 1.
    unfold bind at 1. unfold randomString. unfold bind at 1.
    destruct (randomString_loop env 6 _) as [[b|msg] w3]; [|discriminate].
    unfold ret at 1. unfold bind at 1. unfold os_MkdirAll.
    destruct (resolve _ _) as [loc|]; [|discriminate].
    destruct (fault env OpMkdirAll loc); [discriminate|].
    destruct (mkdir_all _ _) as [e|t]; [discriminate|].
    unfold bind at 1. unfold os_WriteFile. cbn [set_fs fs ticks trace].
    destruct (resolve _ _) as [loc'|]; [|discriminate].
    destruct (fault env OpWriteFile loc'); [discriminate|].
    cbv zeta. destruct (fault env OpWrite loc'); destruct (write_file _ _ _ _); discriminate.
Qed.

Ltac small_index i :=
  destruct i as [|[|[|[|i]]]]; cbn in *; try discriminate; try lia.

Lemma delays_of_retry (evs : list Event) (url : string) :
  evs = [] \/ evs = attempts1 url \/ evs = attempts2 url \/ evs = attempts3 url ->
  (forall d, delay_before evs 1 = Some d -> d = 0) /\
  (forall i d, (1 <= i < 3)%nat -> delay_before evs (S i) = Some d -> d = Z.of_nat i * Second) /\
  (forall i j d d', (i <= j)%nat ->
     delay_before evs i = Some d -> delay_before evs j = Some d' -> d <= d').
Proof.
  unfold delay_before.
  intros [-> | [-> | [-> | ->]]]; (split; [|split]).
  all: try (intros d H; cbn in H; congruence).
  all: try (intros i d Hi H; small_index i; injection H as <-; reflexivity).
  all: intros i j d d' Hij Hd Hd'; small_index i; small_index j;
       injection Hd as <-; injection Hd' as <-; unfold Second; lia.
Qed.

(** C3, as the code has it. For a request that passes the gates the loop
    makes [n] calls of [downloadImage], with [1 <= n <= 3]: the calls before
    the last one failed, and the last one succeeded unless it is the third.
    Nothing is slept before the first call; after the failed call [i]
    (counted from 1, [i < 3]) the loop sleeps [i] seconds and then makes the
    call [i + 1]; and nothing is slept after the last call: the events are
    the [n] calls and the [n - 1] sleeps between them, and the last event is
    a call. The delays grow linearly and never decrease from one call to the
    next. The call [i] is the request number [downloads (trace w) + i - 1] to
    the network. *)
Theorem backoff_after_failed_attempt (cfg : Config) (env : Env) (r : Request) (hs : Headers)
    (w : World) (data : list (string * string)) :
  r_method r = "POST" ->
  APIKey cfg = "" \/ r_apikey r = APIKey cfg ->
  r_json r = Some data ->
  TrimSpace (map_get data "url") <> "" ->
  let url := TrimSpace (map_get data "url") in
  let ok := fun i => fetch_ok (net env (downloads (trace w) + (i - 1))%nat url) in
  exists n evs,
    trace (snd (handleProxy cfg env r hs w)) = (trace w ++ evs)%list /\
    (1 <= n <= 3)%nat /\
    downloads evs = n /\
    List.length evs = (2 * n - 1)%nat /\
    last evs (EvSleep 0) = EvDownload url /\
    (forall i, (1 <= i < n)%nat -> ok i = false) /\
    ((n < 3)%nat -> ok n = true) /\
    delay_before evs 1 = Some 0 /\
    (forall i, (1 <= i < n)%nat -> delay_before evs (S i) = Some (Z.of_nat i * Second)) /\
    (forall i, (n < i)%nat -> delay_before evs i = None) /\
    (forall i j d d', (i <= j)%nat ->
       delay_before evs i = Some d -> delay_before evs j = Some d' -> d <= d').
Proof.
  intros Hm Hk Hj Hu url ok.
  destruct (retry_loop_first_success env url ([], "", None) w) as (res & Hretry & _).
  destruct (handleProxy_after_retry cfg env r hs w _ data res Hm Hk Hj Hu Hretry) as [Ht _].
  clear Hretry. cbn [extended trace] in Ht. fold url in Ht.
  assert (H1 : ok 1%nat = fetch_ok (net env (downloads (trace w) + 0)%nat url)) by reflexivity.
  assert (H2 : ok 2%nat = fetch_ok (net env (downloads (trace w) + 1)%nat url)) by reflexivity.
  rewrite <- H1, <- H2 in Ht. clear H1 H2.
  destruct (ok 1%nat) eqn:F1; [|destruct (ok 2%nat) eqn:F2].
  - exists 1%nat, (attempts1 url). split; [exact Ht|].
    split; [lia|]. split; [reflexivity|]. split; [reflexivity|]. split; [reflexivity|].
    split; [intros i Hi; lia|]. split; [intros _; exact F1|]. split; [reflexivity|].
    split; [intros i Hi; lia|].
    split; [intros i Hi; destruct i as [|[|i]]; try lia; reflexivity|].
    apply (delays_of_retry _ url). auto.
  - exists 2%nat, (attempts2 url). split; [exact Ht|].
    split; [lia|]. split; [reflexivity|]. split; [reflexivity|]. split; [reflexivity|].
    split; [intros i Hi; assert (i = 1%nat) as -> by lia; exact F1|].
    split; [intros _; exact F2|]. split; [reflexivity|].
    split; [intros i Hi; assert (i = 1%nat) as -> by lia; reflexivity|].
    split; [intros i Hi; destruct i as [|[|[|i]]]; try lia; reflexivity|].
    apply (delays_of_retry _ url). auto.
  - exists 3%nat, (attempts3 url). split; [exact Ht|].
    split; [lia|]. split; [reflexivity|]. split; [reflexivity|]. split; [reflexivity|].
    split.
    { intros i Hi. assert (i = 1%nat \/ i = 2%nat) as [-> | ->] by lia; assumption. }
    split; [intros Hn; lia|]. split; [reflexivity|].
    split.
    { intros i Hi. assert (i = 1%nat \/ i = 2%nat) as [-> | ->] by lia; reflexivity. }
    split; [intros i Hi; destruct i as [|[|[|[|i]]]]; try lia; reflexivity|].
    apply (delays_of_retry _ url). auto.
Qed.

Lemma backoff_after_failed_attempt_witness :
  exists n evs,
    trace (snd (handleProxy Sample.cfg Sample.env_retry Sample.req [] Sample.world))
    = (trace Sample.world ++ evs)%list /\
    (1 <= n <= 3)%nat /\
    downloads evs = n /\
    List.length evs = (2 * n - 1)%nat /\
    last evs (EvSleep 0)
    = EvDownload (TrimSpace (map_get [("url", "http://example.com/a.png")] "url")) /\
    (forall i, (1 <= i < n)%nat ->
       fetch_ok (net Sample.env_retry (downloads (trace Sample.world) + (i - 1))%nat
                   (TrimSpace (map_get [("url", "http://example.com/a.png")] "url"))) = false) /\
    ((n < 3)%nat ->
       fetch_ok (net Sample.env_retry (downloads (trace Sample.world) + (n - 1))%nat
                   (TrimSpace (map_get [("url", "http://example.com/a.png")] "url"))) = true) /\
    delay_before evs 1 = Some 0 /\
    (forall i, (1 <= i < n)%nat -> delay_before evs (S i) = Some (Z.of_nat i * Second)) /\
    (forall i, (n < i)%nat -> delay_before evs i = None) /\
    (forall i j d d', (i <= j)%nat ->
       delay_before evs i = Some d -> delay_before evs j = Some d' -> d <= d').
Proof.
  apply (backoff_after_failed_attempt Sample.cfg Sample.env_retry Sample.req [] Sample.world
           [("url", "http://example.com/a.png")]).
  - reflexivity.
  - left. reflexivity.
  - reflexivity.
  - vm_compute. discriminate.
Defined.

(** C3, as it is worded, fails: against a remote that always answers 500
    all three calls are made, and the time slept before the call 2 is one
    second, not two (and nothing is slept before the call 1). *)
Lemma backoff_before_attempt_counterexample :
  ~ (forall i, (1 <= i < 3)%nat ->
       delay_before
         (trace (snd (handleProxy Sample.cfg Sample.env500
                        (Sample.post "http://example.com/a.png") [] Sample.world))) i
       = Some (Z.of_nat i * Second)).
Proof.
  intros H. specialize (H 2%nat ltac:(lia)). vm_compute in H. discriminate.
Qed.

(** ** Paths *)

Lemma elements_segs (s : string) : elements s = map unchars (segs (chars s)).
Proof. unfold elements, segs. destruct (split_slash (chars s)). reflexivity. Qed.

Lemma segs_cons (c : ascii) (l : list ascii) :
  segs (c :: l) =
  if Ascii.eqb c "/" then [] :: segs l
  else (c :: fst (split_slash l)) :: snd (split_slash l).
Proof.
  unfold segs. cbn [split_slash]. destruct (split_slash l) as [s r].
  destruct (Ascii.eqb c "/"); reflexivity.
Qed.

Lemma segs_no_slash (x : list ascii) : forallb no_slash x = true -> segs x = [x].
Proof.
  induction x as [|c x IH]; [reflexivity|]. cbn [forallb]. intros H.
  apply andb_true_iff in H. destruct H as [Hc Hx].
  rewrite segs_cons. unfold no_slash in Hc. apply negb_true_iff in Hc. rewrite Hc.
  specialize (IH Hx). unfold segs in IH. injection IH as -> ->. reflexivity.
Qed.

(** Appending text without a slash extends the last element. *)
Lemma segs_app_no_slash (l x : list ascii) :
  forallb no_slash x = true ->
  exists init z, segs l = (init ++ [z])%list /\ segs (l ++ x) = (init ++ [(z ++ x)%list])%list.
Proof.
  intros Hx. induction l as [|c l IH].
  - exists [], []. split; [reflexivity|]. apply segs_no_slash, Hx.
  - destruct IH as (init & z & H1 & H2).
    cbn [app]. rewrite !segs_cons.
    destruct (Ascii.eqb c "/").
    + exists ([] :: init), z. rewrite H1, H2. split; reflexivity.
    + unfold segs in H1, H2.
      destruct init as [|i0 init].
      * injection H1 as E1 E2. injection H2 as E3 E4.
        exists [], (c :: z). rewrite E1, E2, E3, E4. split; reflexivity.
      * injection H1 as E1 E2. injection H2 as E3 E4.
        exists ((c :: i0) :: init), z. rewrite E1, E2, E3, E4. split; reflexivity.
Qed.

(** The elements of [a/b] are those of [a] followed by those of [b]. *)
Lemma segs_app_slash (a b : list ascii) :
  segs (a ++ "/"%char :: b) = (segs a ++ segs b)%list.
Proof.
  induction a as [|c a IH].
  - cbn [app]. rewrite segs_cons. reflexivity.
  - cbn [app]. rewrite !segs_cons. destruct (Ascii.eqb c "/").
    + rewrite IH. reflexivity.
    + unfold segs in IH. injection IH as -> ->. reflexivity.
Qed.

Lemma ext_chars_no_dot (x : list ascii) : forallb plain x = true -> ext_chars x = None.
Proof.
  induction x as [|c x IH]; [reflexivity|]. cbn [forallb ext_chars]. intros H.
  apply andb_true_iff in H. destruct H as [Hc Hx]. rewrite (IH Hx).
  unfold plain in Hc. apply andb_true_iff in Hc. destruct Hc as [_ Hc].
  apply negb_true_iff in Hc. rewrite Hc. reflexivity.
Qed.

Lemma ext_chars_app (z x : list ascii) :
  forallb plain x = true -> ext_chars (z ++ "."%char :: x) = Some ("."%char :: x).
Proof.
  intros Hx. induction z as [|c z IH].
  - cbn [app ext_chars]. rewrite (ext_chars_no_dot x Hx). reflexivity.
  - cbn [app ext_chars]. rewrite IH. reflexivity.
Qed.

Lemma plain_no_slash (x : list ascii) : forallb plain x = true -> forallb no_slash x = true.
Proof.
  induction x as [|c x IH]; [reflexivity|]. cbn [forallb]. intros H.
  apply andb_true_iff in H. destruct H as [Hc Hx]. rewrite (IH Hx).
  unfold plain in Hc. apply andb_true_iff in Hc. destruct Hc as [Hc _].
  unfold no_slash. rewrite Hc. reflexivity.
Qed.

(** An element that ends in a dot and a plain, non-empty extension is kept
    by [filepath.Clean]. *)
Lemma clean_step_named (rooted : bool) (stack : list string) (z x : list ascii) :
  x <> [] -> forallb plain x = true ->
  clean_step rooted stack (unchars (z ++ "."%char :: x)) = unchars (z ++ "."%char :: x) :: stack.
Proof.
  intros Hne Hx. unfold clean_step.
  assert (Hno : forall s, In s [""; "."; ".."] -> (unchars (z ++ "."%char :: x) =? s)%string = false).
  { intros s Hs. apply String.eqb_neq. intros E.
    apply (f_equal chars) in E. rewrite chars_unchars in E.
    destruct x as [|c x]; [congruence|].
    cbn [forallb] in Hx. apply andb_true_iff in Hx. destruct Hx as [Hc Hx].
    assert (Hc' : c <> "."%char).
    { intros ->. discriminate Hc. }
    destruct Hs as [<-|[<-|[<-|[]]]]; cbn in E.
    - destruct z; discriminate E.
    - destruct z as [|a [|b z]]; discriminate E.
    - destruct z as [|a [|b z]]; cbn in E.
      + injection E as E. congruence.
      + destruct x; discriminate E.
      + destruct z; discriminate E. }
  rewrite (Hno "" ltac:(simpl; auto)), (Hno "." ltac:(simpl; auto)),
    (Hno ".." ltac:(simpl; auto)).
  reflexivity.
Qed.

(** [filepath.Ext] of a cleaned path whose text ends in a dot and a plain,
    non-empty extension is that dot and extension. *)
Lemma Ext_Clean (s : string) (l x : list ascii) :
  chars s = (l ++ "."%char :: x)%list -> x <> [] -> forallb plain x = true ->
  Ext (Clean s) = unchars ("."%char :: x).
Proof.
  intros Hs Hne Hx. unfold Clean, Ext.
  rewrite elements_segs, Hs.
  assert (Hdx : forallb no_slash ("."%char :: x) = true).
  { cbn [forallb]. rewrite (plain_no_slash x Hx). reflexivity. }
  destruct (segs_app_no_slash l ("."%char :: x) Hdx) as (init & z & _ & H2).
  rewrite H2. rewrite map_app. cbn [map]. unfold clean_from. rewrite fold_left_app.
  cbn [fold_left]. rewrite clean_step_named by assumption. rewrite rev_involutive.
  unfold ext_of. rewrite chars_unchars, ext_chars_app by assumption. reflexivity.
Qed.

Lemma getExtFromContentType_cases (ct : string) :
  In (getExtFromContentType ct) ["jpg"; "png"; "webp"; "gif"].
Proof.
  unfold getExtFromContentType.
  destruct (_ || _); [simpl; auto|].
  destruct (ct =? "image/png")%string; [simpl; auto|].
  destruct (ct =? "image/webp")%string; [simpl; auto|].
  destruct (ct =? "image/gif")%string; simpl; auto.
Qed.

Lemma Join_named (sp name : string) (x : list ascii) :
  exists l, forall ext, chars ext = x ->
    Join sp (name ++ "." ++ ext) = Clean (unchars (l ++ "."%char :: x)).
Proof.
  unfold Join. destruct (sp =? "")%string eqn:E; cbn [negb].
  - exists (chars name). intros ext <-.
    assert (Hne : ((name ++ "." ++ ext) =? "")%string = false).
    { apply String.eqb_neq. intros H. apply (f_equal chars) in H.
      rewrite !chars_app in H. destruct (chars name); discriminate H. }
    rewrite Hne. cbn [negb]. f_equal. apply chars_inj.
    rewrite chars_unchars, !chars_app. reflexivity.
  - exists (chars sp ++ "/"%char :: chars name)%list. intros ext <-.
    f_equal. apply chars_inj.
    rewrite chars_unchars, !chars_app. cbn. rewrite <- app_assoc. reflexivity.
Qed.

(** ** The file tree *)

Lemma child_set_child_eq (s : string) (c : node) (cs : list (string * node)) :
  child s (set_child s c cs) = Some c.
Proof.
  induction cs as [|[s0 c0] cs IH]; cbn.
  - rewrite String.eqb_refl. reflexivity.
  - destruct (s0 =? s)%string eqn:E; cbn; rewrite E; [reflexivity|exact IH].
Qed.

Lemma child_set_child_ne (s s' : string) (c : node) (cs : list (string * node)) :
  s <> s' -> child s' (set_child s c cs) = child s' cs.
Proof.
  intros Hne. induction cs as [|[s0 c0] cs IH]; cbn.
  - apply String.eqb_neq in Hne. rewrite Hne. reflexivity.
  - destruct (s0 =? s)%string eqn:E; cbn.
    + apply String.eqb_eq in E. subst s0.
      apply String.eqb_neq in Hne. rewrite Hne. reflexivity.
    + rewrite IH. reflexivity.
Qed.

(** A file that has been written is found, with the bytes written. *)
Lemma lookup_write_file (p : list string) (n n' : node) (data : list Byte.byte) (t : Z) :
  write_file n p data t = inr n' -> lookup n' p = Found (File data t).
Proof.
  revert n n'. induction p as [|s p IH]; intros n n' H.
  - cbn in H. destruct n; [|discriminate]. injection H as <-. reflexivity.
  - cbn [write_file] in H. destruct n as [d m|cs]; [discriminate|].
    destruct (child s cs) as [c|] eqn:Ec.
    + destruct (write_file c p data t) as [e|c'] eqn:Ew; [discriminate|].
      injection H as <-. cbn [lookup]. rewrite child_set_child_eq. apply (IH c c' Ew).
    + destruct p; [|discriminate]. injection H as <-.
      cbn [lookup]. rewrite child_set_child_eq. reflexivity.
Qed.

(** ** A successful ingest *)

(** What a successful run of [handleProxy] has done: one call of
    [downloadImage] returned the bytes and the content type without an
    error, the first reading of the clock went into the file name, the file
    is in the tree, and the answer carries the URL, the content type as it
    was fetched, and the size. *)
Lemma handleProxy_success (cfg : Config) (env : Env) (r : Request) (hs : Headers)
    (w w' : World) (resp : Response) :
  handleProxy cfg env r hs w = (Ret resp, w') ->
  status resp = StatusOK ->
  exists url imageData contentType rs loc mt w0,
    (exists data, r_json r = Some data /\ url = TrimSpace (map_get data "url")) /\
    downloadImage env url w0 = (Ret (imageData, contentType, None), logged (EvDownload url) w0) /\
    let filename :=
      file_name cfg (clock env (ticks w)) rs (getExtFromContentType contentType) in
    resp = {| status := StatusOK;
              headers := header_set "Content-Type" "application/json" (set_all hs []);
              body := BodyResult true (CustomDomain cfg ++ "/" ++ filename) contentType
                        (Z.of_nat (List.length imageData)) |} /\
    resolve (cwd env) (Join (StoragePath cfg) filename) = Some loc /\
    lookup (fs w') loc = Found (File imageData mt).
Proof.
  intros Hrun Hok.
  assert (Herr : forall m, status (responseError hs m) <> StatusOK) by (intros m; discriminate).
  unfold handleProxy in Hrun.
  destruct (negb (r_method r =? "POST")%string);
    [injection Hrun as <- _; now apply Herr in Hok|].
  destruct (negb (APIKey cfg =? "")%string && negb (r_apikey r =? APIKey cfg)%string);
    [injection Hrun as <- _; now apply Herr in Hok|].
  destruct (r_json r) as [data|] eqn:Hjson; [|injection Hrun as <- _; now apply Herr in Hok].
  set (url := TrimSpace (map_get data "url")) in *.
  destruct (url =? "")%string; [injection Hrun as <- _; now apply Herr in Hok|].
  destruct (retry_loop_run env url ([], "", None) w) as (res & evs & Hretry & _ & w0 & Hlast).
  unfold bind at 1 in Hrun. rewrite Hretry in Hrun.
  destruct res as [[imageData contentType] err].
  destruct err as [e|]; [injection Hrun as <- _; now apply Herr in Hok|].
  assert (Hext : (getExtFromContentType contentType =? "")%string = false).
  { pose proof (getExtFromContentType_cases contentType) as Hc.
    destruct Hc as [<-|[<-|[<-|[<-|[]]]]]; reflexivity. }
  rewrite Hext in Hrun.
  unfold bind at 1 in Hrun. unfold UnixNano at 1 in Hrun. cbn [extended ticks] in Hrun.
  unfold bind at 1 in Hrun. unfold randomString in Hrun. unfold bind at 1 in Hrun.
  destruct (randomString_loop env 6 _) as [[b|msg] w2]; [|discriminate].
  unfold ret at 1 in Hrun.
  unfold bind at 1 in Hrun. unfold os_MkdirAll in Hrun.
  destruct (resolve (cwd env) (Dir _)) as [dloc|]; [|injection Hrun as <- _; now apply Herr in Hok].
  destruct (fault env OpMkdirAll dloc); [injection Hrun as <- _; now apply Herr in Hok|].
  destruct (mkdir_all (fs w2) dloc) as [e|t]; [injection Hrun as <- _; now apply Herr in Hok|].
  unfold bind at 1 in Hrun. unfold os_WriteFile in Hrun.
  destruct (resolve (cwd env) (Join _ _)) as [loc|] eqn:Hloc;
    [|injection Hrun as <- _; now apply Herr in Hok].
  destruct (fault env OpWriteFile loc); [injection Hrun as <- _; now apply Herr in Hok|].
  cbv zeta in Hrun.
  destruct (fault env OpWrite loc);
    [destruct (write_file _ loc _ _); injection Hrun as <- _; now apply Herr in Hok|].
  destruct (write_file _ loc imageData _) as [e|t'] eqn:Hw;
    [injection Hrun as <- _; now apply Herr in Hok|].
  injection Hrun as <- <-.
  exists url, imageData, contentType, (unchars b), loc.
  eexists. exists w0.
  split; [exists data; split; reflexivity|].
  split; [exact Hlast|]. split; [reflexivity|]. split; [exact Hloc|].
  cbn [fs]. apply (lookup_write_file _ _ _ _ _ Hw).
Qed.

Lemma downloadImage_ok (env : Env) (url : string) (w w' : World)
    (data : list Byte.byte) (ct : string) :
  downloadImage env url w = (Ret (data, ct, None), w') ->
  exists answer,
    net env (downloads (trace w)) url = Responds answer /\
    StatusCode answer < 400 /\ BodyErr answer = None /\
    data = Body answer /\
    ct = TrimSpace (unchars (before_semicolon (chars (ContentTypeHeader answer)))).
Proof.
  unfold downloadImage.
  destruct (net env (downloads (trace w)) url) as [e|e|answer]; try discriminate.
  destruct (_ || _); [discriminate|].
  destruct (StatusCode answer >=? 400) eqn:H4; [discriminate|].
  destruct (BodyErr answer) eqn:Hb; [discriminate|].
  intros H. injection H as <- <- _.
  exists answer. repeat split; try assumption.
  rewrite Z.geb_leb in H4. apply Z.leb_gt in H4. exact H4.
Qed.

Lemma TrimPrefix_slash (key : string) : TrimPrefix ("/" ++ key) "/" = key.
Proof. unfold TrimPrefix, HasPrefix. cbn. apply unchars_chars. Qed.

Lemma file_name_split (cfg : Config) (t : Z) (rs ext : string) :
  file_name cfg t rs ext = (PathPrefix cfg ++ itoa t ++ "-" ++ rs) ++ "." ++ ext.
Proof.
  unfold file_name. apply chars_inj. rewrite !chars_app. rewrite <- !app_assoc. reflexivity.
Qed.

(** The extension of the path of a stored file is the one it was named
    with. *)
Lemma Ext_file_name (cfg : Config) (t : Z) (rs ext : string) :
  In ext ["jpg"; "png"; "webp"; "gif"] ->
  Ext (Join (StoragePath cfg) (file_name cfg t rs ext)) = "." ++ ext.
Proof.
  intros Hext. rewrite file_name_split.
  destruct (Join_named (StoragePath cfg) (PathPrefix cfg ++ itoa t ++ "-" ++ rs) (chars ext))
    as [l Hl].
  rewrite (Hl ext eq_refl).
  rewrite (Ext_Clean _ l (chars ext)).
  - cbn. rewrite unchars_chars. reflexivity.
  - apply chars_unchars.
  - destruct Hext as [<-|[<-|[<-|[<-|[]]]]]; discriminate.
  - destruct Hext as [<-|[<-|[<-|[<-|[]]]]]; reflexivity.
Qed.

Lemma served_type_canonical (ct : string) :
  (let ext := ToLower ("." ++ getExtFromContentType ct) in
   if (ext =? ".jpg")%string || (ext =? ".jpeg")%string then "image/jpeg"
   else if (ext =? ".png")%string then "image/png"
   else if (ext =? ".webp")%string then "image/webp"
   else if (ext =? ".gif")%string then "image/gif"
   else "image/png") = canonical ct.
Proof.
  unfold getExtFromContentType, canonical.
  destruct ((ct =? "image/jpeg")%string || (ct =? "image/jpg")%string); [reflexivity|].
  destruct (ct =? "image/png")%string; [reflexivity|].
  destruct (ct =? "image/webp")%string; [reflexivity|].
  destruct (ct =? "image/gif")%string; reflexivity.
Qed.

(** Serving the key of a stored file gives its bytes, under the canonical
    media type of the content type it was stored for. *)
Lemma handleImage_stored (cfg : Config) (env : Env) (w : World) (t : Z) (rs ct : string)
    (loc : list string) (data : list Byte.byte) (mt : Z) :
  let key := file_name cfg t rs (getExtFromContentType ct) in
  resolve (cwd env) (Join (StoragePath cfg) key) = Some loc ->
  fault env OpStat loc = None ->
  fault env OpOpen loc = None ->
  lookup (fs w) loc = Found (File data mt) ->
  handleImage cfg env ("/" ++ key) w = (Ret (served (canonical ct) mt data), w).
Proof.
  intros key Hloc Hstat Hopen Hfile.
  unfold handleImage. rewrite TrimPrefix_slash.
  unfold bind at 1. unfold os_Stat. rewrite Hloc, Hstat, Hfile.
  cbn [info_of IsNotExist IsDir].
  unfold bind at 1. unfold os_Open. rewrite Hloc, Hopen, Hfile.
  unfold ret, served. cbn [contents ModTime].
  unfold key. rewrite Ext_file_name by apply getExtFromContentType_cases.
  rewrite served_type_canonical. reflexivity.
Qed.

(** C1. Round trip. When [handleProxy] answers with success, some call of
    [downloadImage] got an answer with a status below 400 and the bytes [B];
    the answer of [handleProxy] carries the URL [CustomDomain/key] and the
    size of [B]; and, as long as [Stat] and [Open] do not fail, [handleImage]
    on the path [/key] serves exactly the bytes [B], under the canonical
    media type of the content type detected at the fetch. *)
Theorem ingest_then_serve (cfg : Config) (env : Env) (r : Request) (hs : Headers)
    (w w' : World) (resp : Response) :
  handleProxy cfg env r hs w = (Ret resp, w') ->
  status resp = StatusOK ->
  (forall loc, fault env OpStat loc = None) ->
  (forall loc, fault env OpOpen loc = None) ->
  exists url k answer key mt,
    (exists data, r_json r = Some data /\ url = TrimSpace (map_get data "url")) /\
    net env k url = Responds answer /\
    StatusCode answer < 400 /\
    BodyErr answer = None /\
    let B := Body answer in
    let ct := TrimSpace (unchars (before_semicolon (chars (ContentTypeHeader answer)))) in
    body resp = BodyResult true (CustomDomain cfg ++ "/" ++ key) ct (Z.of_nat (List.length B)) /\
    handleImage cfg env ("/" ++ key) w' = (Ret (served (canonical ct) mt B), w').
Proof.
  intros Hrun Hok Hstat Hopen.
  destruct (handleProxy_success cfg env r hs w w' resp Hrun Hok)
    as (url & data & ct & rs & loc & mt & w0 & Hurl & Hdl & Hresp & Hloc & Hfile).
  destruct (downloadImage_ok env url w0 _ data ct Hdl) as (answer & Hnet & Hst & Hb & Hdata & Hct).
  exists url, (downloads (trace w0)), answer,
    (file_name cfg (clock env (ticks w)) rs (getExtFromContentType ct)), mt.
  split; [exact Hurl|].
  split; [exact Hnet|]. split; [exact Hst|]. split; [exact Hb|].
  cbv zeta. rewrite <- Hdata, <- Hct. split.
  - rewrite Hresp. reflexivity.
  - apply (handleImage_stored cfg env w' _ rs ct loc data mt Hloc (Hstat loc) (Hopen loc) Hfile).
Qed.

(** ** The suffix of a key *)

Lemma letters_nth (idx : Z) :
  0 <= idx < 36 ->
  exists c, nth_error (chars letters) (Z.to_nat idx) = Some c /\ is_letter c = true.
Proof.
  intros H.
  assert (Hn : (Z.to_nat idx < 36)%nat) by lia.
  revert Hn. generalize (Z.to_nat idx). intros n Hn.
  do 36 (destruct n as [|n]; [eexists; split; reflexivity|]).
  lia.
Qed.

(** A run of the loop of [randomString] that returns has read the clock
    [n] times, changed nothing else, and produced [n] bytes of [letters],
    the [i]-th one chosen by the [i]-th reading. *)
Lemma randomString_loop_ret (env : Env) (n : nat) :
  forall (w w' : World) (b : list ascii),
    randomString_loop env n w = (Ret b, w') ->
    w' = {| fs := fs w; ticks := (ticks w + n)%nat; trace := trace w |} /\
    List.length b = n /\
    forallb is_letter b = true /\
    forall i, (i < n)%nat ->
      nth_error b i
      = nth_error (chars letters) (Z.to_nat (Z.rem (clock env (ticks w + i)%nat) 36)).
Proof.
  induction n as [|n IH]; intros w w' b H.
  - cbn in H. injection H as <- <-. rewrite Nat.add_0_r.
    split; [destruct w; reflexivity|]. split; [reflexivity|]. split; [reflexivity|]. intros i Hi. lia.
  - cbn [randomString_loop] in H. unfold bind at 1 in H. unfold UnixNano at 1 in H.
    change (Z.of_nat (String.length letters)) with 36 in H.
    destruct (Z.rem (clock env (ticks w)) 36 <? 0) eqn:Hneg; [discriminate|].
    destruct (nth_error (chars letters) (Z.to_nat (Z.rem (clock env (ticks w)) 36)))
      as [c|] eqn:Hc; [|discriminate].
    unfold bind in H.
    destruct (randomString_loop env n _) as [[rest|msg] w2] eqn:Hrest; [|discriminate].
    injection H as <- <-.
    destruct (IH _ _ _ Hrest) as (Hw & Hlen & Hall & Hnth). cbn [fs ticks trace] in *.
    split; [rewrite Hw; f_equal; lia|].
    split; [cbn; rewrite Hlen; reflexivity|].
    split.
    + cbn [forallb]. rewrite Hall, andb_true_r.
      unfold is_letter. apply existsb_exists. exists c. split.
      * apply (nth_error_In _ _ Hc).
      * apply Ascii.eqb_refl.
    + intros [|i] Hi.
      * rewrite Nat.add_0_r. cbn [nth_error]. symmetry. exact Hc.
      * cbn [nth_error]. rewrite (Hnth i ltac:(lia)). do 4 f_equal. lia.
Qed.

Lemma randomString_loop_fs (env : Env) (n : nat) (w : World) :
  fs (snd (randomString_loop env n w)) = fs w.
Proof.
  revert w. induction n as [|n IH]; intros w; [reflexivity|].
  cbn [randomString_loop]. unfold bind at 1. unfold UnixNano at 1.
  destruct (Z.rem _ _ <? 0); [reflexivity|].
  destruct (nth_error _ _); [|reflexivity].
  unfold bind.
  match goal with |- context [randomString_loop env n ?w1] => specialize (IH w1) end.
  destruct (randomString_loop env n _) as [[rest|msg] w2]; exact IH.
Qed.

(** ** What an ingest does to the tree *)

(** [os.MkdirAll] creates directories only: the files of the tree are the
    same before and after. *)
Lemma lookup_mkdir_all_file (p : list string) :
  forall (n n' : node) (q : list string) (d : list Byte.byte) (m : Z),
    mkdir_all n p = inr n' ->
    (lookup n' q = Found (File d m) <-> lookup n q = Found (File d m)).
Proof.
  induction p as [|s p IH]; intros n n' q d m H.
  - cbn in H. destruct n; [discriminate|]. injection H as <-. reflexivity.
  - cbn [mkdir_all] in H. destruct n as [d0 m0|cs]; [discriminate|].
    destruct (mkdir_all (match child s cs with Some c => c | None => Folder [] end) p)
      as [e|c'] eqn:Hc; [discriminate|].
    injection H as <-.
    destruct q as [|s2 q]; [split; discriminate|].
    cbn [lookup].
    destruct (String.eqb_spec s s2) as [<-|Hne].
    + rewrite child_set_child_eq. rewrite (IH _ _ q d m Hc).
      destruct (child s cs) as [c|]; [reflexivity|].
      destruct q; split; discriminate.
    + rewrite child_set_child_ne by exact Hne. reflexivity.
Qed.

(** The directory asked for exists afterwards. *)
Lemma lookup_mkdir_all (p : list string) :
  forall (n n' : node), mkdir_all n p = inr n' -> is_folder (lookup n' p) = true.
Proof.
  induction p as [|s p IH]; intros n n' H.
  - cbn in H. destruct n; [discriminate|]. injection H as <-. reflexivity.
  - cbn [mkdir_all] in H. destruct n as [d0 m0|cs]; [discriminate|].
    destruct (mkdir_all (match child s cs with Some c => c | None => Folder [] end) p)
      as [e|c'] eqn:Hc; [discriminate|].
    injection H as <-. cbn [lookup]. rewrite child_set_child_eq. apply (IH _ _ Hc).
Qed.

(** [os.WriteFile] changes the file it writes and no other. *)
Lemma lookup_write_file_other (p : list string) :
  forall (n n' : node) (q : list string) (data d : list Byte.byte) (t m : Z),
    write_file n p data t = inr n' ->
    q <> p ->
    (lookup n' q = Found (File d m) <-> lookup n q = Found (File d m)).
Proof.
  induction p as [|s p IH]; intros n n' q data d t m H Hq.
  - cbn in H. destruct n; [|discriminate]. injection H as <-.
    destruct q as [|s2 q]; [congruence|]. reflexivity.
  - cbn [write_file] in H. destruct n as [d0 m0|cs]; [discriminate|].
    destruct q as [|s2 q].
    { destruct (child s cs); [destruct (write_file _ _ _ _); [discriminate|]|destruct p; [|discriminate]];
        injection H as <-; split; discriminate. }
    destruct (child s cs) as [c|] eqn:Hc.
    + destruct (write_file c p data t) as [e|c'] eqn:Hw; [discriminate|].
      injection H as <-. cbn [lookup].
      destruct (String.eqb_spec s s2) as [<-|Hne].
      * rewrite child_set_child_eq, Hc. apply (IH _ _ q data d t m Hw). congruence.
      * rewrite child_set_child_ne by exact Hne. reflexivity.
    + destruct p; [|discriminate]. injection H as <-. cbn [lookup].
      destruct (String.eqb_spec s s2) as [<-|Hne].
      * rewrite child_set_child_eq, Hc.
        destruct q as [|s3 q]; [congruence|]. split; discriminate.
      * rewrite child_set_child_ne by exact Hne. reflexivity.
Qed.

(** The courses [handleProxy] can take, with what each does to the world. *)
Lemma handleProxy_courses (cfg : Config) (env : Env) (r : Request) (hs : Headers) (w : World) :
  handleProxy cfg env r hs w = (Ret (responseError hs InvalidRequest), w)
  \/ (exists evs,
        handleProxy cfg env r hs w = (Ret (responseError hs DownloadFailed), extended evs w))
  \/ (exists msg w', handleProxy cfg env r hs w = (Panic msg, w') /\ fs w' = fs w)
  \/ (exists w',
        handleProxy cfg env r hs w = (Ret (responseError hs StorageFailed), w') /\
        (fs w' = fs w \/ exists dloc, mkdir_all (fs w) dloc = inr (fs w')))
  \/ (exists url k answer b evs dloc t1 loc,
        let data := Body answer in
        let ct := media_type answer in
        let filename :=
          file_name cfg (clock env (ticks w)) (unchars b) (getExtFromContentType ct) in
        let stamp := clock env (ticks w + 7)%nat in
        fetched env r url k answer /\
        List.length b = 6%nat /\ forallb is_letter b = true /\
        (forall i, (i < 6)%nat -> nth_error b i = suffix_char env (ticks w + 1 + i)%nat) /\
        mkdir_all (fs w) dloc = inr t1 /\
        resolve (cwd env) (Join (StoragePath cfg) filename) = Some loc /\
        ((exists e t2,
            fault env OpWrite loc = Some e /\
            write_file t1 loc (firstn (short env loc) data) stamp = inr t2 /\
            handleProxy cfg env r hs w
            = (Ret (responseError hs StorageFailed),
               {| fs := t2; ticks := (ticks w + 8)%nat; trace := trace w ++ evs |}))
         \/ (exists t2,
               fault env OpWrite loc = None /\
               write_file t1 loc data stamp = inr t2 /\
               handleProxy cfg env r hs w
               = (Ret {| status := StatusOK;
                         headers := header_set "Content-Type" "application/json" (set_all hs []);
                         body := BodyResult true (CustomDomain cfg ++ "/" ++ filename) ct
                                   (Z.of_nat (List.length data)) |},
                  {| fs := t2; ticks := (ticks w + 8)%nat; trace := trace w ++ evs |})))).
Proof.
  remember (handleProxy cfg env r hs w) as run eqn:Hrun.
  unfold handleProxy in Hrun.
  destruct (negb (r_method r =? "POST")%string); [left; exact Hrun|].
  destruct (negb (APIKey cfg =? "")%string && negb (r_apikey r =? APIKey cfg)%string);
    [left; exact Hrun|].
  destruct (r_json r) as [data0|] eqn:Hjson; [|left; exact Hrun].
  set (url := TrimSpace (map_get data0 "url")) in Hrun.
  destruct (url =? "")%string; [left; exact Hrun|].
  right.
  destruct (retry_loop_run env url ([], "", None) w) as (res & evs & Hretry & _ & w0 & Hlast).
  unfold bind at 1 in Hrun. rewrite Hretry in Hrun.
  destruct res as [[data ct] err].
  destruct err as [e|]; [left; exists evs; exact Hrun|].
  right.
  destruct (downloadImage_ok env url w0 _ data ct Hlast) as (answer & Hnet & Hst & Hb & Hdata & Hct).
  assert (Hf : fetched env r url (downloads (trace w0)) answer).
  { split; [exists data0; split; [exact Hjson|reflexivity]|]. auto. }
  fold (media_type answer) in Hct. clear Hlast Hretry.
  assert (Hext : (getExtFromContentType ct =? "")%string = false).
  { pose proof (getExtFromContentType_cases ct) as Hc.
    destruct Hc as [<-|[<-|[<-|[<-|[]]]]]; reflexivity. }
  rewrite Hext in Hrun.
  unfold bind at 1 in Hrun. unfold UnixNano at 1 in Hrun. cbn [extended ticks fs trace] in Hrun.
  unfold bind at 1 in Hrun. unfold randomString in Hrun. unfold bind at 1 in Hrun.
  match type of Hrun with context [randomString_loop env 6 ?w1] =>
    pose proof (randomString_loop_fs env 6 w1) as Hfs;
    pose proof (randomString_loop_ret env 6 w1) as Hret;
    destruct (randomString_loop env 6 w1) as [[b|msg] w2]
  end; cbn [snd fs] in Hfs.
  2:{ left. do 2 eexists. split; [exact Hrun|exact Hfs]. }
  destruct (Hret w2 b eq_refl) as (Hw2 & Hlen & Hall & Hnth). cbn [fs ticks trace] in Hw2, Hnth.
  subst w2.
  unfold ret at 1 in Hrun. unfold bind at 1 in Hrun. unfold os_MkdirAll in Hrun.
  cbn [fs ticks trace] in Hrun.
  right.
  destruct (resolve (cwd env) (Dir _)) as [dloc|];
    [|left; eexists; split; [exact Hrun|left; reflexivity]].
  destruct (fault env OpMkdirAll dloc);
    [left; eexists; split; [exact Hrun|left; reflexivity]|].
  destruct (mkdir_all (fs w) dloc) as [e|t1] eqn:Hmk;
    [left; eexists; split; [exact Hrun|left; reflexivity]|].
  unfold bind at 1 in Hrun. unfold os_WriteFile in Hrun. cbn [set_fs fs ticks trace] in Hrun.
  destruct (resolve (cwd env) (Join _ _)) as [loc|] eqn:Hloc;
    [|left; eexists; split; [exact Hrun|right; exists dloc; exact Hmk]].
  destruct (fault env OpWriteFile loc);
    [left; eexists; split; [exact Hrun|right; exists dloc; exact Hmk]|].
  cbv zeta in Hrun.
  replace (S (ticks w) + 6)%nat with (ticks w + 7)%nat in Hrun by lia.
  assert (Hnth' : forall i, (i < 6)%nat -> nth_error b i = suffix_char env (ticks w + 1 + i)%nat).
  { intros i Hi. rewrite (Hnth i Hi). unfold suffix_char. do 4 f_equal. lia. }
  destruct (fault env OpWrite loc) as [e|] eqn:Hwr.
  - destruct (write_file t1 loc (firstn (short env loc) data) _) as [e'|t2] eqn:Hw;
      [left; eexists; split; [exact Hrun|right; exists dloc; exact Hmk]|].
    right. exists url, (downloads (trace w0)), answer, b, evs, dloc, t1, loc. cbv zeta.
    rewrite <- Hdata, <- Hct.
    repeat (split; [assumption|]).
    left. exists e, t2. split; [exact Hwr|]. split; [exact Hw|].
    replace (ticks w + 8)%nat with (S (ticks w + 7)) by lia. exact Hrun.
  - destruct (write_file t1 loc data _) as [e'|t2] eqn:Hw;
      [left; eexists; split; [exact Hrun|right; exists dloc; exact Hmk]|].
    right. exists url, (downloads (trace w0)), answer, b, evs, dloc, t1, loc. cbv zeta.
    rewrite <- Hdata, <- Hct.
    repeat (split; [assumption|]).
    right. exists t2. split; [exact Hwr|]. split; [exact Hw|].
    replace (ticks w + 8)%nat with (S (ticks w + 7)) by lia. exact Hrun.
Qed.

(** The same, without the details of the fetch. *)
Lemma handleProxy_cases (cfg : Config) (env : Env) (r : Request) (hs : Headers) (w : World) :
  handleProxy cfg env r hs w = (Ret (responseError hs InvalidRequest), w)
  \/ (exists evs,
        handleProxy cfg env r hs w = (Ret (responseError hs DownloadFailed), extended evs w))
  \/ (exists msg w', handleProxy cfg env r hs w = (Panic msg, w') /\ fs w' = fs w)
  \/ (exists w',
        handleProxy cfg env r hs w = (Ret (responseError hs StorageFailed), w') /\
        (fs w' = fs w
         \/ (exists dloc, mkdir_all (fs w) dloc = inr (fs w'))
         \/ (exists dloc t1 loc data t,
               mkdir_all (fs w) dloc = inr t1 /\ write_file t1 loc data t = inr (fs w'))))
  \/ (exists data ct b evs dloc t1 loc t2,
        let rs := unchars b in
        let filename := file_name cfg (clock env (ticks w)) rs (getExtFromContentType ct) in
        List.length b = 6%nat /\ forallb is_letter b = true /\
        mkdir_all (fs w) dloc = inr t1 /\
        resolve (cwd env) (Join (StoragePath cfg) filename) = Some loc /\
        write_file t1 loc data (clock env (ticks w + 7)%nat) = inr t2 /\
        handleProxy cfg env r hs w
        = (Ret {| status := StatusOK;
                  headers := header_set "Content-Type" "application/json" (set_all hs []);
                  body := BodyResult true (CustomDomain cfg ++ "/" ++ filename) ct
                            (Z.of_nat (List.length data)) |},
           {| fs := t2; ticks := (ticks w + 8)%nat; trace := trace w ++ evs |})).
Proof.
  destruct (handleProxy_courses cfg env r hs w) as [H|[H|[H|[H|H]]]].
  - left. exact H.
  - right. left. exact H.
  - do 2 right. left. exact H.
  - do 3 right. left. destruct H as (w' & H & [Hfs|Hfs]); exists w'; (split; [exact H|]).
    + left. exact Hfs.
    + right. left. exact Hfs.
  - destruct H as (url & k & answer & b & evs & dloc & t1 & loc & H). cbv zeta in H.
    destruct H as (Hf & Hlen & Hall & Hnth & Hmk & Hloc & [(e & t2 & He & Hw & H)|(t2 & He & Hw & H)]).
    + do 3 right. left. eexists. split; [exact H|]. right. right. cbn [fs].
      exists dloc, t1, loc. do 2 eexists. split; [exact Hmk|exact Hw].
    + do 4 right. exists (Body answer), (media_type answer), b, evs, dloc, t1, loc, t2. cbv zeta.
      repeat (split; [assumption|]). exact H.
Qed.

(** ** File names *)

Lemma uint_no_dash (d : Decimal.uint) :
  forallb no_dash (chars (NilEmpty.string_of_uint d)) = true.
Proof. induction d; cbn; auto. Qed.

(** The decimal text of an integer: digits, after a minus sign when it is
    negative. *)
Lemma itoa_shape (z : Z) :
  exists ds, forallb no_dash ds = true /\ ds <> [] /\
             (chars (itoa z) = ds \/ chars (itoa z) = "-"%char :: ds).
Proof.
  unfold itoa. destruct z as [|p|p]; cbn [Z.to_int NilZero.string_of_int].
  - exists ["0"%char]. repeat split; [discriminate|left; reflexivity].
  - pose proof (Unsigned.to_uint_nonnil p) as Hn.
    exists (chars (NilEmpty.string_of_uint (Pos.to_uint p))).
    split; [apply uint_no_dash|]. split.
    + destruct (Pos.to_uint p); try congruence; discriminate.
    + left. destruct (Pos.to_uint p); try congruence; reflexivity.
  - pose proof (Unsigned.to_uint_nonnil p) as Hn.
    exists (chars (NilEmpty.string_of_uint (Pos.to_uint p))).
    split; [apply uint_no_dash|]. split.
    + destruct (Pos.to_uint p); try congruence; discriminate.
    + right. destruct (Pos.to_uint p); try congruence; reflexivity.
Qed.

Lemma itoa_inj (z1 z2 : Z) : itoa z1 = itoa z2 -> z1 = z2.
Proof.
  unfold itoa. intros H. apply (f_equal NilZero.int_of_string) in H.
  assert (Hn : forall z, Z.to_int z <> Decimal.Pos Decimal.Nil /\ Z.to_int z <> Decimal.Neg Decimal.Nil).
  { intros [|p|p]; cbn; split; try discriminate; intros E; injection E as E;
      now apply Unsigned.to_uint_nonnil in E. }
  rewrite !NilZero.isi in H by apply Hn.
  injection H as H. now apply DecimalZ.to_int_inj.
Qed.

Lemma dash_split (ds1 ds2 x1 x2 : list ascii) :
  forallb no_dash ds1 = true -> forallb no_dash ds2 = true ->
  (ds1 ++ "-"%char :: x1 = ds2 ++ "-"%char :: x2)%list -> ds1 = ds2.
Proof.
  revert ds2. induction ds1 as [|c ds1 IH]; intros [|c2 ds2] H1 H2 E; cbn in *.
  - reflexivity.
  - injection E as <- _. discriminate.
  - injection E as -> _. discriminate.
  - injection E as <- E.
    apply andb_true_iff in H1. apply andb_true_iff in H2.
    f_equal. apply (IH ds2); tauto.
Qed.

(** The timestamp can be read off a file name: it ends at the first dash
    that is not a sign. *)
Lemma itoa_dash_inj (z1 z2 : Z) (x1 x2 : list ascii) :
  (chars (itoa z1) ++ "-"%char :: x1 = chars (itoa z2) ++ "-"%char :: x2)%list -> z1 = z2.
Proof.
  intros E. apply itoa_inj, chars_inj.
  destruct (itoa_shape z1) as (ds1 & H1 & N1 & [S1|S1]);
    destruct (itoa_shape z2) as (ds2 & H2 & N2 & [S2|S2]); rewrite S1, S2 in *.
  - apply (dash_split ds1 ds2 x1 x2 H1 H2 E).
  - destruct ds1 as [|c ds1]; [congruence|]. cbn in E, H1. injection E as -> _. discriminate.
  - destruct ds2 as [|c ds2]; [congruence|]. cbn in E, H2. injection E as <- _. discriminate.
  - cbn in E. injection E as E. f_equal. apply (dash_split ds1 ds2 x1 x2 H1 H2 E).
Qed.

Lemma file_url_inj (cfg : Config) (t1 t2 : Z) (rs1 rs2 ext1 ext2 : string) :
  CustomDomain cfg ++ "/" ++ file_name cfg t1 rs1 ext1
  = CustomDomain cfg ++ "/" ++ file_name cfg t2 rs2 ext2 ->
  t1 = t2.
Proof.
  intros E. apply (f_equal chars) in E. unfold file_name in E.
  rewrite !chars_app in E.
  apply app_inv_head in E. apply app_inv_head in E. apply app_inv_head in E.
  exact (itoa_dash_inj t1 t2 _ _ E).
Qed.

Lemma ingest_then_serve_witness :
  exists url k answer key mt,
    (exists data, r_json Sample.req = Some data /\ url = TrimSpace (map_get data "url")) /\
    net Sample.env_retry k url = Responds answer /\
    StatusCode answer < 400 /\
    BodyErr answer = None /\
    let B := Body answer in
    let ct := TrimSpace (unchars (before_semicolon (chars (ContentTypeHeader answer)))) in
    body (Sample.response_of (fst Sample.ingest1))
    = BodyResult true (CustomDomain Sample.cfg ++ "/" ++ key) ct (Z.of_nat (List.length B)) /\
    handleImage Sample.cfg Sample.env_retry ("/" ++ key) (snd Sample.ingest1)
    = (Ret (served (canonical ct) mt B), snd Sample.ingest1).
Proof.
  apply (ingest_then_serve Sample.cfg Sample.env_retry Sample.req [] Sample.world
           (snd Sample.ingest1) (Sample.response_of (fst Sample.ingest1))).
  - vm_compute. reflexivity.
  - reflexivity.
  - intros loc. reflexivity.
  - intros loc. reflexivity.
Defined.

(** Two lists of the same length at the head of two equal lists. *)
Lemma app_inv_length {A : Type} (a b x y : list A) :
  List.length a = List.length b -> (a ++ x = b ++ y)%list -> a = b /\ x = y.
Proof.
  revert b. induction a as [|c a IH]; intros [|c2 b] L E; try discriminate.
  - split; [reflexivity|exact E].
  - cbn in L, E. injection L as L. injection E as -> E.
    destruct (IH b L E) as [-> ->]. split; reflexivity.
Qed.

(** The timestamp, the suffix and the extension can be read off a URL. *)
Lemma file_url_parts (cfg : Config) (t1 t2 : Z) (b1 b2 : list ascii) (ext1 ext2 : string) :
  List.length b1 = List.length b2 ->
  CustomDomain cfg ++ "/" ++ file_name cfg t1 (unchars b1) ext1
  = CustomDomain cfg ++ "/" ++ file_name cfg t2 (unchars b2) ext2 ->
  t1 = t2 /\ b1 = b2 /\ ext1 = ext2.
Proof.
  intros L E. pose proof (file_url_inj cfg _ _ _ _ _ _ E) as Ht. subst t2.
  split; [reflexivity|].
  apply (f_equal chars) in E. unfold file_name in E.
  rewrite !chars_app, !chars_unchars in E.
  do 5 apply app_inv_head in E.
  destruct (app_inv_length b1 b2 _ _ L E) as [Hb He].
  split; [exact Hb|]. apply app_inv_head in He. apply chars_inj, He.
Qed.

Lemma nth_error_eq {A : Type} (n : nat) (a b : list A) :
  List.length a = n -> List.length b = n ->
  (forall i, (i < n)%nat -> nth_error a i = nth_error b i) -> a = b.
Proof.
  revert a b. induction n as [|n IH]; intros a b La Lb H.
  - destruct a; [|discriminate]. destruct b; [reflexivity|discriminate].
  - destruct a as [|x a]; [discriminate|]. destruct b as [|y b]; [discriminate|].
    pose proof (H 0%nat ltac:(lia)) as H0. cbn in H0. injection H0 as ->.
    f_equal. apply IH.
    + cbn in La. lia.
    + cbn in Lb. lia.
    + intros i Hi. apply (H (S i)). lia.
Qed.

(** The URL of a successful ingest, by the readings of the clock. *)
Lemma handleProxy_key (cfg : Config) (env : Env) (r : Request) (hs : Headers)
    (w w' : World) (resp : Response) (url ct : string) (n : Z) :
  handleProxy cfg env r hs w = (Ret resp, w') ->
  status resp = StatusOK ->
  body resp = BodyResult true url ct n ->
  exists b,
    url = CustomDomain cfg ++ "/"
          ++ file_name cfg (clock env (ticks w)) (unchars b) (getExtFromContentType ct) /\
    List.length b = 6%nat /\
    forall i, (i < 6)%nat -> nth_error b i = suffix_char env (ticks w + 1 + i)%nat.
Proof.
  intros Hrun Hok Hbody.
  destruct (handleProxy_courses cfg env r hs w)
    as [H|[(evs & H)|[(msg & w1 & H & _)|[(w1 & H & _)|H]]]];
    try (rewrite H in Hrun; injection Hrun as <- _; discriminate Hok);
    try (rewrite H in Hrun; discriminate Hrun).
  destruct H as (u & k & answer & b & evs & dloc & t1 & loc & H). cbv zeta in H.
  destruct H as (_ & Hlen & _ & Hnth & _ & _ & [(e & t2 & _ & _ & H)|(t2 & _ & _ & H)]);
    rewrite H in Hrun; injection Hrun as <- _; [discriminate Hok|].
  cbn [body] in Hbody. injection Hbody as <- <- _.
  exists b. split; [reflexivity|]. split; assumption.
Qed.

(** C5, as the code has it. Two successful runs of [handleProxy] return the
    same URL, hence the same key, exactly when they agree on the three parts
    of the key: the timestamp (the first reading of the clock of each run),
    the six bytes of the suffix (each drawn from one of the next six
    readings of the clock, as [letters[t % 36]]) and the extension chosen for
    the fetched content type. So the keys differ whenever the timestamps
    differ, or a byte of the suffixes differs, or the extensions differ; and
    nothing else tells two runs apart. *)
Theorem keys_equal_iff_same_readings (cfg : Config) (env1 env2 : Env)
    (r1 r2 : Request) (hs1 hs2 : Headers) (w1 w2 w1' w2' : World) (resp1 resp2 : Response)
    (url1 url2 ct1 ct2 : string) (n1 n2 : Z) :
  handleProxy cfg env1 r1 hs1 w1 = (Ret resp1, w1') ->
  handleProxy cfg env2 r2 hs2 w2 = (Ret resp2, w2') ->
  status resp1 = StatusOK -> body resp1 = BodyResult true url1 ct1 n1 ->
  status resp2 = StatusOK -> body resp2 = BodyResult true url2 ct2 n2 ->
  (url1 = url2 <->
   clock env1 (ticks w1) = clock env2 (ticks w2) /\
   (forall i, (i < 6)%nat ->
      suffix_char env1 (ticks w1 + 1 + i)%nat = suffix_char env2 (ticks w2 + 1 + i)%nat) /\
   getExtFromContentType ct1 = getExtFromContentType ct2).
Proof.
  intros Hrun1 Hrun2 Hok1 Hb1 Hok2 Hb2.
  destruct (handleProxy_key cfg env1 r1 hs1 w1 w1' resp1 url1 ct1 n1 Hrun1 Hok1 Hb1)
    as (b1 & -> & L1 & N1).
  destruct (handleProxy_key cfg env2 r2 hs2 w2 w2' resp2 url2 ct2 n2 Hrun2 Hok2 Hb2)
    as (b2 & -> & L2 & N2).
  split.
  - intros E.
    destruct (file_url_parts cfg _ _ b1 b2 _ _ ltac:(congruence) E) as (Ht & Hb & He).
    split; [exact Ht|]. split; [|exact He].
    intros i Hi. rewrite <- (N1 i Hi), <- (N2 i Hi), Hb. reflexivity.
  - intros (Ht & Hs & He). rewrite Ht, He.
    replace b2 with b1; [reflexivity|].
    apply (nth_error_eq 6); [exact L1|exact L2|].
    intros i Hi. rewrite (N1 i Hi), (N2 i Hi). apply Hs, Hi.
Qed.

(** Two ingests with the same timestamp and different suffixes: here the
    clock of the second run moves on after its first reading, and the URLs
    differ. *)
Lemma keys_equal_iff_same_readings_witness :
  (Sample.url_of (Sample.response_of
                    (fst (handleProxy Sample.cfg (Sample.env200 "image/png") Sample.req []
                            Sample.world)))
   = Sample.url_of (Sample.response_of
                      (fst (handleProxy Sample.cfg (Sample.env_drift "image/png") Sample.req []
                              Sample.world)))
   <->
   clock (Sample.env200 "image/png") (ticks Sample.world)
   = clock (Sample.env_drift "image/png") (ticks Sample.world) /\
   (forall i, (i < 6)%nat ->
      suffix_char (Sample.env200 "image/png") (ticks Sample.world + 1 + i)%nat
      = suffix_char (Sample.env_drift "image/png") (ticks Sample.world + 1 + i)%nat) /\
   getExtFromContentType "image/png" = getExtFromContentType "image/png")
  /\ clock (Sample.env200 "image/png") (ticks Sample.world)
     = clock (Sample.env_drift "image/png") (ticks Sample.world)
  /\ Sample.url_of (Sample.response_of
                      (fst (handleProxy Sample.cfg (Sample.env200 "image/png") Sample.req []
                              Sample.world)))
     <> Sample.url_of (Sample.response_of
                         (fst (handleProxy Sample.cfg (Sample.env_drift "image/png") Sample.req []
                                 Sample.world))).
Proof.
  split; [|split; [reflexivity|vm_compute; discriminate]].
  apply (keys_equal_iff_same_readings Sample.cfg
           (Sample.env200 "image/png") (Sample.env_drift "image/png")
           Sample.req Sample.req [] [] Sample.world Sample.world
           (snd (handleProxy Sample.cfg (Sample.env200 "image/png") Sample.req [] Sample.world))
           (snd (handleProxy Sample.cfg (Sample.env_drift "image/png") Sample.req []
                   Sample.world))
           (Sample.response_of
              (fst (handleProxy Sample.cfg (Sample.env200 "image/png") Sample.req []
                      Sample.world)))
           (Sample.response_of
              (fst (handleProxy Sample.cfg (Sample.env_drift "image/png") Sample.req []
                      Sample.world)))
           _ _ "image/png" "image/png" 4 4).
  - vm_compute. reflexivity.
  - vm_compute. reflexivity.
  - reflexivity.
  - vm_compute. reflexivity.
  - reflexivity.
  - vm_compute. reflexivity.
Defined.

(** C5, as it is worded, fails: the key is made of readings of the clock
    only, so two ingests that read the same tick get the same key. Here the
    clock stands still, both ingests succeed, and the second one returns the
    URL of the first (and has overwritten its file). *)
Lemma same_tick_same_key_counterexample :
  exists resp1 w1 resp2 w2 url n,
    handleProxy Sample.cfg (Sample.env200 "image/png") Sample.req [] Sample.world = (Ret resp1, w1) /\
    handleProxy Sample.cfg (Sample.env200 "image/png") Sample.req [] w1 = (Ret resp2, w2) /\
    status resp1 = StatusOK /\ status resp2 = StatusOK /\
    body resp1 = BodyResult true url "image/png" n /\
    body resp2 = BodyResult true url "image/png" n.
Proof.
  do 6 eexists.
  split; [vm_compute; reflexivity|].
  split; [vm_compute; reflexivity|].
  repeat split.
Qed.

Lemma unsupported_is_png (ct : string) :
  supported ct = false -> getExtFromContentType ct = "png" /\ canonical ct = "image/png".
Proof.
  unfold supported, getExtFromContentType, canonical.
  destruct (ct =? "image/jpeg")%string; [discriminate|].
  destruct (ct =? "image/jpg")%string; [discriminate|].
  destruct (ct =? "image/png")%string; [discriminate|].
  destruct (ct =? "image/webp")%string; [discriminate|].
  destruct (ct =? "image/gif")%string; [discriminate|].
  split; reflexivity.
Qed.

(** C6, as the code has it. When [handleProxy] succeeds for a resource whose
    fetched content type [ct] is none of the supported ones, the file is
    stored under a key with the extension [png], and the answer carries the
    URL of that key together with [ct] itself, as it was fetched; it is
    [handleImage] that serves the key as [image/png]. *)
Theorem unknown_type_stored_as_png (cfg : Config) (env : Env) (r : Request) (hs : Headers)
    (w w' : World) (resp : Response) (url ct : string) (size : Z) :
  handleProxy cfg env r hs w = (Ret resp, w') ->
  status resp = StatusOK ->
  body resp = BodyResult true url ct size ->
  supported ct = false ->
  exists src k answer rs loc mt,
    net env k src = Responds answer /\
    ct = TrimSpace (unchars (before_semicolon (chars (ContentTypeHeader answer)))) /\
    let key := file_name cfg (clock env (ticks w)) rs "png" in
    url = CustomDomain cfg ++ "/" ++ key /\
    resolve (cwd env) (Join (StoragePath cfg) key) = Some loc /\
    lookup (fs w') loc = Found (File (Body answer) mt) /\
    (fault env OpStat loc = None -> fault env OpOpen loc = None ->
     handleImage cfg env ("/" ++ key) w' = (Ret (served "image/png" mt (Body answer)), w')).
Proof.
  intros Hrun Hok Hbody Hun.
  destruct (handleProxy_success cfg env r hs w w' resp Hrun Hok)
    as (src & data & ct' & rs & loc & mt & w0 & _ & Hdl & Hresp & Hloc & Hfile).
  cbv zeta in Hresp. rewrite Hresp in Hbody. cbn [body] in Hbody.
  injection Hbody as Hurl Hct _. subst ct'.
  destruct (downloadImage_ok env src w0 _ data ct Hdl) as (answer & Hnet & _ & _ & Hdata & Hct).
  destruct (unsupported_is_png ct Hun) as [Hpng Hcanon].
  pose proof (handleImage_stored cfg env w' (clock env (ticks w)) rs ct loc data mt) as Hserve.
  cbv zeta in Hserve. rewrite Hpng in Hurl, Hloc, Hserve. rewrite Hcanon in Hserve.
  subst data.
  exists src, (downloads (trace w0)), answer, rs, loc, mt.
  split; [exact Hnet|]. split; [exact Hct|].
  cbv zeta.
  split; [symmetry; exact Hurl|]. split; [exact Hloc|]. split; [exact Hfile|].
  intros Hstat Hopen. exact (Hserve Hloc Hstat Hopen Hfile).
Qed.

Lemma unknown_type_stored_as_png_witness :
  exists src k answer rs loc mt,
    net (Sample.env200 "application/octet-stream") k src = Responds answer /\
    "application/octet-stream"
    = TrimSpace (unchars (before_semicolon (chars (ContentTypeHeader answer)))) /\
    let key := file_name Sample.cfg (clock (Sample.env200 "application/octet-stream")
                                       (ticks Sample.world)) rs "png" in
    Sample.url_of (Sample.response_of (fst Sample.ingest_unknown))
    = CustomDomain Sample.cfg ++ "/" ++ key /\
    resolve (cwd (Sample.env200 "application/octet-stream"))
      (Join (StoragePath Sample.cfg) key) = Some loc /\
    lookup (fs (snd Sample.ingest_unknown)) loc = Found (File (Body answer) mt) /\
    (fault (Sample.env200 "application/octet-stream") OpStat loc = None ->
     fault (Sample.env200 "application/octet-stream") OpOpen loc = None ->
     handleImage Sample.cfg (Sample.env200 "application/octet-stream") ("/" ++ key)
       (snd Sample.ingest_unknown)
     = (Ret (served "image/png" mt (Body answer)), snd Sample.ingest_unknown)).
Proof.
  apply (unknown_type_stored_as_png Sample.cfg (Sample.env200 "application/octet-stream")
           Sample.req [] Sample.world (snd Sample.ingest_unknown)
           (Sample.response_of (fst Sample.ingest_unknown)) _ "application/octet-stream" 4).
  - vm_compute. reflexivity.
  - reflexivity.
  - vm_compute. reflexivity.
  - reflexivity.
Defined.

(** C6, as it is worded, fails: for a resource fetched as
    [application/octet-stream] the ingest succeeds, and the media type in its
    answer is [application/octet-stream], not [image/png]. *)
Lemma unknown_type_reported_counterexample :
  exists resp w' url n,
    handleProxy Sample.cfg (Sample.env200 "application/octet-stream") Sample.req [] Sample.world
    = (Ret resp, w') /\
    status resp = StatusOK /\
    supported "application/octet-stream" = false /\
    body resp = BodyResult true url "application/octet-stream" n /\
    "application/octet-stream" <> "image/png".
Proof.
  do 4 eexists.
  split; [vm_compute; reflexivity|].
  repeat split. discriminate.
Qed.

(** ** The serve handler *)

Lemma clean_from_no_dotdot (rooted : bool) (segs stack : list string) :
  Forall not_dotdot segs ->
  exists kept, clean_from rooted stack segs = (kept ++ stack)%list /\ Forall not_dotdot kept.
Proof.
  intros H. revert stack. induction H as [|seg segs Hseg _ IH]; intros stack.
  - exists []. split; [reflexivity|constructor].
  - unfold clean_from in *. cbn [fold_left].
    assert (Hstep : clean_step rooted stack seg = stack \/ clean_step rooted stack seg = seg :: stack).
    { unfold clean_step. destruct (_ || _); [left; reflexivity|].
      apply String.eqb_neq in Hseg. rewrite Hseg. right; reflexivity. }
    destruct Hstep as [-> | ->].
    + apply IH.
    + destruct (IH (seg :: stack)) as (kept & -> & Hk).
      exists (kept ++ [seg])%list. split.
      * rewrite <- app_assoc. reflexivity.
      * apply Forall_app. split; [exact Hk|]. constructor; [exact Hseg|constructor].
Qed.

Lemma clean_from_app (rooted : bool) (a b stack : list string) :
  clean_from rooted stack (a ++ b) = clean_from rooted (clean_from rooted stack a) b.
Proof. unfold clean_from. apply fold_left_app. Qed.

Lemma inside_app (root rest : list string) : inside root (root ++ rest) = true.
Proof.
  induction root as [|r root IH]; [reflexivity|].
  cbn. rewrite String.eqb_refl. exact IH.
Qed.

Lemma no_dotdot_Forall (s : string) : no_dotdot s = true -> Forall not_dotdot (elements s).
Proof.
  unfold no_dotdot. intros H. apply negb_true_iff in H.
  apply Forall_forall. intros x Hx E. subst x.
  assert (Ht : existsb (String.eqb "..") (elements s) = true).
  { apply existsb_exists. exists "..". split; [exact Hx|reflexivity]. }
  congruence.
Qed.

Lemma elements_join (a b : string) : elements (a ++ "/" ++ b) = (elements a ++ elements b)%list.
Proof.
  rewrite !elements_segs, !chars_app. cbn [chars list_ascii_of_string app].
  change (list_ascii_of_string b) with (chars b).
  rewrite segs_app_slash. apply map_app.
Qed.

Lemma HasPrefix_join (a b : string) : a <> "" -> HasPrefix (a ++ "/" ++ b) "/" = HasPrefix a "/".
Proof. destruct a as [|c a]; [congruence|]. intros _. reflexivity. Qed.

(** The answer of [handleImage] depends on the world through the node at
    the resolved location only. *)
Lemma handleImage_same_node (cfg : Config) (env : Env) (urlPath : string) (w1 w2 : World)
    (loc : list string) :
  resolve (cwd env) (Join (StoragePath cfg) (TrimPrefix urlPath "/")) = Some loc ->
  lookup (fs w1) loc = lookup (fs w2) loc ->
  fst (handleImage cfg env urlPath w1) = fst (handleImage cfg env urlPath w2).
Proof.
  intros Hloc Hsame.
  unfold handleImage, bind, os_Stat, os_Open, ret, panic. rewrite Hloc, Hsame.
  destruct (fault env OpStat loc) as [e|].
  { destruct (IsNotExist (Some e)); reflexivity. }
  destruct (lookup (fs w2) loc) as [n|e] eqn:Hl.
  2:{ destruct (IsNotExist (Some e)); reflexivity. }
  cbn [IsNotExist]. destruct (IsDir (info_of n)); [reflexivity|].
  cbv beta. rewrite Hsame, Hl.
  destruct (fault env OpOpen loc); reflexivity.
Qed.

(** The lookup of a place below [root] goes through the node at [root]. *)
Lemma lookup_app (root : list string) :
  forall (t : node) (rel : list string),
    lookup t (root ++ rel)
    = match lookup t root with
      | Found n => lookup n rel
      | Missing e => Missing e
      end.
Proof.
  induction root as [|s root IH]; intros t rel; [reflexivity|].
  cbn [app lookup]. destruct t as [d m|cs]; [reflexivity|].
  destruct (child s cs) as [c|]; [apply IH|reflexivity].
Qed.

(** A key without [..] resolves to the storage root followed by more
    names. *)
Lemma key_resolves_below (cfg : Config) (env : Env) (key : string) :
  StoragePath cfg <> "" ->
  no_dotdot key = true ->
  exists root rel,
    resolve (cwd env) (Clean (StoragePath cfg)) = Some root /\
    resolve (cwd env) (Join (StoragePath cfg) key) = Some (root ++ rel)%list.
Proof.
  intros Hsp Hkey.
  unfold Join. apply String.eqb_neq in Hsp as Hsp'. rewrite Hsp'. cbn [negb].
  unfold Clean. rewrite HasPrefix_join by exact Hsp. rewrite elements_join, clean_from_app.
  destruct (clean_from_no_dotdot (HasPrefix (StoragePath cfg) "/") (elements key)
              (clean_from (HasPrefix (StoragePath cfg) "/") [] (elements (StoragePath cfg)))
              (no_dotdot_Forall key Hkey)) as (kept & -> & Hkept).
  rewrite rev_app_distr.
  destruct (HasPrefix (StoragePath cfg) "/"); cbn [resolve].
  - do 2 eexists. split; reflexivity.
  - rewrite clean_from_app.
    destruct (clean_from_no_dotdot true (rev kept)
                (clean_from true (rev (cwd env))
                   (rev (clean_from false [] (elements (StoragePath cfg)))))
                (Forall_rev Hkept)) as (kept' & -> & _).
    rewrite rev_app_distr.
    do 2 eexists. split; reflexivity.
Qed.

(** What [handleImage] serves with status 200 is the file at the place the
    path resolves to. *)
Lemma handleImage_ok (cfg : Config) (env : Env) (urlPath : string) (w w' : World)
    (resp : Response) (loc : list string) :
  resolve (cwd env) (Join (StoragePath cfg) (TrimPrefix urlPath "/")) = Some loc ->
  handleImage cfg env urlPath w = (Ret resp, w') ->
  status resp = StatusOK ->
  exists data mt ct, lookup (fs w) loc = Found (File data mt) /\ resp = served ct mt data.
Proof.
  intros Hres. unfold handleImage, bind, os_Stat, os_Open, ret, panic. rewrite Hres.
  destruct (fault env OpStat loc) as [e|].
  { destruct (IsNotExist (Some e)); intros H; [injection H as <- _|]; discriminate. }
  destruct (lookup (fs w) loc) as [n|e] eqn:Hloc.
  2:{ destruct (IsNotExist (Some e)); intros H; [injection H as <- _|]; discriminate. }
  cbn [IsNotExist]. destruct n as [data mt|cs]; cbn [info_of IsDir];
    [|intros H; injection H as <- _; discriminate].
  cbv beta. destruct (fault env OpOpen loc); [intros H; injection H as <- _; discriminate|].
  rewrite Hloc. intros H _. injection H as <- _.
  exists data, mt. eexists. split; reflexivity.
Qed.

(** C9, as the code has it. [handleImage] resolves the key by
    [filepath.Join] and checks nothing. When no element of the key is [..],
    the place it resolves to is the storage root or lies below it, and that
    place is all the handler looks at: its answer is the same in any two
    trees that hold the same at the storage root, whatever they hold
    elsewhere, and what it serves with status 200 is the regular file at that
    place. *)
Theorem key_without_dotdot_stays_inside (cfg : Config) (env : Env) (urlPath : string)
    (w : World) :
  StoragePath cfg <> "" ->
  no_dotdot (TrimPrefix urlPath "/") = true ->
  exists root loc,
    resolve (cwd env) (Clean (StoragePath cfg)) = Some root /\
    resolve (cwd env) (Join (StoragePath cfg) (TrimPrefix urlPath "/")) = Some loc /\
    inside root loc = true /\
    (forall w2, lookup (fs w2) root = lookup (fs w) root ->
       fst (handleImage cfg env urlPath w2) = fst (handleImage cfg env urlPath w)) /\
    (forall resp w', handleImage cfg env urlPath w = (Ret resp, w') ->
       status resp = StatusOK ->
       exists data mt ct, lookup (fs w) loc = Found (File data mt) /\ resp = served ct mt data).
Proof.
  intros Hsp Hkey.
  destruct (key_resolves_below cfg env (TrimPrefix urlPath "/") Hsp Hkey)
    as (root & rel & Hroot & Hloc).
  exists root, (root ++ rel)%list.
  split; [exact Hroot|]. split; [exact Hloc|]. split; [apply inside_app|]. split.
  - intros w2 Hsame. apply (handleImage_same_node cfg env urlPath w2 w _ Hloc).
    rewrite !lookup_app, Hsame. reflexivity.
  - intros resp w' Hrun Hok. exact (handleImage_ok cfg env urlPath w w' resp _ Hloc Hrun Hok).
Qed.

Lemma key_without_dotdot_stays_inside_witness :
  exists root loc,
    resolve (cwd Sample.env500) (Clean (StoragePath Sample.cfg)) = Some root /\
    resolve (cwd Sample.env500)
      (Join (StoragePath Sample.cfg) (TrimPrefix "/img/./1600000000000000000-aaaaaa.png" "/"))
    = Some loc /\
    inside root loc = true /\
    (forall w2, lookup (fs w2) root = lookup (fs Sample.world) root ->
       fst (handleImage Sample.cfg Sample.env500 "/img/./1600000000000000000-aaaaaa.png" w2)
       = fst (handleImage Sample.cfg Sample.env500 "/img/./1600000000000000000-aaaaaa.png"
                Sample.world)) /\
    (forall resp w',
       handleImage Sample.cfg Sample.env500 "/img/./1600000000000000000-aaaaaa.png" Sample.world
       = (Ret resp, w') ->
       status resp = StatusOK ->
       exists data mt ct,
         lookup (fs Sample.world) loc = Found (File data mt) /\ resp = served ct mt data).
Proof.
  apply (key_without_dotdot_stays_inside Sample.cfg Sample.env500
           "/img/./1600000000000000000-aaaaaa.png" Sample.world).
  - vm_compute. discriminate.
  - vm_compute. reflexivity.
Defined.

(** C9, as it is worded, fails: the path [/img/../../etc/passwd] passes the
    prefix test of [rateLimitHandler], its key resolves to [/app/etc/passwd],
    outside the storage root [/app/storage], and [handleImage] opens that
    file and serves it; nothing in the handlers looks at the elements of the
    path. The path is the one the handlers read from [r.URL.Path]. *)
Lemma path_traversal_counterexample :
  exists root loc,
    resolve (cwd Sample.env500) (Clean (StoragePath Sample.cfg)) = Some root /\
    resolve (cwd Sample.env500)
      (Join (StoragePath Sample.cfg) (TrimPrefix "/img/../../etc/passwd" "/")) = Some loc /\
    inside root loc = false /\
    handleImage Sample.cfg Sample.env500 "/img/../../etc/passwd" Sample.world
    = (Ret (served "image/png" 1500000000000000000 Sample.secret), Sample.world) /\
    rateLimitHandler Sample.cfg Sample.env500 (Sample.get "/img/../../etc/passwd") Sample.world
    = (Ret (served "image/png" 1500000000000000000 Sample.secret), Sample.world) /\
    rateLimitHandler Sample.cfg Sample.env500 (Sample.connect "/img/../../etc/passwd") Sample.world
    = (Ret (served "image/png" 1500000000000000000 Sample.secret), Sample.world).
Proof.
  exists ["app"; "storage"], ["app"; "etc"; "passwd"].
  repeat split; vm_compute; reflexivity.
Qed.

(** C10. The code breaks the claim: when [os.Stat] fails with an error other
    than "does not exist", [info] is [nil], the test [os.IsNotExist(err)] is
    false, and [info.IsDir()] dereferences [nil]: [handleImage] panics and
    writes no response. *)
Theorem handleImage_stat_error_panics (cfg : Config) (env : Env) (urlPath : string) (w : World)
    (loc : list string) (e : Errno) :
  resolve (cwd env) (Join (StoragePath cfg) (TrimPrefix urlPath "/")) = Some loc ->
  fault env OpStat loc = Some e \/ (fault env OpStat loc = None /\ lookup (fs w) loc = Missing e) ->
  e <> ENOENT ->
  handleImage cfg env urlPath w
  = (Panic "invalid memory address or nil pointer dereference", w).
Proof.
  intros Hloc Hstat He. unfold handleImage, bind, os_Stat. rewrite Hloc.
  destruct Hstat as [-> | [-> ->]]; destruct e; try congruence; reflexivity.
Qed.

Lemma handleImage_stat_error_panics_witness :
  handleImage Sample.cfg Sample.env500 "/img/1600000000000000000-aaaaaa.png/x" Sample.world
  = (Panic "invalid memory address or nil pointer dereference", Sample.world).
Proof.
  apply (handleImage_stat_error_panics Sample.cfg Sample.env500
           "/img/1600000000000000000-aaaaaa.png/x" Sample.world
           ["app"; "storage"; "img"; "1600000000000000000-aaaaaa.png"; "x"] ENOTDIR).
  - vm_compute. reflexivity.
  - right. split; vm_compute; reflexivity.
  - discriminate.
Defined.

(** ** The sweeper *)

(** Within the range of a Duration the age is the plain difference. *)
Lemma Sub_exact (t u : Z) : minDuration <= t - u <= maxDuration -> Sub t u = t - u.
Proof.
  intros H. unfold Sub. cbv zeta.
  destruct (t - u <? minDuration) eqn:E1; [apply Z.ltb_lt in E1; lia|].
  destruct (maxDuration <? t - u) eqn:E2; [apply Z.ltb_lt in E2; lia|reflexivity].
Qed.

Lemma walkFn_error (cfg : Config) (env : Env) (now : Z) (path : list string)
    (info : option FileInfo) (e : Errno) :
  walkFn cfg env now path info (Some e) = false.
Proof. reflexivity. Qed.

Lemma walkFn_dir (cfg : Config) (env : Env) (now : Z) (path : list string) (err : option Errno) :
  walkFn cfg env now path (Some InfoDir) err = false.
Proof. destruct err; reflexivity. Qed.

Lemma walkFn_file (cfg : Config) (env : Env) (now : Z) (path : list string) (m size : Z) :
  walkFn cfg env now path (Some (InfoFile m size)) None
  = (Sub now m >? FileExpiryHours cfg) && is_none (fault env OpRemove path).
Proof.
  unfold walkFn. cbn [IsDir ModTime].
  destruct (Sub now m >? FileExpiryHours cfg); [|reflexivity].
  destruct (fault env OpRemove path); reflexivity.
Qed.

Lemma names_distinct_head (s : string) (c : node) (cs : list (string * node)) :
  names_distinct (map fst ((s, c) :: cs)) = true ->
  child s cs = None /\ names_distinct (map fst cs) = true.
Proof.
  cbn. intros H. apply andb_true_iff in H. destruct H as [Hs Hd]. split; [|exact Hd].
  apply negb_true_iff in Hs. clear Hd.
  induction cs as [|[s0 c0] cs IH]; [reflexivity|].
  cbn in *. apply orb_false_iff in Hs. destruct Hs as [Hs0 Hs].
  rewrite String.eqb_sym, Hs0. apply IH, Hs.
Qed.

Lemma child_walk_children_none (cfg : Config) (env : Env) (now : Z)
    (f : list string -> node -> option node) (path : list string) (s : string)
    (cs : list (string * node)) :
  child s cs = None -> child s (walk_children cfg env now f path cs) = None.
Proof.
  induction cs as [|[s0 c0] cs IH]; [reflexivity|].
  cbn [child walk_children]. destruct (s0 =? s)%string eqn:E; [discriminate|].
  intros H. specialize (IH H).
  destruct (fault env OpLstat (path ++ [s0])).
  - rewrite walkFn_error. cbn [child]. rewrite E. exact IH.
  - destruct (f (path ++ [s0])%list c0); [cbn [child]; rewrite E|]; exact IH.
Qed.

(** What the loop over a directory makes of the child [s]. *)
Lemma child_walk_children (cfg : Config) (env : Env) (now : Z)
    (f : list string -> node -> option node) (path : list string) (s : string)
    (cs : list (string * node)) (c : node) :
  names_distinct (map fst cs) = true ->
  child s cs = Some c ->
  child s (walk_children cfg env now f path cs)
  = match fault env OpLstat (path ++ [s]) with
    | Some _ => Some c
    | None => f (path ++ [s])%list c
    end.
Proof.
  induction cs as [|[s0 c0] cs IH]; [discriminate|].
  intros Hd Hc. apply names_distinct_head in Hd. destruct Hd as [Hnone Hd].
  cbn [child] in Hc. cbn [walk_children].
  destruct (s0 =? s)%string eqn:E.
  - apply String.eqb_eq in E. subst s0. injection Hc as ->.
    destruct (fault env OpLstat (path ++ [s])).
    + rewrite walkFn_error. cbn [child]. rewrite String.eqb_refl. reflexivity.
    + destruct (f (path ++ [s])%list c).
      * cbn [child]. rewrite String.eqb_refl. reflexivity.
      * apply child_walk_children_none, Hnone.
  - specialize (IH Hd Hc).
    destruct (fault env OpLstat (path ++ [s0])).
    + rewrite walkFn_error. cbn [child]. rewrite E. exact IH.
    + destruct (f (path ++ [s0])%list c0); [cbn [child]; rewrite E|]; exact IH.
Qed.

Lemma wf_child (cs : list (string * node)) (s : string) (c : node) :
  wf (Folder cs) = true -> child s cs = Some c ->
  names_distinct (map fst cs) = true /\ wf c = true.
Proof.
  cbn [wf]. intros H Hc. apply andb_true_iff in H. destruct H as [Hd Hall].
  split; [exact Hd|]. clear Hd.
  induction cs as [|[s0 c0] cs IH]; [discriminate|].
  cbn in Hall, Hc. apply andb_true_iff in Hall. destruct Hall as [H0 Hall].
  destruct (s0 =? s)%string; [injection Hc as <-; exact H0|apply IH; assumption].
Qed.

(** The walk below an entry, seen from a file [rel] below it: the file is
    gone when the walk reaches it, it has expired and [os.Remove] succeeds,
    and is as before otherwise. *)
Lemma lookup_walk (cfg : Config) (env : Env) (now : Z) (rel : list string) :
  forall (n : node) (path : list string) (d : list Byte.byte) (m : Z),
    wf n = true ->
    lookup n rel = Found (File d m) ->
    let gone := reached env path rel
                && (Sub now m >? FileExpiryHours cfg)
                && is_none (fault env OpRemove (path ++ rel)) in
    match walk cfg env now path n with
    | Some n' => lookup n' rel = if gone then Missing ENOENT else Found (File d m)
    | None => rel = [] /\ gone = true
    end.
Proof.
  induction rel as [|s rel IH]; intros n path d m Hwf Hfile gone; subst gone.
  - cbn in Hfile. injection Hfile as ->.
    cbn [walk info_of reached]. rewrite walkFn_file, app_nil_r. cbn [andb].
    destruct (_ && _) eqn:E; [split; reflexivity|reflexivity].
  - cbn [lookup] in Hfile. destruct n as [d0 m0|cs]; [discriminate|].
    destruct (child s cs) as [c|] eqn:Hc; [|discriminate].
    destruct (wf_child cs s c Hwf Hc) as [Hd Hwfc].
    cbn [walk info_of]. rewrite walkFn_dir. cbn [reached].
    destruct (fault env OpReadDir path) eqn:Hrd; cbn [is_none andb].
    + cbn [lookup]. rewrite Hc. exact Hfile.
    + cbn [lookup]. rewrite (child_walk_children cfg env now _ path s cs c Hd Hc).
      destruct (fault env OpLstat (path ++ [s])) eqn:Hls; cbn [is_none andb].
      * exact Hfile.
      * specialize (IH c (path ++ [s])%list d m Hwfc Hfile). cbv zeta in IH.
        rewrite <- app_assoc in IH. cbn [app] in IH.
        destruct (walk cfg env now (path ++ [s]) c) as [c'|].
        -- exact IH.
        -- destruct IH as [_ ->]. reflexivity.
Qed.

Lemma child_remove_child_ne (s s' : string) (cs : list (string * node)) :
  s <> s' -> child s' (remove_child s cs) = child s' cs.
Proof.
  intros Hne. induction cs as [|[s0 c0] cs IH]; [reflexivity|].
  cbn. destruct (s0 =? s)%string eqn:E.
  - apply String.eqb_eq in E. subst s0. apply String.eqb_neq in Hne. rewrite Hne. reflexivity.
  - cbn. rewrite IH. reflexivity.
Qed.

Lemma child_remove_child_eq (s : string) (cs : list (string * node)) :
  names_distinct (map fst cs) = true -> child s (remove_child s cs) = None.
Proof.
  induction cs as [|[s0 c0] cs IH]; [reflexivity|].
  intros Hd. apply names_distinct_head in Hd. destruct Hd as [Hnone Hd].
  cbn. destruct (s0 =? s)%string eqn:E.
  - apply String.eqb_eq in E. subst s0. exact Hnone.
  - cbn. rewrite E. apply IH, Hd.
Qed.

(** Rewriting the node at [root], seen from a file at [loc]. *)
Lemma lookup_update_opt (f : node -> option node) (root : list string) :
  forall (t : node) (loc : list string) (nroot : node) (d : list Byte.byte) (m : Z),
    wf t = true ->
    lookup t root = Found nroot ->
    lookup t loc = Found (File d m) ->
    match update_opt t root f with
    | None => root = [] /\ f nroot = None
    | Some t' =>
        lookup t' loc
        = match strip_root root loc with
          | None => Found (File d m)
          | Some rel =>
              match f nroot with
              | Some n' => lookup n' rel
              | None => Missing ENOENT
              end
          end
    end.
Proof.
  induction root as [|s root IH]; intros t loc nroot d m Hwf Hroot Hfile.
  - cbn in Hroot. injection Hroot as <-. cbn [update_opt strip_root].
    destruct (f t); [reflexivity|split; reflexivity].
  - cbn [lookup] in Hroot. destruct t as [d0 m0|cs]; [discriminate|].
    destruct (child s cs) as [c|] eqn:Hc; [|discriminate].
    destruct (wf_child cs s c Hwf Hc) as [Hd Hwfc].
    cbn [update_opt]. rewrite Hc.
    destruct loc as [|s2 loc]; [discriminate|].
    cbn [lookup] in Hfile. cbn [strip_root].
    destruct (s =? s2)%string eqn:E.
    + apply String.eqb_eq in E. subst s2. rewrite Hc in Hfile.
      specialize (IH c loc nroot d m Hwfc Hroot Hfile).
      destruct (update_opt c root f) as [c'|].
      * cbn [lookup]. rewrite child_set_child_eq. exact IH.
      * destruct IH as [-> Hf]. cbn [strip_root]. rewrite Hf.
        cbn [lookup]. rewrite child_remove_child_eq by exact Hd. reflexivity.
    + apply String.eqb_neq in E.
      destruct (update_opt c root f) as [c'|]; cbn [lookup].
      * rewrite child_set_child_ne by exact E. exact Hfile.
      * rewrite child_remove_child_ne by exact E. exact Hfile.
Qed.

Lemma lookup_below (root : list string) :
  forall (t : node) (loc rel : list string) (x : node),
    strip_root root loc = Some rel ->
    lookup t loc = Found x ->
    loc = (root ++ rel)%list /\ exists n, lookup t root = Found n /\ lookup n rel = Found x.
Proof.
  induction root as [|s root IH]; intros t loc rel x Hs Hx.
  - cbn in Hs. injection Hs as <-. split; [reflexivity|]. exists t. split; [reflexivity|exact Hx].
  - destruct loc as [|s2 loc]; [discriminate|]. cbn [strip_root] in Hs.
    destruct (s =? s2)%string eqn:E; [|discriminate].
    apply String.eqb_eq in E. subst s2.
    cbn [lookup] in Hx |- *. destruct t as [d0 m0|cs]; [discriminate|].
    destruct (child s cs) as [c|]; [|discriminate].
    destruct (IH c loc rel x Hs Hx) as [-> Hn]. split; [reflexivity|exact Hn].
Qed.

Lemma wf_lookup (p : list string) :
  forall (t n : node), wf t = true -> lookup t p = Found n -> wf n = true.
Proof.
  induction p as [|s p IH]; intros t n Hwf H.
  - cbn in H. injection H as <-. exact Hwf.
  - cbn [lookup] in H. destruct t as [d0 m0|cs]; [discriminate|].
    destruct (child s cs) as [c|] eqn:Hc; [|discriminate].
    apply (IH c n); [apply (wf_child cs s c Hwf Hc)|exact H].
Qed.

Lemma wf_root_wf (t : node) : wf_root t = true -> wf t = true.
Proof. destruct t; [discriminate|]. intros H; exact H. Qed.

(** The walk over the whole tree, seen from a file at [loc]. *)
Lemma lookup_filepath_Walk (cfg : Config) (env : Env) (now : Z) (t : node) (root : list string)
    (loc : list string) (d : list Byte.byte) (m : Z) :
  wf_root t = true ->
  resolve (cwd env) (Clean (StoragePath cfg)) = Some root ->
  lookup t loc = Found (File d m) ->
  lookup (filepath_Walk cfg env now t) loc
  = if swept cfg env now root loc m then Missing ENOENT else Found (File d m).
Proof.
  intros Hroot Hres Hfile. pose proof (wf_root_wf t Hroot) as Hwf.
  unfold filepath_Walk, swept. rewrite Hres.
  destruct (fault env OpLstat root) eqn:Hls.
  { rewrite walkFn_error. destruct (strip_root root loc); exact Hfile. }
  cbn [is_none andb].
  destruct (lookup t root) as [nroot|e] eqn:Hlr.
  2:{ rewrite walkFn_error.
      destruct (strip_root root loc) as [rel|] eqn:Hs; [|exact Hfile].
      destruct (lookup_below root t loc rel _ Hs Hfile) as [_ (n & Hn & _)]. congruence. }
  pose proof (lookup_update_opt (walk cfg env now root) root t loc nroot d m Hwf Hlr Hfile) as Hup.
  unfold update_at.
  destruct (update_opt t root (walk cfg env now root)) as [t'|].
  2:{ destruct Hup as [-> Hnone]. cbn in Hlr. injection Hlr as <-.
      destruct t as [d0 m0|cs]; [discriminate|].
      cbn [walk info_of] in Hnone. rewrite walkFn_dir in Hnone.
      destruct (fault env OpReadDir []); discriminate. }
  rewrite Hup.
  destruct (strip_root root loc) as [rel|] eqn:Hs; [|reflexivity].
  destruct (lookup_below root t loc rel _ Hs Hfile) as [-> (n & Hn & Hrel)].
  rewrite Hlr in Hn. injection Hn as <-.
  pose proof (lookup_walk cfg env now rel nroot root d m (wf_lookup root t nroot Hwf Hlr) Hrel)
    as Hwalk.
  cbv zeta in Hwalk.
  destruct (walk cfg env now root nroot) as [n'|].
  - exact Hwalk.
  - destruct Hwalk as [_ ->]. reflexivity.
Qed.

Lemma reached_no_fault (env : Env) (rel path : list string) :
  (forall op p, fault env op p = None) -> reached env path rel = true.
Proof.
  intros Hnf. revert path. induction rel as [|s rel IH]; intros path; [reflexivity|].
  cbn [reached]. rewrite !Hnf. cbn. apply IH.
Qed.

Lemma inside_strip_root (root loc : list string) :
  inside root loc = negb (is_none (strip_root root loc)).
Proof.
  revert loc. induction root as [|r root IH]; intros [|s loc]; try reflexivity.
  cbn. destruct (r =? s)%string; [apply IH|reflexivity].
Qed.

(** For an expiry time below the largest Duration the test of the sweep,
    on the saturated difference, is the test on the plain difference. *)
Lemma Sub_gtb (now m ttl : Z) :
  minDuration <= ttl < maxDuration -> (Sub now m >? ttl) = (now - m >? ttl).
Proof.
  intros H. unfold Sub. cbv zeta. rewrite !Z.gtb_ltb.
  destruct (now - m <? minDuration) eqn:E1; [apply Z.ltb_lt in E1|apply Z.ltb_ge in E1].
  { transitivity false; [apply Z.ltb_ge|symmetry; apply Z.ltb_ge]; lia. }
  destruct (maxDuration <? now - m) eqn:E2; [apply Z.ltb_lt in E2|reflexivity].
  transitivity true; [apply Z.ltb_lt|symmetry; apply Z.ltb_lt]; lia.
Qed.

(** What [swept] says, with the age as the plain difference. *)
Lemma swept_iff (cfg : Config) (env : Env) (now : Z) (root loc : list string) (m : Z) :
  minDuration <= FileExpiryHours cfg < maxDuration ->
  (swept cfg env now root loc m = true
   <-> now - m > FileExpiryHours cfg /\
       fault env OpRemove loc = None /\
       exists rel, strip_root root loc = Some rel /\
                   fault env OpLstat root = None /\ reached env root rel = true).
Proof.
  intros Httl. unfold swept. rewrite (Sub_gtb now m _ Httl).
  destruct (strip_root root loc) as [rel|].
  2:{ split; [discriminate|]. intros (_ & _ & rel & H & _). discriminate. }
  rewrite !andb_true_iff. rewrite Z.gtb_ltb, Z.ltb_lt.
  split.
  - intros [[[Hl Hr] Ha] Hrm]. split; [lia|]. split.
    + destruct (fault env OpRemove loc); [discriminate|reflexivity].
    + exists rel. split; [reflexivity|]. split; [|exact Hr].
      destruct (fault env OpLstat root); [discriminate|reflexivity].
  - intros (Ha & Hrm & rel' & Hrel & Hl & Hr). injection Hrel as <-.
    rewrite Hl, Hrm. repeat split; try assumption. lia.
Qed.

(** C8. One sweep of [cleanupOldFiles], at the time [now] it reads from the
    clock, over any well-formed tree and whatever failures the operating
    system injects, runs to its end; the expiry time is a Duration below the
    largest one. Of the files there were:
    - each is either gone or as before, bytes and time; it is gone exactly
      when its age [now - mtime] exceeds the expiry time, it lies in the
      storage root, the walk gets to it ([Lstat] and [ReadDir] succeed on the
      way) and [os.Remove] succeeds on it; failures at other entries change
      nothing of this;
    - so a file whose age is at most the expiry time is untouched;
    - and when nothing fails, the files removed are exactly the files of the
      storage root whose age exceeds the expiry time. *)
Theorem sweep_removes_expired (cfg : Config) (env : Env) (w : World) :
  wf_root (fs w) = true ->
  minDuration <= FileExpiryHours cfg < maxDuration ->
  exists root w',
    resolve (cwd env) (Clean (StoragePath cfg)) = Some root /\
    cleanupOldFiles cfg env w = (Ret tt, w') /\
    let now := clock env (ticks w) in
    (forall loc d m,
        lookup (fs w) loc = Found (File d m) ->
        lookup (fs w') loc = Missing ENOENT \/ lookup (fs w') loc = Found (File d m)) /\
    (forall loc d m,
        lookup (fs w) loc = Found (File d m) ->
        (lookup (fs w') loc = Missing ENOENT
         <-> now - m > FileExpiryHours cfg /\
             fault env OpRemove loc = None /\
             exists rel, strip_root root loc = Some rel /\
                         fault env OpLstat root = None /\ reached env root rel = true)) /\
    (forall loc d m,
        lookup (fs w) loc = Found (File d m) ->
        now - m <= FileExpiryHours cfg ->
        lookup (fs w') loc = Found (File d m)) /\
    ((forall op p, fault env op p = None) ->
     forall loc d m,
       lookup (fs w) loc = Found (File d m) ->
       (lookup (fs w') loc = Missing ENOENT
        <-> inside root loc = true /\ now - m > FileExpiryHours cfg)).
Proof.
  intros Hwf Httl.
  destruct (resolve (cwd env) (Clean (StoragePath cfg))) as [root|] eqn:Hres.
  2:{ unfold Clean in Hres. cbn [resolve] in Hres.
      destruct (HasPrefix (StoragePath cfg) "/"); discriminate. }
  exists root. eexists. split; [reflexivity|]. split; [reflexivity|].
  cbn [set_fs fs ticks UnixNano].
  set (now := clock env (ticks w)).
  assert (Hmain : forall loc d m,
             lookup (fs w) loc = Found (File d m) ->
             lookup (filepath_Walk cfg env now (fs w)) loc
             = if swept cfg env now root loc m then Missing ENOENT else Found (File d m)).
  { intros loc d m Hfile. apply lookup_filepath_Walk; assumption. }
  assert (Hiff : forall loc d m,
             lookup (fs w) loc = Found (File d m) ->
             (lookup (filepath_Walk cfg env now (fs w)) loc = Missing ENOENT
              <-> swept cfg env now root loc m = true)).
  { intros loc d m Hfile. rewrite (Hmain loc d m Hfile).
    destruct (swept cfg env now root loc m); split; try reflexivity; discriminate. }
  split; [|split; [|split]].
  - intros loc d m Hfile. rewrite (Hmain loc d m Hfile).
    destruct (swept cfg env now root loc m); [left|right]; reflexivity.
  - intros loc d m Hfile. rewrite (Hiff loc d m Hfile). apply swept_iff, Httl.
  - intros loc d m Hfile Hage. rewrite (Hmain loc d m Hfile).
    destruct (swept cfg env now root loc m) eqn:E; [|reflexivity].
    apply (swept_iff cfg env now root loc m Httl) in E. lia.
  - intros Hnf loc d m Hfile. rewrite (Hiff loc d m Hfile).
    rewrite (swept_iff cfg env now root loc m Httl). rewrite inside_strip_root.
    split.
    + intros (Ha & _ & rel & -> & _). split; [reflexivity|exact Ha].
    + intros [Hin Ha]. split; [exact Ha|]. split; [apply Hnf|].
      destruct (strip_root root loc) as [rel|]; [|discriminate].
      exists rel. split; [reflexivity|]. split; [apply Hnf|].
      apply reached_no_fault, Hnf.
Qed.

(** A sweep in which nothing fails: of the two cached images the one older
    than a day is removed and the newer one is as before. *)
Lemma sweep_removes_expired_witness :
  (exists root w',
     resolve (cwd Sample.env500) (Clean (StoragePath Sample.cfg)) = Some root /\
     cleanupOldFiles Sample.cfg Sample.env500 Sample.world = (Ret tt, w') /\
     let now := clock Sample.env500 (ticks Sample.world) in
     (forall loc d m,
         lookup (fs Sample.world) loc = Found (File d m) ->
         lookup (fs w') loc = Missing ENOENT \/ lookup (fs w') loc = Found (File d m)) /\
     (forall loc d m,
         lookup (fs Sample.world) loc = Found (File d m) ->
         (lookup (fs w') loc = Missing ENOENT
          <-> now - m > FileExpiryHours Sample.cfg /\
              fault Sample.env500 OpRemove loc = None /\
              exists rel, strip_root root loc = Some rel /\
                          fault Sample.env500 OpLstat root = None /\
                          reached Sample.env500 root rel = true)) /\
     (forall loc d m,
         lookup (fs Sample.world) loc = Found (File d m) ->
         now - m <= FileExpiryHours Sample.cfg ->
         lookup (fs w') loc = Found (File d m)) /\
     ((forall op p, fault Sample.env500 op p = None) ->
      forall loc d m,
        lookup (fs Sample.world) loc = Found (File d m) ->
        (lookup (fs w') loc = Missing ENOENT
         <-> inside root loc = true /\ now - m > FileExpiryHours Sample.cfg)))
  /\ (forall op p, fault Sample.env500 op p = None)
  /\ lookup (fs Sample.world) ["app"; "storage"; "img"; "1600000000000000000-aaaaaa.png"]
     = Found (File [Byte.x01; Byte.x02] 1600000000000000000)
  /\ lookup (fs (snd (cleanupOldFiles Sample.cfg Sample.env500 Sample.world)))
       ["app"; "storage"; "img"; "1600000000000000000-aaaaaa.png"]
     = Missing ENOENT
  /\ lookup (fs (snd (cleanupOldFiles Sample.cfg Sample.env500 Sample.world)))
       ["app"; "storage"; "img"; "1699999999000000000-bbbbbb.gif"]
     = Found (File [Byte.x03] 1699999999000000000).
Proof.
  split; [|split; [intros op p; reflexivity|repeat split]].
  apply (sweep_removes_expired Sample.cfg Sample.env500 Sample.world).
  - reflexivity.
  - vm_compute. split; [discriminate|reflexivity].
Defined.

(** A sweep over the sample tree: of the two cached images the one older
    than a day is removed and the newer one is as before, and so is the file
    outside the storage root. *)
Example sweep_sample :
  fs (snd (cleanupOldFiles Sample.cfg Sample.env500 Sample.world))
  = Folder
      [("app",
        Folder
          [("storage",
            Folder [("img", Folder [("1699999999000000000-bbbbbb.gif",
                                     File [Byte.x03] 1699999999000000000)])]);
           ("etc", Folder [("passwd", File Sample.secret 1500000000000000000)])])].
Proof. vm_compute. reflexivity. Qed.

(** When the directory of the images cannot be read, the sweep ends all the
    same and removes nothing. *)
Example sweep_unreadable_directory :
  cleanupOldFiles Sample.cfg Sample.env_unreadable Sample.world
  = (Ret tt, {| fs := Sample.tree; ticks := 1; trace := [] |}).
Proof. vm_compute. reflexivity. Qed.

(** When [os.Remove] fails on one expired file, the sweep goes on: here it
    fails on the first image and, a year later, the second one is removed all
    the same. *)
Example sweep_goes_on_after_failure :
  let env :=
    {| cwd := ["app"];
       clock := fun _ => Sample.start + 365 * 24 * 3600 * Second;
       net := fun _ _ => DoFails "offline";
       fault := fun op p =>
                  match op, p with
                  | OpRemove, ["app"; "storage"; "img"; "1600000000000000000-aaaaaa.png"] =>
                      Some EACCES
                  | _, _ => None
                  end;
       short := fun _ => O |} in
  fs (snd (cleanupOldFiles Sample.cfg env Sample.world))
  = Folder
      [("app",
        Folder
          [("storage",
            Folder [("img", Folder [("1600000000000000000-aaaaaa.png",
                                     File [Byte.x01; Byte.x02] 1600000000000000000)])]);
           ("etc", Folder [("passwd", File Sample.secret 1500000000000000000)])])].
Proof. vm_compute. reflexivity. Qed.

(** ** Some values of the helpers *)

Example TrimSpace_example :
  TrimSpace (unchars (bytes_of [32; 9; 104; 105; 32; 120; 194; 160; 10]%nat)) = "hi x".
Proof. reflexivity. Qed.

Example ToLower_example : ToLower ".JPG" = ".jpg" /\ itoa (-120) = "-120" /\ hex 255 = "ff".
Proof. repeat split. Qed.

Example Join_example :
  path_string (Join "./storage" "img/17-aaaaaa.png") = "storage/img/17-aaaaaa.png"
  /\ path_string (Join "./storage" "img/../../etc/passwd") = "etc/passwd"
  /\ path_string (Join "/a/b/" "../../../x//y/.") = "/x/y"
  /\ path_string (Join "a" "../../x") = "../x"
  /\ Ext (Join "./storage" "img/17-aaaaaa.PNG") = ".PNG"
  /\ resolve ["srv"; "app"] (Join "a" "../../x") = Some ["srv"; "x"].
Proof. repeat split. Qed.

(** A served image, through [rateLimitHandler]. *)
Example serve_example :
  fst (rateLimitHandler Sample.cfg Sample.env500
         (Sample.get "/img/1699999999000000000-bbbbbb.gif") Sample.world)
  = Ret (served "image/gif" 1699999999000000000 [Byte.x03]).
Proof. vm_compute. reflexivity. Qed.

(** * Further properties *)

Example getRateLimit_example :
  getRateLimit (fun k => if (k =? "RATE_LIMIT")%string then "60-hours" else "")
  = {| Period := Hour; Limit := 60 |}
  /\ getRateLimit (fun _ => "") = defaultRate
  /\ getRateLimit (fun _ => "-5-Minute") = defaultRate
  /\ getRateLimit (fun _ => "+007-second") = {| Period := Second; Limit := 7 |}
  /\ getRateLimit (fun _ => "9223372036854775808-second") = defaultRate
  /\ TrimSuffix "img//" "/" = "img/" /\ TrimSuffix "img" "/" = "img"
  /\ Split "a, b,,c" "," = ["a"; " b"; ""; "c"] /\ Split "" "," = [""].
Proof. repeat split. Qed.

(** ** The suffix of the key *)

(** X1. [randomString]. While the clock does not read a time before 1970,
    [randomString n] returns a string of [n] bytes of [letters], reads the
    clock [n] times and changes nothing else; its [i]-th byte is
    [letters[t % 36]] for the [i]-th reading [t], so the string is a function
    of the clock alone. *)
Theorem randomString_from_clock (env : Env) (n : nat) (w : World) :
  (forall i, (i < n)%nat -> 0 <= clock env (ticks w + i)%nat) ->
  exists rs,
    randomString env n w
    = (Ret rs, {| fs := fs w; ticks := (ticks w + n)%nat; trace := trace w |}) /\
    String.length rs = n /\
    forallb is_letter (chars rs) = true /\
    forall i, (i < n)%nat ->
      nth_error (chars rs) i
      = nth_error (chars letters) (Z.to_nat (clock env (ticks w + i)%nat mod 36)).
Proof.
  intros Hclock.
  assert (Hrun : exists b w', randomString_loop env n w = (Ret b, w')).
  { revert w Hclock. induction n as [|n IH]; intros w Hclock.
    - do 2 eexists. reflexivity.
    - cbn [randomString_loop]. unfold bind at 1. unfold UnixNano at 1.
      change (Z.of_nat (String.length letters)) with 36.
      pose proof (Hclock 0%nat ltac:(lia)) as H0. rewrite Nat.add_0_r in H0.
      pose proof (Z.rem_bound_pos (clock env (ticks w)) 36 H0 ltac:(lia)) as Hb.
      replace (Z.rem (clock env (ticks w)) 36 <? 0) with false
        by (symmetry; apply Z.ltb_ge; lia).
      destruct (letters_nth _ Hb) as (c & -> & _).
      unfold bind.
      match goal with |- context [randomString_loop env n ?w1] =>
        destruct (IH w1) as (b & w' & ->)
      end.
      + intros i Hi. cbn [ticks]. replace (S (ticks w) + i)%nat with (ticks w + S i)%nat by lia.
        apply Hclock. lia.
      + do 2 eexists. reflexivity. }
  destruct Hrun as (b & w' & Hrun).
  destruct (randomString_loop_ret env n w w' b Hrun) as (Hw & Hlen & Hall & Hnth).
  exists (unchars b). unfold randomString, bind. rewrite Hrun. unfold ret.
  split; [rewrite Hw; reflexivity|].
  rewrite chars_unchars.
  split.
  { rewrite <- Hlen. clear. induction b as [|c b IH]; [reflexivity|]. cbn. f_equal. exact IH. }
  split; [exact Hall|].
  intros i Hi. rewrite (Hnth i Hi).
  rewrite Z.rem_mod_nonneg by (try apply Hclock; lia). reflexivity.
Qed.

Lemma randomString_from_clock_witness :
  exists rs,
    randomString Sample.env_retry 6 Sample.world
    = (Ret rs, {| fs := fs Sample.world; ticks := (ticks Sample.world + 6)%nat;
                  trace := trace Sample.world |}) /\
    String.length rs = 6%nat /\
    forallb is_letter (chars rs) = true /\
    forall i, (i < 6)%nat ->
      nth_error (chars rs) i
      = nth_error (chars letters)
          (Z.to_nat (clock Sample.env_retry (ticks Sample.world + i)%nat mod 36)).
Proof.
  apply (randomString_from_clock Sample.env_retry 6 Sample.world).
  intros i Hi. unfold Sample.env_retry, Sample.start. cbn [clock]. lia.
Defined.

(** ** The answers of the ingest handler *)

(** X2. the gates of [handleProxy]. A request that is not a POST, or that
    does not carry the configured API key, or whose body does not decode, is
    answered with the InvalidRequest error, and the world is as before:
    nothing is downloaded and nothing is written. *)
Theorem handleProxy_rejects_at_the_gates (cfg : Config) (env : Env) (r : Request) (hs : Headers)
    (w : World) :
  r_method r <> "POST"
  \/ (APIKey cfg <> "" /\ r_apikey r <> APIKey cfg)
  \/ r_json r = None ->
  handleProxy cfg env r hs w = (Ret (responseError hs InvalidRequest), w).
Proof.
  intros H. unfold handleProxy.
  destruct (String.eqb_spec (r_method r) "POST") as [Hm|Hm]; [|reflexivity]. cbn [negb].
  destruct (String.eqb_spec (APIKey cfg) "") as [Hk|Hk]; cbn [negb andb].
  - destruct H as [H|[[H _]|H]]; [contradiction|contradiction|]. rewrite H. reflexivity.
  - destruct (String.eqb_spec (r_apikey r) (APIKey cfg)) as [Ha|Ha]; [|reflexivity]. cbn [negb].
    destruct H as [H|[[_ H]|H]]; [contradiction|contradiction|]. rewrite H. reflexivity.
Qed.

Lemma handleProxy_rejects_at_the_gates_witness :
  handleProxy Sample.cfg Sample.env500 (Sample.get "/proxy") [] Sample.world
  = (Ret (responseError [] InvalidRequest), Sample.world).
Proof.
  apply (handleProxy_rejects_at_the_gates Sample.cfg Sample.env500 (Sample.get "/proxy") []
           Sample.world).
  left. discriminate.
Defined.

(** X3. the answers of [handleProxy]. Whenever it returns, the answer is
    either the success envelope with status 200, or status 500 with one of
    three fixed messages; no other status and no detail of the failure
    reaches the client. *)
Theorem handleProxy_answers (cfg : Config) (env : Env) (r : Request) (hs : Headers)
    (w w' : World) (resp : Response) :
  handleProxy cfg env r hs w = (Ret resp, w') ->
  (status resp = StatusOK /\
   headers resp = header_set "Content-Type" "application/json" (set_all hs []) /\
   exists url ct n, body resp = BodyResult true url ct n)
  \/ (exists m, In m [InvalidRequest; DownloadFailed; StorageFailed] /\
                resp = responseError hs m).
Proof.
  intros Hrun.
  destruct (handleProxy_cases cfg env r hs w)
    as [H|[(evs & H)|[(msg & w1 & H & _)|[(w1 & H & _)|H]]]].
  - rewrite H in Hrun. injection Hrun as <- _. right. eexists. split; [|reflexivity]. simpl; auto.
  - rewrite H in Hrun. injection Hrun as <- _. right. eexists. split; [|reflexivity]. simpl; auto.
  - rewrite H in Hrun. discriminate.
  - rewrite H in Hrun. injection Hrun as <- _. right. eexists. split; [|reflexivity]. simpl; auto.
  - destruct H as (data & ct & b & evs & dloc & t1 & loc & t2 & H). cbv zeta in H.
    destruct H as (_ & _ & _ & _ & _ & H).
    rewrite H in Hrun. injection Hrun as <- _. left.
    split; [reflexivity|]. split; [reflexivity|]. do 3 eexists. reflexivity.
Qed.

Lemma handleProxy_answers_witness :
  (status (Sample.response_of (fst Sample.ingest1)) = StatusOK /\
   headers (Sample.response_of (fst Sample.ingest1))
   = header_set "Content-Type" "application/json" (set_all [] []) /\
   exists url ct n, body (Sample.response_of (fst Sample.ingest1)) = BodyResult true url ct n)
  \/ (exists m, In m [InvalidRequest; DownloadFailed; StorageFailed] /\
                Sample.response_of (fst Sample.ingest1) = responseError [] m).
Proof.
  apply (handleProxy_answers Sample.cfg Sample.env_retry Sample.req [] Sample.world
           (snd Sample.ingest1)).
  vm_compute. reflexivity.
Defined.

(** X4. what a failed ingest leaves behind. When [handleProxy] ends with
    the InvalidRequest or the DownloadFailed error, or panics, the files of
    the tree are the same after as before. When it answers with the
    StorageFailed error, either the files are the same as well (the directory
    or the file could not be created or opened; at most directories have been
    made), or [os.WriteFile] failed after it had opened the file: then the
    file of the key holds the bytes that had been written, a prefix of the
    fetched bytes, and every other file is as before. A failed ingest can
    therefore leave a truncated image behind, under a key no client was
    told. *)
Theorem failed_ingest_leaves_at_most_a_prefix (cfg : Config) (env : Env) (r : Request)
    (hs : Headers) (w w' : World) (o : outcome Response) :
  handleProxy cfg env r hs w = (o, w') ->
  (forall resp, o = Ret resp -> status resp <> StatusOK) ->
  (o <> Ret (responseError hs StorageFailed) ->
   forall q d m, lookup (fs w') q = Found (File d m) <-> lookup (fs w) q = Found (File d m)) /\
  (o = Ret (responseError hs StorageFailed) ->
   (forall q d m, lookup (fs w') q = Found (File d m) <-> lookup (fs w) q = Found (File d m))
   \/ exists url k answer rs loc e,
        let key := file_name cfg (clock env (ticks w)) rs
                     (getExtFromContentType (media_type answer)) in
        fetched env r url k answer /\
        resolve (cwd env) (Join (StoragePath cfg) key) = Some loc /\
        fault env OpWrite loc = Some e /\
        lookup (fs w') loc
        = Found (File (firstn (short env loc) (Body answer)) (clock env (ticks w + 7)%nat)) /\
        forall q d m, q <> loc ->
          (lookup (fs w') q = Found (File d m) <-> lookup (fs w) q = Found (File d m))).
Proof.
  intros Hrun Hfail.
  destruct (handleProxy_courses cfg env r hs w)
    as [H|[(evs & H)|[(msg & w1 & H & Hfs)|[(w1 & H & Hfs)|H]]]].
  - rewrite H in Hrun. injection Hrun as _ <-. split; [reflexivity|left; reflexivity].
  - rewrite H in Hrun. injection Hrun as _ <-. split; [reflexivity|left; reflexivity].
  - rewrite H in Hrun. injection Hrun as _ <-. rewrite Hfs. split; [reflexivity|left; reflexivity].
  - rewrite H in Hrun. injection Hrun as _ <-.
    assert (Hsame : forall q d m,
               lookup (fs w1) q = Found (File d m) <-> lookup (fs w) q = Found (File d m)).
    { intros q d m. destruct Hfs as [-> | (dloc & Hmk)]; [reflexivity|].
      apply (lookup_mkdir_all_file dloc _ _ q d m Hmk). }
    split; [intros _; exact Hsame|intros _; left; exact Hsame].
  - destruct H as (url & k & answer & b & evs & dloc & t1 & loc & H). cbv zeta in H.
    destruct H as (Hf & _ & _ & _ & Hmk & Hloc & [(e & t2 & He & Hw & H)|(t2 & _ & _ & H)]);
      rewrite H in Hrun; injection Hrun as <- <-.
    + split; [intros Hne; exfalso; apply Hne; reflexivity|].
      intros _. right. exists url, k, answer, (unchars b), loc, e. cbv zeta.
      split; [exact Hf|]. split; [exact Hloc|]. split; [exact He|]. cbn [fs].
      split; [apply (lookup_write_file _ _ _ _ _ Hw)|].
      intros q d m Hq.
      rewrite (lookup_write_file_other loc _ _ q _ d _ m Hw Hq).
      apply (lookup_mkdir_all_file dloc _ _ q d m Hmk).
    + exfalso. apply (Hfail _ eq_refl). reflexivity.
Qed.

(** An ingest on a disk that fails every write after two bytes: the answer
    is the StorageFailed error, and the first two of the four fetched bytes
    are in the file of the key. *)
Lemma failed_ingest_leaves_at_most_a_prefix_witness :
  ((fst Sample.ingest_disk_full <> Ret (responseError [] StorageFailed) ->
    forall q d m,
      lookup (fs (snd Sample.ingest_disk_full)) q = Found (File d m)
      <-> lookup (fs Sample.world) q = Found (File d m)) /\
   (fst Sample.ingest_disk_full = Ret (responseError [] StorageFailed) ->
    (forall q d m,
        lookup (fs (snd Sample.ingest_disk_full)) q = Found (File d m)
        <-> lookup (fs Sample.world) q = Found (File d m))
    \/ exists url k answer rs loc e,
         let key := file_name Sample.cfg (clock Sample.env_disk_full (ticks Sample.world)) rs
                      (getExtFromContentType (media_type answer)) in
         fetched Sample.env_disk_full Sample.req url k answer /\
         resolve (cwd Sample.env_disk_full) (Join (StoragePath Sample.cfg) key) = Some loc /\
         fault Sample.env_disk_full OpWrite loc = Some e /\
         lookup (fs (snd Sample.ingest_disk_full)) loc
         = Found (File (firstn (short Sample.env_disk_full loc) (Body answer))
                    (clock Sample.env_disk_full (ticks Sample.world + 7)%nat)) /\
         forall q d m, q <> loc ->
           (lookup (fs (snd Sample.ingest_disk_full)) q = Found (File d m)
            <-> lookup (fs Sample.world) q = Found (File d m))))
  /\ fst Sample.ingest_disk_full = Ret (responseError [] StorageFailed)
  /\ lookup (fs (snd Sample.ingest_disk_full))
       ["app"; "storage"; "img"; "1700000000000000000-jklmno.png"]
     = Found (File [Byte.x89; Byte.x50] 1700000000000000007).
Proof.
  split; [|split; vm_compute; reflexivity].
  apply (failed_ingest_leaves_at_most_a_prefix Sample.cfg Sample.env_disk_full Sample.req []
           Sample.world (snd Sample.ingest_disk_full) (fst Sample.ingest_disk_full)).
  - vm_compute. reflexivity.
  - intros resp H. vm_compute in H. injection H as <-. discriminate.
Defined.

(** X5. a successful ingest writes one file. The file of the returned key
    holds the bytes of the answer the network gave to the request for the
    URL (status below 400, body read to its end), the answer reports their
    media type and length, and every other file of the tree is the same
    after as before: no other cached image is touched. *)
Theorem ingest_writes_one_file (cfg : Config) (env : Env) (r : Request) (hs : Headers)
    (w w' : World) (resp : Response) :
  handleProxy cfg env r hs w = (Ret resp, w') ->
  status resp = StatusOK ->
  exists url k answer key loc,
    fetched env r url k answer /\
    body resp = BodyResult true (CustomDomain cfg ++ "/" ++ key) (media_type answer)
                  (Z.of_nat (List.length (Body answer))) /\
    resolve (cwd env) (Join (StoragePath cfg) key) = Some loc /\
    lookup (fs w') loc = Found (File (Body answer) (clock env (ticks w + 7)%nat)) /\
    forall q d m, q <> loc ->
      (lookup (fs w') q = Found (File d m) <-> lookup (fs w) q = Found (File d m)).
Proof.
  intros Hrun Hok.
  destruct (handleProxy_courses cfg env r hs w)
    as [H|[(evs & H)|[(msg & w1 & H & _)|[(w1 & H & _)|H]]]];
    try (rewrite H in Hrun; injection Hrun as <- _; discriminate Hok);
    try (rewrite H in Hrun; discriminate Hrun).
  destruct H as (url & k & answer & b & evs & dloc & t1 & loc & H). cbv zeta in H.
  destruct H as (Hf & _ & _ & _ & Hmk & Hloc & [(e & t2 & _ & _ & H)|(t2 & _ & Hw & H)]);
    rewrite H in Hrun; injection Hrun as <- <-; [discriminate Hok|].
  exists url, k, answer. eexists. exists loc.
  split; [exact Hf|]. split; [reflexivity|]. split; [exact Hloc|]. cbn [fs].
  split; [apply (lookup_write_file _ _ _ _ _ Hw)|].
  intros q d m Hq.
  rewrite (lookup_write_file_other loc _ _ q _ d _ m Hw Hq).
  apply (lookup_mkdir_all_file dloc _ _ q d m Hmk).
Qed.

Lemma ingest_writes_one_file_witness :
  exists url k answer key loc,
    fetched Sample.env_retry Sample.req url k answer /\
    body (Sample.response_of (fst Sample.ingest1))
    = BodyResult true (CustomDomain Sample.cfg ++ "/" ++ key) (media_type answer)
        (Z.of_nat (List.length (Body answer))) /\
    resolve (cwd Sample.env_retry) (Join (StoragePath Sample.cfg) key) = Some loc /\
    lookup (fs (snd Sample.ingest1)) loc
    = Found (File (Body answer) (clock Sample.env_retry (ticks Sample.world + 7)%nat)) /\
    forall q d m, q <> loc ->
      (lookup (fs (snd Sample.ingest1)) q = Found (File d m)
       <-> lookup (fs Sample.world) q = Found (File d m)).
Proof.
  apply (ingest_writes_one_file Sample.cfg Sample.env_retry Sample.req [] Sample.world
           (snd Sample.ingest1) (Sample.response_of (fst Sample.ingest1))).
  - vm_compute. reflexivity.
  - reflexivity.
Defined.

(** X6. the shape of a key. The URL a successful ingest returns is
    [CustomDomain/PathPrefix<t>-<suffix>.<ext>], where [t] is the first
    reading of the clock of the run in decimal, the suffix has six bytes of
    [letters], and the extension is one of jpg, png, webp and gif. *)
Theorem url_shape (cfg : Config) (env : Env) (r : Request) (hs : Headers)
    (w w' : World) (resp : Response) :
  handleProxy cfg env r hs w = (Ret resp, w') ->
  status resp = StatusOK ->
  exists rs ext ct n,
    body resp
    = BodyResult true
        (CustomDomain cfg ++ "/" ++ PathPrefix cfg ++ itoa (clock env (ticks w)) ++ "-" ++ rs
         ++ "." ++ ext) ct n /\
    String.length rs = 6%nat /\
    forallb is_letter (chars rs) = true /\
    In ext ["jpg"; "png"; "webp"; "gif"].
Proof.
  intros Hrun Hok.
  destruct (handleProxy_cases cfg env r hs w)
    as [H|[(evs & H)|[(msg & w1 & H & _)|[(w1 & H & _)|H]]]];
    try (rewrite H in Hrun; injection Hrun as <- _; discriminate Hok);
    try (rewrite H in Hrun; discriminate Hrun).
  destruct H as (data & ct & b & evs & dloc & t1 & loc & t2 & H). cbv zeta in H.
  destruct H as (Hlen & Hall & _ & _ & _ & H).
  rewrite H in Hrun. injection Hrun as <- _.
  exists (unchars b), (getExtFromContentType ct), ct. eexists.
  split; [reflexivity|]. rewrite chars_unchars.
  split; [|split; [exact Hall|apply getExtFromContentType_cases]].
  rewrite <- Hlen. clear. induction b as [|c b IH]; [reflexivity|]. cbn. f_equal. exact IH.
Qed.

Lemma url_shape_witness :
  exists rs ext ct n,
    body (Sample.response_of (fst Sample.ingest1))
    = BodyResult true
        (CustomDomain Sample.cfg ++ "/" ++ PathPrefix Sample.cfg
         ++ itoa (clock Sample.env_retry (ticks Sample.world)) ++ "-" ++ rs ++ "." ++ ext) ct n /\
    String.length rs = 6%nat /\
    forallb is_letter (chars rs) = true /\
    In ext ["jpg"; "png"; "webp"; "gif"].
Proof.
  apply (url_shape Sample.cfg Sample.env_retry Sample.req [] Sample.world
           (snd Sample.ingest1) (Sample.response_of (fst Sample.ingest1))).
  - vm_compute. reflexivity.
  - reflexivity.
Defined.

(** ** The retry loop *)

(** X7. the retry loop stops at the first success. For a request that
    passes the gates, [handleProxy] calls [downloadImage] until a call
    succeeds, three times at most, sleeping one and then two seconds between
    the calls, and it answers with the DownloadFailed error exactly when the
    three requests in a row fail. *)
Theorem handleProxy_stops_at_first_success (cfg : Config) (env : Env) (r : Request)
    (hs : Headers) (w : World) (data : list (string * string)) :
  r_method r = "POST" ->
  APIKey cfg = "" \/ r_apikey r = APIKey cfg ->
  r_json r = Some data ->
  TrimSpace (map_get data "url") <> "" ->
  let url := TrimSpace (map_get data "url") in
  let ok := fun j => fetch_ok (net env (downloads (trace w) + j)%nat url) in
  trace (snd (handleProxy cfg env r hs w))
  = (trace w ++ (if ok 0%nat then attempts1 url
                 else if ok 1%nat then attempts2 url else attempts3 url))%list /\
  (fst (handleProxy cfg env r hs w) = Ret (responseError hs DownloadFailed)
   <-> ok 0%nat = false /\ ok 1%nat = false /\ ok 2%nat = false).
Proof.
  intros Hm Hk Hj Hu url ok.
  destruct (retry_loop_first_success env url ([], "", None) w) as (res & Hretry & Hres).
  destruct (handleProxy_after_retry cfg env r hs w _ data res Hm Hk Hj Hu Hretry) as [Ht Ha].
  split; [exact Ht|].
  rewrite Ha.
  change (snd res = None <-> ok 0%nat || ok 1%nat || ok 2%nat = true) in Hres. split.
  - intros Hne.
    destruct (ok 0%nat || ok 1%nat || ok 2%nat) eqn:E.
    + exfalso. apply Hne. apply Hres. reflexivity.
    + apply orb_false_iff in E. destruct E as [E E2].
      apply orb_false_iff in E. destruct E as [E0 E1]. auto.
  - intros (H0 & H1 & H2) E. apply Hres in E. rewrite H0, H1, H2 in E. discriminate.
Qed.

Lemma handleProxy_stops_at_first_success_witness :
  trace (snd (handleProxy Sample.cfg Sample.env_retry Sample.req [] Sample.world))
  = (trace Sample.world
     ++ (if fetch_ok (net Sample.env_retry (downloads (trace Sample.world) + 0)%nat
                        (TrimSpace (map_get [("url", "http://example.com/a.png")] "url")))
         then attempts1 (TrimSpace (map_get [("url", "http://example.com/a.png")] "url"))
         else if fetch_ok (net Sample.env_retry (downloads (trace Sample.world) + 1)%nat
                             (TrimSpace (map_get [("url", "http://example.com/a.png")] "url")))
         then attempts2 (TrimSpace (map_get [("url", "http://example.com/a.png")] "url"))
         else attempts3 (TrimSpace (map_get [("url", "http://example.com/a.png")] "url"))))%list /\
  (fst (handleProxy Sample.cfg Sample.env_retry Sample.req [] Sample.world)
   = Ret (responseError [] DownloadFailed)
   <-> fetch_ok (net Sample.env_retry (downloads (trace Sample.world) + 0)%nat
                   (TrimSpace (map_get [("url", "http://example.com/a.png")] "url"))) = false /\
       fetch_ok (net Sample.env_retry (downloads (trace Sample.world) + 1)%nat
                   (TrimSpace (map_get [("url", "http://example.com/a.png")] "url"))) = false /\
       fetch_ok (net Sample.env_retry (downloads (trace Sample.world) + 2)%nat
                   (TrimSpace (map_get [("url", "http://example.com/a.png")] "url"))) = false).
Proof.
  apply (handleProxy_stops_at_first_success Sample.cfg Sample.env_retry Sample.req []
           Sample.world [("url", "http://example.com/a.png")]).
  - reflexivity.
  - left. reflexivity.
  - reflexivity.
  - vm_compute. discriminate.
Defined.

(** X8. the cost of one request. Whatever the request and the remote,
    [handleProxy] calls [downloadImage] at most three times and sleeps at
    most three seconds in all. *)
Theorem handleProxy_bounded (cfg : Config) (env : Env) (r : Request) (hs : Headers) (w : World) :
  exists evs,
    trace (snd (handleProxy cfg env r hs w)) = (trace w ++ evs)%list /\
    (downloads evs <= 3)%nat /\
    0 <= slept evs <= 3 * Second.
Proof.
  destruct (handleProxy_trace cfg env r hs w) as (url & evs & Ht & Hshape).
  exists evs. split; [exact Ht|].
  destruct Hshape as [-> | [-> | [-> | ->]]]; cbn; unfold Second; lia.
Qed.

(** ** Serving *)

(** X9. serving reads and never writes. Whatever the path and however
    [handleImage] ends (an answer or a panic), the world is as before. *)
Theorem handleImage_read_only (cfg : Config) (env : Env) (urlPath : string) (w : World) :
  snd (handleImage cfg env urlPath w) = w.
Proof.
  unfold handleImage, bind, os_Stat, os_Open, ret, panic.
  destruct (resolve _ _) as [loc|]; [|reflexivity].
  destruct (fault env OpStat loc) as [e|].
  { destruct (IsNotExist (Some e)); reflexivity. }
  destruct (lookup (fs w) loc) as [n|e].
  2:{ destruct (IsNotExist (Some e)); reflexivity. }
  cbn [IsNotExist]. destruct (IsDir (info_of n)); [reflexivity|].
  cbv beta. destruct (fault env OpOpen loc); [reflexivity|].
  destruct (lookup (fs w) loc); reflexivity.
Qed.

(** X10. what is served. An answer of [handleImage] with status 200 carries
    the bytes of the regular file the path resolves to, under one of the
    four image types, never another type, whatever the file holds and
    whatever its name. *)
Theorem handleImage_serves_a_file (cfg : Config) (env : Env) (urlPath : string) (w w' : World)
    (resp : Response) :
  handleImage cfg env urlPath w = (Ret resp, w') ->
  status resp = StatusOK ->
  exists loc data mt ct,
    resolve (cwd env) (Join (StoragePath cfg) (TrimPrefix urlPath "/")) = Some loc /\
    lookup (fs w) loc = Found (File data mt) /\
    In ct image_types /\
    resp = served ct mt data.
Proof.
  unfold handleImage, bind, os_Stat, os_Open, ret, panic.
  destruct (resolve _ _) as [loc|]; [|intros H; injection H as <- _; discriminate].
  destruct (fault env OpStat loc) as [e|].
  { destruct (IsNotExist (Some e)); intros H; [injection H as <- _|]; discriminate. }
  destruct (lookup (fs w) loc) as [n|e] eqn:Hloc.
  2:{ destruct (IsNotExist (Some e)); intros H; [injection H as <- _|]; discriminate. }
  cbn [IsNotExist]. destruct n as [data mt|cs]; cbn [info_of IsDir];
    [|intros H; injection H as <- _; discriminate].
  cbv beta. destruct (fault env OpOpen loc); [intros H; injection H as <- _; discriminate|].
  rewrite Hloc. intros H _. injection H as <- _.
  exists loc, data, mt. eexists. split; [reflexivity|]. split; [exact Hloc|].
  split; [|reflexivity]. unfold image_types.
  destruct (_ || _); [simpl; auto|].
  destruct (_ =? ".png")%string; [simpl; auto|].
  destruct (_ =? ".webp")%string; [simpl; auto|].
  destruct (_ =? ".gif")%string; simpl; auto.
Qed.

Lemma handleImage_serves_a_file_witness :
  exists loc data mt ct,
    resolve (cwd Sample.env500)
      (Join (StoragePath Sample.cfg) (TrimPrefix "/img/../../etc/passwd" "/")) = Some loc /\
    lookup (fs Sample.world) loc = Found (File data mt) /\
    In ct image_types /\
    served "image/png" 1500000000000000000 Sample.secret = served ct mt data.
Proof.
  apply (handleImage_serves_a_file Sample.cfg Sample.env500 "/img/../../etc/passwd"
           Sample.world Sample.world).
  - vm_compute. reflexivity.
  - reflexivity.
Defined.

(** X11. not found. When [Stat] itself does not fail, [handleImage] answers
    404 exactly when nothing exists at the resolved path or a directory
    does. *)
Theorem handleImage_not_found (cfg : Config) (env : Env) (urlPath : string) (w : World)
    (loc : list string) :
  resolve (cwd env) (Join (StoragePath cfg) (TrimPrefix urlPath "/")) = Some loc ->
  fault env OpStat loc = None ->
  (handleImage cfg env urlPath w = (Ret (http_Error NotFound StatusNotFound), w)
   <-> lookup (fs w) loc = Missing ENOENT \/ is_folder (lookup (fs w) loc) = true).
Proof.
  intros Hloc Hstat.
  unfold handleImage, bind, os_Stat, os_Open, ret, panic. rewrite Hloc, Hstat.
  destruct (lookup (fs w) loc) as [[data mt|cs]|e] eqn:Hl.
  - cbn [info_of IsNotExist IsDir is_folder]. cbv beta. rewrite ?Hl.
    unfold http_Error, StatusNotFound, StatusOK, StatusInternalServerError.
    destruct (fault env OpOpen loc); (split; [intros H; inversion H|]);
      intros [H|H]; discriminate.
  - cbn. split; [right; reflexivity|reflexivity].
  - destruct e; cbn; (split; [intros H|intros [H|H]]);
      try discriminate; try reflexivity; left; reflexivity.
Qed.

Lemma handleImage_not_found_witness :
  handleImage Sample.cfg Sample.env500 "/img" Sample.world
  = (Ret (http_Error NotFound StatusNotFound), Sample.world)
  <-> lookup (fs Sample.world) ["app"; "storage"; "img"] = Missing ENOENT
      \/ is_folder (lookup (fs Sample.world) ["app"; "storage"; "img"]) = true.
Proof.
  apply (handleImage_not_found Sample.cfg Sample.env500 "/img" Sample.world
           ["app"; "storage"; "img"]).
  - vm_compute. reflexivity.
  - reflexivity.
Defined.

(** ** Routing *)

Lemma has_prefix_app (p l : list ascii) : has_prefix p (p ++ l) = true.
Proof. induction p as [|c p IH]; [reflexivity|]. cbn. rewrite Ascii.eqb_refl. exact IH. Qed.

Lemma file_name_dash (cfg : Config) (t : Z) (rs ext : string) :
  In "-"%char (chars (file_name cfg t rs ext)).
Proof.
  unfold file_name. rewrite !chars_app.
  apply in_or_app. right. apply in_or_app. right. cbn. left. reflexivity.
Qed.

(** The path of a stored file is routed to [handleImage]. *)
Lemma rateLimitHandler_key (cfg : Config) (env : Env) (g : Request) (w : World)
    (t : Z) (rs ext : string) :
  r_method g <> "OPTIONS" ->
  r_path g = "/" ++ file_name cfg t rs ext ->
  rateLimitHandler cfg env g w = handleImage cfg env (r_path g) w.
Proof.
  intros Hm Hp. unfold rateLimitHandler. rewrite Hp.
  pose proof (file_name_dash cfg t rs ext) as Hdash.
  assert (H1 : ("/" ++ file_name cfg t rs ext =? "/")%string = false).
  { apply String.eqb_neq. intros E. injection E as E. rewrite E in Hdash. destruct Hdash. }
  assert (H2 : ("/" ++ file_name cfg t rs ext =? "/proxy")%string = false).
  { apply String.eqb_neq. intros E. injection E as E. rewrite E in Hdash.
    cbn in Hdash. repeat (destruct Hdash as [Hdash|Hdash]; [discriminate|]). destruct Hdash. }
  rewrite H1, H2. apply String.eqb_neq in Hm. rewrite Hm.
  assert (H3 : HasPrefix ("/" ++ file_name cfg t rs ext) ("/" ++ PathPrefix cfg) = true).
  { unfold HasPrefix, file_name. rewrite !chars_app. cbn [chars list_ascii_of_string app].
    cbn [has_prefix]. rewrite Ascii.eqb_refl. cbn [andb]. apply has_prefix_app. }
  rewrite H3. reflexivity.
Qed.

(** X12. ingest, then fetch the returned URL. When a POST to [/proxy] is
    answered with success through [rateLimitHandler], the answer names the
    media type and the length of the bytes the network gave for the URL, and
    any later request other than OPTIONS for the path of the returned URL is
    routed to [handleImage] and, as long as [Stat] and [Open] do not fail and
    the tree is not changed in between, gets exactly those bytes under the
    canonical media type: the URL that is handed out is one the server
    serves. *)
Theorem returned_url_is_served (cfg : Config) (env : Env) (r : Request) (w w' : World)
    (resp : Response) :
  r_method r = "POST" ->
  r_path r = "/proxy" ->
  rateLimitHandler cfg env r w = (Ret resp, w') ->
  status resp = StatusOK ->
  (forall loc, fault env OpStat loc = None) ->
  (forall loc, fault env OpOpen loc = None) ->
  exists url k answer key mt,
    fetched env r url k answer /\
    body resp = BodyResult true (CustomDomain cfg ++ "/" ++ key) (media_type answer)
                  (Z.of_nat (List.length (Body answer))) /\
    forall g,
      r_method g <> "OPTIONS" ->
      r_path g = "/" ++ key ->
      rateLimitHandler cfg env g w'
      = (Ret (served (canonical (media_type answer)) mt (Body answer)), w').
Proof.
  intros Hm Hp Hrun Hok Hstat Hopen.
  unfold rateLimitHandler in Hrun. rewrite Hp, Hm in Hrun.
  cbn [String.eqb Ascii.eqb Bool.eqb] in Hrun.
  match type of Hrun with handleProxy _ _ _ ?hs _ = _ => set (cors := hs) in Hrun end.
  destruct (handleProxy_courses cfg env r cors w)
    as [H|[(evs & H)|[(msg & w1 & H & _)|[(w1 & H & _)|H]]]];
    try (rewrite H in Hrun; injection Hrun as <- _; discriminate Hok);
    try (rewrite H in Hrun; discriminate Hrun).
  destruct H as (url & k & answer & b & evs & dloc & t1 & loc & H). cbv zeta in H.
  destruct H as (Hf & _ & _ & _ & Hmk & Hloc & [(e & t2 & _ & _ & H)|(t2 & _ & Hw & H)]);
    rewrite H in Hrun; injection Hrun as <- <-; [discriminate Hok|].
  exists url, k, answer. do 2 eexists.
  split; [exact Hf|]. split; [reflexivity|].
  intros g Hg Hpath.
  rewrite (rateLimitHandler_key cfg env g _ _ (unchars b)
             (getExtFromContentType (media_type answer)) Hg Hpath), Hpath.
  apply (handleImage_stored cfg env _ _ (unchars b) (media_type answer) loc (Body answer) _
           Hloc (Hstat loc) (Hopen loc)).
  cbn [fs]. apply (lookup_write_file _ _ _ _ _ Hw).
Qed.

Lemma returned_url_is_served_witness :
  exists url k answer key mt,
    fetched Sample.env_retry Sample.req url k answer /\
    body (Sample.response_of (fst (rateLimitHandler Sample.cfg Sample.env_retry Sample.req
                                     Sample.world)))
    = BodyResult true (CustomDomain Sample.cfg ++ "/" ++ key) (media_type answer)
        (Z.of_nat (List.length (Body answer))) /\
    forall g,
      r_method g <> "OPTIONS" ->
      r_path g = "/" ++ key ->
      rateLimitHandler Sample.cfg Sample.env_retry g
        (snd (rateLimitHandler Sample.cfg Sample.env_retry Sample.req Sample.world))
      = (Ret (served (canonical (media_type answer)) mt (Body answer)),
         snd (rateLimitHandler Sample.cfg Sample.env_retry Sample.req Sample.world)).
Proof.
  apply (returned_url_is_served Sample.cfg Sample.env_retry Sample.req Sample.world).
  - reflexivity.
  - reflexivity.
  - vm_compute. reflexivity.
  - reflexivity.
  - intros loc. reflexivity.
  - intros loc. reflexivity.
Defined.

(** The headers of an answer of [handleProxy] are the CORS headers it was
    given, the content type apart. *)
Lemma handleProxy_headers (cfg : Config) (env : Env) (r : Request) (hs : Headers)
    (w w' : World) (resp : Response) :
  handleProxy cfg env r hs w = (Ret resp, w') ->
  headers resp = set_all hs []
  \/ headers resp = header_set "Content-Type" "application/json" (set_all hs []).
Proof.
  intros Hrun.
  destruct (handleProxy_cases cfg env r hs w)
    as [H|[(evs & H)|[(msg & w1 & H & _)|[(w1 & H & _)|H]]]];
    try (rewrite H in Hrun; injection Hrun as <- _; left; reflexivity);
    try (rewrite H in Hrun; discriminate Hrun).
  destruct H as (data & ct & b & evs & dloc & t1 & loc & t2 & H). cbv zeta in H.
  destruct H as (_ & _ & _ & _ & _ & H).
  rewrite H in Hrun. injection Hrun as <- _. right. reflexivity.
Qed.

(** X13. the preflight. An OPTIONS request for any path but [/] is answered
    with 204 and no body, under the CORS headers: the allowed origin (the
    origin of the request when it is listed, [*] otherwise), the allowed
    methods and headers, the max age, and the JSON content type, and no other
    header. It reaches neither handler: nothing is downloaded, read or
    written, even for [/proxy]. *)
Theorem options_is_answered_at_once (cfg : Config) (env : Env) (r : Request) (w : World) :
  r_method r = "OPTIONS" ->
  r_path r <> "/" ->
  exists resp,
    rateLimitHandler cfg env r w = (Ret resp, w) /\
    status resp = StatusNoContent /\
    body resp = BodyNone /\
    header_get "Access-Control-Allow-Origin" (headers resp)
    = (if existsb (String.eqb (r_origin r)) (AllowedOrigins cfg) then r_origin r else "*") /\
    header_get "Access-Control-Allow-Methods" (headers resp) = "GET, POST, OPTIONS" /\
    header_get "Access-Control-Allow-Headers" (headers resp)
    = "Content-Type, Authorization, X-API-Key" /\
    header_get "Access-Control-Max-Age" (headers resp) = "86400" /\
    header_get "Content-Type" (headers resp) = "application/json" /\
    map fst (headers resp)
    = ["Access-Control-Allow-Origin"; "Access-Control-Allow-Methods";
       "Access-Control-Allow-Headers"; "Access-Control-Max-Age"; "Content-Type"].
Proof.
  intros Hm Hp. unfold rateLimitHandler.
  apply String.eqb_neq in Hp. rewrite Hp, Hm. cbn [String.eqb Ascii.eqb Bool.eqb].
  eexists. split; [reflexivity|]. repeat split.
Qed.

Lemma options_is_answered_at_once_witness :
  exists resp,
    rateLimitHandler Sample.cfg Sample.env500
      {| r_method := "OPTIONS"; r_path := "/proxy"; r_origin := "https://a.example";
         r_apikey := ""; r_json := None |} Sample.world
    = (Ret resp, Sample.world) /\
    status resp = StatusNoContent /\
    body resp = BodyNone /\
    header_get "Access-Control-Allow-Origin" (headers resp)
    = (if existsb (String.eqb "https://a.example") (AllowedOrigins Sample.cfg)
       then "https://a.example" else "*") /\
    header_get "Access-Control-Allow-Methods" (headers resp) = "GET, POST, OPTIONS" /\
    header_get "Access-Control-Allow-Headers" (headers resp)
    = "Content-Type, Authorization, X-API-Key" /\
    header_get "Access-Control-Max-Age" (headers resp) = "86400" /\
    header_get "Content-Type" (headers resp) = "application/json" /\
    map fst (headers resp)
    = ["Access-Control-Allow-Origin"; "Access-Control-Allow-Methods";
       "Access-Control-Allow-Headers"; "Access-Control-Max-Age"; "Content-Type"].
Proof.
  apply (options_is_answered_at_once Sample.cfg Sample.env500
           {| r_method := "OPTIONS"; r_path := "/proxy"; r_origin := "https://a.example";
              r_apikey := ""; r_json := None |} Sample.world).
  - reflexivity.
  - discriminate.
Defined.

(** X14. the allowed origin. Every answer [rateLimitHandler] gives to a
    preflight or to a request for [/proxy] carries
    [Access-Control-Allow-Origin]: the origin of the request when it is in
    the configured list, and [*] when it is not. An origin that is not
    listed is therefore not refused, it is answered [*]. *)
Theorem cors_origin_header (cfg : Config) (env : Env) (r : Request) (w w' : World)
    (resp : Response) :
  r_path r <> "/" ->
  r_method r = "OPTIONS" \/ r_path r = "/proxy" ->
  rateLimitHandler cfg env r w = (Ret resp, w') ->
  header_get "Access-Control-Allow-Origin" (headers resp)
  = (if existsb (String.eqb (r_origin r)) (AllowedOrigins cfg) then r_origin r else "*").
Proof.
  intros Hp Hcase Hrun. unfold rateLimitHandler in Hrun.
  apply String.eqb_neq in Hp. rewrite Hp in Hrun.
  destruct (r_method r =? "OPTIONS")%string eqn:Hm.
  - injection Hrun as <- _. reflexivity.
  - destruct Hcase as [Hc|Hc]; [rewrite Hc in Hm; discriminate|].
    rewrite Hc in Hrun. cbn [String.eqb Ascii.eqb Bool.eqb] in Hrun.
    destruct (handleProxy_headers cfg env r _ w w' resp Hrun) as [-> | ->]; reflexivity.
Qed.

Lemma cors_origin_header_witness :
  header_get "Access-Control-Allow-Origin"
    (headers (Sample.response_of (fst (rateLimitHandler Sample.cfg Sample.env500
       {| r_method := "POST"; r_path := "/proxy"; r_origin := "https://evil.example";
          r_apikey := ""; r_json := None |} Sample.world))))
  = (if existsb (String.eqb "https://evil.example") (AllowedOrigins Sample.cfg)
     then "https://evil.example" else "*").
Proof.
  apply (cors_origin_header Sample.cfg Sample.env500
           {| r_method := "POST"; r_path := "/proxy"; r_origin := "https://evil.example";
              r_apikey := ""; r_json := None |} Sample.world Sample.world).
  - discriminate.
  - right. reflexivity.
  - vm_compute. reflexivity.
Defined.

(** X15. everything else is redirected. A request for [/], and a request
    other than OPTIONS whose path is neither [/proxy] nor below
    [/PathPrefix], is answered with a 302 to [https://api.qhaigc.net]; the
    world is as before. *)
Theorem unrouted_paths_redirect (cfg : Config) (env : Env) (r : Request) (w : World) :
  r_path r = "/"
  \/ (r_method r <> "OPTIONS" /\ r_path r <> "/proxy"
      /\ HasPrefix (r_path r) ("/" ++ PathPrefix cfg) = false) ->
  rateLimitHandler cfg env r w = (Ret (http_Redirect "https://api.qhaigc.net" StatusFound), w).
Proof.
  intros [Hp|(Hm & Hp & Hpre)]; unfold rateLimitHandler.
  - rewrite Hp. reflexivity.
  - destruct (r_path r =? "/")%string; [reflexivity|].
    apply String.eqb_neq in Hm, Hp. rewrite Hm, Hp, Hpre. reflexivity.
Qed.

Lemma unrouted_paths_redirect_witness :
  rateLimitHandler Sample.cfg Sample.env500 (Sample.get "/etc/passwd") Sample.world
  = (Ret (http_Redirect "https://api.qhaigc.net" StatusFound), Sample.world).
Proof.
  apply (unrouted_paths_redirect Sample.cfg Sample.env500 (Sample.get "/etc/passwd")
           Sample.world).
  right. repeat split; try discriminate; reflexivity.
Defined.

(** ** More on the fetcher *)

(** X16. what a failed fetch returns. When [downloadImage] returns an error
    it returns no bytes and no content type; an error for a status carries
    that status, which is 400 or more, and at most the first 100 bytes of the
    body. *)
Theorem downloadImage_error (env : Env) (url : string) (w w' : World)
    (data : list Byte.byte) (ct : string) (e : Error) :
  downloadImage env url w = (Ret (data, ct, Some e), w') ->
  data = [] /\ ct = "" /\
  match e with
  | TransportError _ => True
  | ServerError st b | ClientError st b =>
      400 <= st /\ (List.length b <= 100)%nat /\
      exists resp, net env (downloads (trace w)) url = Responds resp /\
                   StatusCode resp = st /\ b = firstn 100 (Body resp)
  end.
Proof.
  unfold downloadImage.
  destruct (net env (downloads (trace w)) url) as [m|m|resp].
  - intros H. injection H as <- <- <- _. auto.
  - intros H. injection H as <- <- <- _. auto.
  - pose proof (firstn_le_length 100 (Body resp)) as Hlen.
    remember (firstn 100 (Body resp)) as b eqn:Hb.
    destruct (StatusCode resp >=? 500) eqn:H5; cbn [orb].
    { intros H. injection H as <- <- <- _. apply Z.geb_le in H5.
      split; [reflexivity|]. split; [reflexivity|]. split; [lia|]. split; [exact Hlen|].
      exists resp. auto. }
    destruct (StatusCode resp =? 429) eqn:H429.
    { intros H. injection H as <- <- <- _. apply Z.eqb_eq in H429.
      split; [reflexivity|]. split; [reflexivity|]. split; [lia|]. split; [exact Hlen|].
      exists resp. auto. }
    destruct (StatusCode resp >=? 400) eqn:H4.
    { intros H. injection H as <- <- <- _. apply Z.geb_le in H4.
      split; [reflexivity|]. split; [reflexivity|]. split; [lia|]. split; [exact Hlen|].
      exists resp. auto. }
    destruct (BodyErr resp); intros H; [|discriminate].
    injection H as <- <- <- _. auto.
Qed.

Lemma downloadImage_error_witness :
  (@nil Byte.byte) = [] /\ "" = "" /\
  400 <= 500 /\ (List.length (firstn 100 (Body (Sample.answer 500 "text/plain"))) <= 100)%nat /\
  exists resp, net Sample.env500 (downloads (trace Sample.world)) "http://example.com/a.png"
               = Responds resp /\
               StatusCode resp = 500 /\
               firstn 100 (Body (Sample.answer 500 "text/plain")) = firstn 100 (Body resp).
Proof.
  apply (downloadImage_error Sample.env500 "http://example.com/a.png" Sample.world
           (logged (EvDownload "http://example.com/a.png") Sample.world) [] ""
           (ServerError 500 (firstn 100 (Body (Sample.answer 500 "text/plain"))))).
  reflexivity.
Defined.

Lemma before_semicolon_app (h p : list ascii) :
  forallb no_semicolon h = true -> before_semicolon (h ++ ";"%char :: p) = h.
Proof.
  induction h as [|c h IH]; [reflexivity|]. cbn [forallb app before_semicolon]. intros H.
  apply andb_true_iff in H. destruct H as [Hc Hh].
  unfold no_semicolon in Hc. apply negb_true_iff in Hc. rewrite Hc, (IH Hh). reflexivity.
Qed.

(** X17. the parameters of the content type are dropped. For a successful
    fetch whose [Content-Type] header is a media type followed by a semicolon
    and parameters, the content type returned is the media type with the
    white space around it trimmed; the parameters have no influence. *)
Theorem downloadImage_drops_parameters (env : Env) (url : string) (w : World)
    (resp : HttpResponse) (mediaType params : string) :
  net env (downloads (trace w)) url = Responds resp ->
  StatusCode resp < 400 ->
  BodyErr resp = None ->
  ContentTypeHeader resp = mediaType ++ ";" ++ params ->
  forallb no_semicolon (chars mediaType) = true ->
  downloadImage env url w
  = (Ret (Body resp, TrimSpace mediaType, None), logged (EvDownload url) w).
Proof.
  intros Hnet Hst Hb Hct Hm. unfold downloadImage. rewrite Hnet.
  replace (StatusCode resp >=? 500) with false by (symmetry; rewrite Z.geb_leb; apply Z.leb_gt; lia).
  replace (StatusCode resp =? 429) with false by (symmetry; apply Z.eqb_neq; lia).
  replace (StatusCode resp >=? 400) with false by (symmetry; rewrite Z.geb_leb; apply Z.leb_gt; lia).
  cbn [orb]. rewrite Hb, Hct. cbv zeta.
  rewrite !chars_app. cbn [chars list_ascii_of_string app].
  rewrite before_semicolon_app by exact Hm. rewrite unchars_chars. reflexivity.
Qed.

Lemma downloadImage_drops_parameters_witness :
  downloadImage Sample.env_retry "http://example.com/a.png"
    (logged (EvDownload "http://example.com/a.png") Sample.world)
  = (Ret (Body (Sample.answer 200 "image/jpeg; charset=binary"), TrimSpace "image/jpeg", None),
     logged (EvDownload "http://example.com/a.png")
       (logged (EvDownload "http://example.com/a.png") Sample.world)).
Proof.
  apply (downloadImage_drops_parameters Sample.env_retry "http://example.com/a.png"
           (logged (EvDownload "http://example.com/a.png") Sample.world)
           (Sample.answer 200 "image/jpeg; charset=binary") "image/jpeg" " charset=binary").
  - reflexivity.
  - reflexivity.
  - reflexivity.
  - reflexivity.
  - reflexivity.
Defined.

Ltac finish_exact :=
  repeat split; intros; try discriminate; try congruence; try tauto;
  try (match goal with H : _ \/ _ |- _ => destruct H; discriminate end).

(** X18. the extension of a content type. [getExtFromContentType] gives
    [jpg] exactly for [image/jpeg] and [image/jpg], [webp] exactly for
    [image/webp], [gif] exactly for [image/gif], and [png] for everything
    else; the comparison is exact, on case and on white space. It never gives
    the empty string, so the fallback [if ext == ""] of [handleProxy] is never
    taken. *)
Theorem getExtFromContentType_exact (ct : string) :
  (getExtFromContentType ct = "jpg" <-> ct = "image/jpeg" \/ ct = "image/jpg") /\
  (getExtFromContentType ct = "webp" <-> ct = "image/webp") /\
  (getExtFromContentType ct = "gif" <-> ct = "image/gif") /\
  (getExtFromContentType ct = "png"
   <-> ct <> "image/jpeg" /\ ct <> "image/jpg" /\ ct <> "image/webp" /\ ct <> "image/gif") /\
  getExtFromContentType ct <> "".
Proof.
  unfold getExtFromContentType.
  destruct (String.eqb_spec ct "image/jpeg") as [->|H1]; [cbn; finish_exact|].
  destruct (String.eqb_spec ct "image/jpg") as [->|H2]; [cbn; finish_exact|].
  cbn [orb].
  destruct (String.eqb_spec ct "image/png") as [->|H3]; [finish_exact|].
  destruct (String.eqb_spec ct "image/webp") as [->|H4]; [finish_exact|].
  destruct (String.eqb_spec ct "image/gif") as [->|H5]; finish_exact.
Qed.

(** ** The rate limit *)

Lemma Split_pieces (s : string) (sep : ascii) : Split s sep = map unchars (pieces sep (chars s)).
Proof. unfold Split, pieces. destruct (split_at sep (chars s)). reflexivity. Qed.

Lemma pieces_cons (sep c : ascii) (l : list ascii) :
  pieces sep (c :: l) =
  if Ascii.eqb c sep then [] :: pieces sep l
  else (c :: fst (split_at sep l)) :: snd (split_at sep l).
Proof.
  unfold pieces. cbn [split_at]. destruct (split_at sep l) as [s r].
  destruct (Ascii.eqb c sep); reflexivity.
Qed.

Lemma pieces_free (sep : ascii) (x : list ascii) : free_of sep x = true -> pieces sep x = [x].
Proof.
  induction x as [|c x IH]; [reflexivity|]. unfold free_of. cbn [forallb]. intros H.
  apply andb_true_iff in H. destruct H as [Hc Hx].
  rewrite pieces_cons. apply negb_true_iff in Hc. rewrite Hc.
  specialize (IH Hx). unfold pieces in IH. injection IH as -> ->. reflexivity.
Qed.

Lemma pieces_app (sep : ascii) (a b : list ascii) :
  pieces sep (a ++ sep :: b) = (pieces sep a ++ pieces sep b)%list.
Proof.
  induction a as [|c a IH].
  - cbn [app]. rewrite pieces_cons, Ascii.eqb_refl. reflexivity.
  - cbn [app]. rewrite !pieces_cons. destruct (Ascii.eqb c sep).
    + rewrite IH. reflexivity.
    + unfold pieces in IH. injection IH as -> ->. reflexivity.
Qed.

Lemma pieces_all_free (sep : ascii) (l : list ascii) :
  Forall (fun seg => free_of sep seg = true) (pieces sep l).
Proof.
  induction l as [|c l IH]; [repeat constructor|].
  rewrite pieces_cons. destruct (Ascii.eqb c sep) eqn:E.
  - constructor; [reflexivity|exact IH].
  - unfold pieces in IH. inversion IH as [|x xs Hx Hxs]. subst.
    constructor; [|exact Hxs]. unfold free_of in *. cbn [forallb]. rewrite E, Hx. reflexivity.
Qed.

Lemma pieces_length (sep : ascii) (l : list ascii) :
  List.length (pieces sep l) = S (count_of sep l).
Proof.
  induction l as [|c l IH]; [reflexivity|].
  rewrite pieces_cons. unfold count_of in *. cbn [filter].
  destruct (Ascii.eqb c sep); cbn [List.length]; [rewrite IH; reflexivity|].
  unfold pieces in IH. cbn [List.length] in IH. exact IH.
Qed.

Lemma uint_string_starts_with_digit (d : Decimal.uint) :
  d <> Decimal.Nil ->
  exists c rest, NilZero.string_of_uint d = String c rest /\
                 Ascii.eqb c "+" = false /\ Ascii.eqb c "-" = false.
Proof. destruct d; intros H; try congruence; do 2 eexists; repeat split. Qed.

(** A number in the range of [int64] that is not negative is parsed back
    from its decimal text. *)
Lemma ParseInt_itoa (n : Z) : 0 <= n <= maxInt64 -> ParseInt (itoa n) = Some n.
Proof.
  intros Hn. unfold itoa. destruct n as [|p|p]; [reflexivity| |lia].
  cbn [Z.to_int NilZero.string_of_int].
  pose proof (Unsigned.to_uint_nonnil p) as Hnil.
  destruct (uint_string_starts_with_digit _ Hnil) as (c & rest & E & Hplus & Hminus).
  unfold ParseInt. rewrite E, Hplus, Hminus. rewrite <- E.
  rewrite NilZero.usu by exact Hnil.
  unfold Z.of_uint. rewrite Unsigned.of_to. cbn [Z.of_N].
  unfold in_int64.
  replace (minInt64 <=? Z.pos p) with true by (symmetry; apply Z.leb_le; unfold minInt64; lia).
  replace (Z.pos p <=? maxInt64) with true by (symmetry; apply Z.leb_le; lia).
  reflexivity.
Qed.

(** A text without a minus sign is not parsed to a negative number. *)
Lemma ParseInt_nonneg (s : string) (l : Z) :
  free_of "-" (chars s) = true -> ParseInt s = Some l -> 0 <= l <= maxInt64.
Proof.
  intros Hfree H. unfold ParseInt in H.
  assert (Hrange : forall z, in_int64 z = Some l -> 0 <= z -> 0 <= l <= maxInt64).
  { intros z Hz Hpos. unfold in_int64 in Hz.
    destruct ((minInt64 <=? z) && (z <=? maxInt64)) eqn:E; [|discriminate].
    injection Hz as <-. apply andb_true_iff in E. destruct E as [_ E].
    apply Z.leb_le in E. lia. }
  assert (Hpos : forall d, 0 <= Z.of_uint d).
  { intros d. unfold Z.of_uint. apply N2Z.is_nonneg. }
  destruct s as [|c rest]; [discriminate|].
  destruct (Ascii.eqb c "+").
  { destruct (NilZero.uint_of_string rest); [|discriminate]. eapply Hrange; [exact H|apply Hpos]. }
  destruct (Ascii.eqb c "-") eqn:Hc.
  { unfold free_of in Hfree. cbn in Hfree. rewrite Hc in Hfree. discriminate. }
  destruct (NilZero.uint_of_string (String c rest)); [|discriminate].
  eapply Hrange; [exact H|apply Hpos].
Qed.

Lemma itoa_free_of_dash (n : Z) : 0 <= n -> free_of "-" (chars (itoa n)) = true.
Proof.
  intros Hn. unfold itoa. destruct n as [|p|p]; [reflexivity| |lia].
  cbn [Z.to_int NilZero.string_of_int].
  pose proof (Unsigned.to_uint_nonnil p) as Hnil.
  replace (NilZero.string_of_uint (Pos.to_uint p))
    with (NilEmpty.string_of_uint (Pos.to_uint p))
    by (destruct (Pos.to_uint p); [congruence|reflexivity..]).
  apply uint_no_dash.
Qed.

(** X19. a well-formed [RATE_LIMIT] is read back. For a limit [n] that is not
    negative and fits [int64], and a unit that is, in any mix of cases,
    second(s), minute(s) or hour(s), the setting [n-unit] gives the rate of
    [n] requests per that unit. *)
Theorem getRateLimit_reads_setting (environ : string -> string) (n : Z) (unit : string) (p : Z) :
  environ "RATE_LIMIT" = itoa n ++ "-" ++ unit ->
  0 <= n <= maxInt64 ->
  free_of "-" (chars unit) = true ->
  unit_period (ToUpper unit) = Some p ->
  getRateLimit environ = {| Period := p; Limit := n |}.
Proof.
  intros Henv Hn Hunit Hp. unfold getRateLimit, getEnv. rewrite Henv.
  assert (Hne : ((itoa n ++ "-" ++ unit) =? "")%string = false).
  { apply String.eqb_neq. intros E. apply (f_equal chars) in E. rewrite !chars_app in E.
    destruct (chars (itoa n)); discriminate E. }
  rewrite Hne. cbn [negb]. cbv zeta.
  rewrite Split_pieces, !chars_app. cbn [chars list_ascii_of_string app].
  change (list_ascii_of_string unit) with (chars unit).
  rewrite pieces_app, (pieces_free _ _ (itoa_free_of_dash n (proj1 Hn))), (pieces_free _ _ Hunit).
  cbn [app map]. rewrite !unchars_chars, (ParseInt_itoa n Hn).
  unfold unit_period in Hp.
  destruct (_ || _); [injection Hp as <-; reflexivity|].
  destruct (_ || _); [injection Hp as <-; reflexivity|].
  destruct (_ || _); [injection Hp as <-; reflexivity|discriminate].
Qed.

Lemma getRateLimit_reads_setting_witness :
  getRateLimit (fun k => if (k =? "RATE_LIMIT")%string then "60-Minutes" else "")
  = {| Period := Minute; Limit := 60 |}.
Proof.
  apply (getRateLimit_reads_setting
           (fun k => if (k =? "RATE_LIMIT")%string then "60-Minutes" else "") 60 "Minutes" Minute).
  - reflexivity.
  - unfold maxInt64. lia.
  - reflexivity.
  - reflexivity.
Defined.

(** X20. the rate is always usable. Whatever the environment, the period of
    the rate is one second, one minute or one hour, and the limit is a number
    from 0 to the largest [int64]: a negative limit cannot be configured,
    since its minus sign is taken for the separator. *)
Theorem getRateLimit_range (environ : string -> string) :
  In (Period (getRateLimit environ)) [Second; Minute; Hour] /\
  0 <= Limit (getRateLimit environ) <= maxInt64.
Proof.
  assert (Hdef : In (Period defaultRate) [Second; Minute; Hour] /\
                 0 <= Limit defaultRate <= maxInt64).
  { cbn. unfold maxInt64. split; [auto|lia]. }
  unfold getRateLimit. cbv zeta.
  set (value := getEnv environ "RATE_LIMIT" "100-Minute").
  pose proof (pieces_all_free "-" (chars value)) as Hfree.
  rewrite Split_pieces.
  destruct (pieces "-" (chars value)) as [|s0 [|s1 [|s2 rest]]]; cbn [map]; try exact Hdef.
  inversion Hfree as [|x xs H0 _]. subst.
  destruct (ParseInt (unchars s0)) as [l|] eqn:Hl; [|exact Hdef].
  assert (Hrange : 0 <= l <= maxInt64).
  { apply (ParseInt_nonneg (unchars s0) l); [rewrite chars_unchars; exact H0|exact Hl]. }
  destruct (_ || _); [cbn; auto|].
  destruct (_ || _); [cbn; auto|].
  destruct (_ || _); [cbn; auto|exact Hdef].
Qed.

(** X21. a malformed [RATE_LIMIT] falls back. A setting that does not hold
    exactly one minus sign (none, or two and more, as in [-5-Minute]) gives
    the default of 100 requests per minute. *)
Theorem getRateLimit_malformed (environ : string -> string) :
  environ "RATE_LIMIT" <> "" ->
  count_of "-" (chars (environ "RATE_LIMIT")) <> 1%nat ->
  getRateLimit environ = defaultRate.
Proof.
  intros Hne Hcount. unfold getRateLimit, getEnv. cbv zeta.
  apply String.eqb_neq in Hne. rewrite Hne. cbn [negb].
  rewrite Split_pieces.
  pose proof (pieces_length "-" (chars (environ "RATE_LIMIT"))) as Hlen.
  destruct (pieces "-" (chars (environ "RATE_LIMIT"))) as [|s0 [|s1 [|s2 rest]]];
    cbn [map]; try reflexivity.
  cbn in Hlen. injection Hlen as Hlen. congruence.
Qed.

Lemma getRateLimit_malformed_witness :
  getRateLimit (fun k => if (k =? "RATE_LIMIT")%string then "-5-Minute" else "") = defaultRate.
Proof.
  apply (getRateLimit_malformed
           (fun k => if (k =? "RATE_LIMIT")%string then "-5-Minute" else "")).
  - discriminate.
  - vm_compute. discriminate.
Defined.

(** ** Start-up *)

Lemma getEnv_nonempty (environ : string -> string) (key fallback : string) :
  fallback <> "" -> getEnv environ key fallback <> "".
Proof.
  intros Hf. unfold getEnv.
  destruct (String.eqb_spec (environ key) "") as [E|E]; cbn [negb]; assumption.
Qed.

Lemma TrimSuffix_slash (p : string) : TrimSuffix (p ++ "/") "/" = p.
Proof.
  unfold TrimSuffix, HasSuffix. rewrite chars_app. cbn [chars list_ascii_of_string].
  rewrite rev_app_distr. cbn [rev app has_prefix]. rewrite Ascii.eqb_refl. cbn [andb].
  rewrite length_app. cbn [List.length]. rewrite Nat.add_sub.
  rewrite firstn_app, firstn_all, Nat.sub_diag. cbn [firstn]. rewrite app_nil_r.
  apply unchars_chars.
Qed.

(** X22. the configuration after start-up. When [init] does not end the
    process, the storage path, the custom domain and the list of allowed
    origins of the configuration are not empty, the path prefix ends in a
    slash, the storage directory exists, and no file of the tree has been
    changed. *)
Theorem init_establishes (env : Env) (environ : string -> string) (expiry : Z)
    (w w' : World) (cfg : Config) :
  init env environ expiry w = (Ret (Some cfg), w') ->
  StoragePath cfg <> "" /\
  CustomDomain cfg <> "" /\
  AllowedOrigins cfg <> [] /\
  HasSuffix (PathPrefix cfg) "/" = true /\
  (exists root,
      resolve (cwd env) (Clean (StoragePath cfg)) = Some root /\
      is_folder (lookup (fs w') root) = true) /\
  (forall q d m, lookup (fs w') q = Found (File d m) <-> lookup (fs w) q = Found (File d m)).
Proof.
  unfold init. cbv zeta. unfold bind, os_MkdirAll. cbn [StoragePath].
  destruct (resolve (cwd env) (Clean _)) as [root|] eqn:Hroot; [|discriminate].
  destruct (fault env OpMkdirAll root); [discriminate|].
  destruct (mkdir_all (fs w) root) as [e|t] eqn:Hmk; [discriminate|].
  unfold ret. intros H. injection H as <- <-. cbn [StoragePath CustomDomain AllowedOrigins PathPrefix].
  split; [apply getEnv_nonempty; discriminate|].
  split; [apply getEnv_nonempty; discriminate|].
  split.
  { rewrite Split_pieces. unfold pieces. discriminate. }
  split.
  { unfold HasSuffix. rewrite chars_app. cbn [chars list_ascii_of_string].
    rewrite rev_app_distr. cbn [rev app has_prefix]. rewrite Ascii.eqb_refl. reflexivity. }
  split.
  { exists root. split; [exact Hroot|]. cbn [set_fs fs]. apply (lookup_mkdir_all root _ _ Hmk). }
  intros q d m. cbn [set_fs fs]. apply (lookup_mkdir_all_file root _ _ q d m Hmk).
Qed.

Lemma init_establishes_witness :
  StoragePath Sample.cfg <> "" /\
  CustomDomain Sample.cfg <> "" /\
  AllowedOrigins Sample.cfg <> [] /\
  HasSuffix (PathPrefix Sample.cfg) "/" = true /\
  (exists root,
      resolve (cwd Sample.env500) (Clean (StoragePath Sample.cfg)) = Some root /\
      is_folder (lookup (fs Sample.world) root) = true) /\
  (forall q d m,
      lookup (fs Sample.world) q = Found (File d m)
      <-> lookup (fs Sample.world) q = Found (File d m)).
Proof.
  apply (init_establishes Sample.env500 (fun _ => "") (24 * 3600 * Second)
           Sample.world Sample.world Sample.cfg).
  vm_compute. reflexivity.
Defined.

(** X23. the path prefix is normalised. A [PATH_PREFIX] given with or without
    its final slash gives the same prefix, the one with the slash. *)
Theorem init_path_prefix (env : Env) (environ : string -> string) (expiry : Z)
    (w w' : World) (cfg : Config) (p : string) :
  init env environ expiry w = (Ret (Some cfg), w') ->
  p <> "" ->
  HasSuffix p "/" = false ->
  environ "PATH_PREFIX" = p \/ environ "PATH_PREFIX" = p ++ "/" ->
  PathPrefix cfg = p ++ "/".
Proof.
  unfold init. cbv zeta. unfold bind, os_MkdirAll. cbn [StoragePath].
  destruct (resolve (cwd env) (Clean _)) as [root|]; [|discriminate].
  destruct (fault env OpMkdirAll root); [discriminate|].
  destruct (mkdir_all (fs w) root) as [e|t]; [discriminate|].
  unfold ret. intros H Hp Hs Henv. injection H as <- _. cbn [PathPrefix].
  unfold getEnv. destruct Henv as [-> | ->].
  - apply String.eqb_neq in Hp. rewrite Hp. cbn [negb].
    unfold TrimSuffix. rewrite Hs. reflexivity.
  - assert (Hne : (p ++ "/" =? "")%string = false).
    { apply String.eqb_neq. intros E. destruct p; discriminate E. }
    rewrite Hne. cbn [negb]. rewrite TrimSuffix_slash. reflexivity.
Qed.

Lemma init_path_prefix_witness :
  PathPrefix
    {| CustomDomain := "https://images.qhaigc.net"; PathPrefix := "cache/";
       AllowedOrigins := ["*"]; APIKey := ""; StoragePath := "./storage";
       ListenAddr := ":8080"; FileExpiryHours := 0 |}
  = "cache" ++ "/".
Proof.
  apply (init_path_prefix Sample.env500
           (fun k => if (k =? "PATH_PREFIX")%string then "cache/" else "") 0
           Sample.world Sample.world _ "cache").
  - vm_compute. reflexivity.
  - discriminate.
  - reflexivity.
  - right. reflexivity.
Defined.

(** ** More on the sweeper *)

(** The walk keeps every directory. *)
Lemma walk_keeps_folders (cfg : Config) (env : Env) (now : Z) (rel : list string) :
  forall (n : node) (path : list string),
    wf n = true ->
    is_folder (lookup n rel) = true ->
    exists n', walk cfg env now path n = Some n' /\ is_folder (lookup n' rel) = true.
Proof.
  induction rel as [|s rel IH]; intros n path Hwf Hdir.
  - cbn in Hdir. destruct n as [d m|cs]; [discriminate|].
    cbn [walk info_of]. rewrite walkFn_dir.
    destruct (fault env OpReadDir path); eexists; split; reflexivity.
  - cbn [lookup] in Hdir. destruct n as [d m|cs]; [discriminate|].
    destruct (child s cs) as [c|] eqn:Hc; [|discriminate].
    destruct (wf_child cs s c Hwf Hc) as [Hd Hwfc].
    cbn [walk info_of]. rewrite walkFn_dir.
    destruct (fault env OpReadDir path).
    + eexists. split; [reflexivity|]. cbn [lookup]. rewrite Hc. exact Hdir.
    + eexists. split; [reflexivity|]. cbn [lookup].
      rewrite (child_walk_children cfg env now _ path s cs c Hd Hc).
      destruct (fault env OpLstat (path ++ [s])); [exact Hdir|].
      destruct (IH c (path ++ [s])%list Hwfc Hdir) as (c' & -> & Hc'). exact Hc'.
Qed.

(** Rewriting the node at [root] by a function that keeps directories keeps
    the directories of the whole tree. *)
Lemma update_opt_keeps_folders (f : node -> option node) (root : list string) :
  (forall n rel, wf n = true -> is_folder (lookup n rel) = true ->
                 exists n', f n = Some n' /\ is_folder (lookup n' rel) = true) ->
  forall (t : node) (loc : list string),
    wf t = true ->
    is_folder (lookup t loc) = true ->
    exists t', update_opt t root f = Some t' /\ is_folder (lookup t' loc) = true.
Proof.
  intros Hf. induction root as [|s root IH]; intros t loc Hwf Hdir.
  - cbn [update_opt]. apply Hf; assumption.
  - cbn [update_opt]. destruct t as [d m|cs]; [eexists; split; [reflexivity|exact Hdir]|].
    destruct (child s cs) as [c|] eqn:Hc; [|eexists; split; [reflexivity|exact Hdir]].
    destruct (wf_child cs s c Hwf Hc) as [Hd Hwfc].
    destruct loc as [|s2 loc].
    { destruct (update_opt c root f); eexists; split; reflexivity. }
    cbn [lookup] in Hdir.
    destruct (String.eqb_spec s s2) as [<-|Hne].
    + rewrite Hc in Hdir.
      destruct (IH c loc Hwfc Hdir) as (c' & -> & Hc').
      eexists. split; [reflexivity|]. cbn [lookup]. rewrite child_set_child_eq. exact Hc'.
    + destruct (update_opt c root f); eexists; (split; [reflexivity|]); cbn [lookup].
      * rewrite child_set_child_ne by exact Hne. exact Hdir.
      * rewrite child_remove_child_ne by exact Hne. exact Hdir.
Qed.

(** X24. the sweep removes files only. Every directory of a well-formed tree
    is still there after a sweep, however old it is and even when the sweep
    has emptied it: directories of the storage are never cleaned up. *)
Theorem sweep_keeps_directories (cfg : Config) (env : Env) (w : World) (loc : list string) :
  wf_root (fs w) = true ->
  is_folder (lookup (fs w) loc) = true ->
  is_folder (lookup (fs (snd (cleanupOldFiles cfg env w))) loc) = true.
Proof.
  intros Hroot Hdir. pose proof (wf_root_wf _ Hroot) as Hwf.
  unfold cleanupOldFiles, bind, UnixNano. cbn [snd set_fs fs ticks].
  unfold filepath_Walk.
  destruct (resolve (cwd env) (Clean (StoragePath cfg))) as [root|]; [|exact Hdir].
  destruct (fault env OpLstat root); [rewrite walkFn_error; exact Hdir|].
  destruct (lookup (fs w) root); [|rewrite walkFn_error; exact Hdir].
  unfold update_at.
  destruct (update_opt_keeps_folders (walk cfg env (clock env (ticks w)) root) root
              (fun n rel => walk_keeps_folders cfg env _ rel n root) (fs w) loc Hwf Hdir)
    as (t' & -> & Ht').
  exact Ht'.
Qed.

Lemma sweep_keeps_directories_witness :
  is_folder (lookup (fs (snd (cleanupOldFiles Sample.cfg Sample.env500 Sample.world)))
               ["app"; "storage"; "img"]) = true.
Proof.
  apply (sweep_keeps_directories Sample.cfg Sample.env500 Sample.world ["app"; "storage"; "img"]).
  - reflexivity.
  - reflexivity.
Defined.

(** X25. sweeping and serving. After a sweep, a cached file that the sweep
    removed is answered with 404, and a cached file it did not remove is
    served exactly as before the sweep. *)
Theorem sweep_then_serve (cfg : Config) (env : Env) (w : World) (urlPath : string)
    (loc root : list string) (d : list Byte.byte) (m : Z) :
  wf_root (fs w) = true ->
  resolve (cwd env) (Clean (StoragePath cfg)) = Some root ->
  resolve (cwd env) (Join (StoragePath cfg) (TrimPrefix urlPath "/")) = Some loc ->
  lookup (fs w) loc = Found (File d m) ->
  fault env OpStat loc = None ->
  let w' := snd (cleanupOldFiles cfg env w) in
  if swept cfg env (clock env (ticks w)) root loc m
  then handleImage cfg env urlPath w' = (Ret (http_Error NotFound StatusNotFound), w')
  else fst (handleImage cfg env urlPath w') = fst (handleImage cfg env urlPath w).
Proof.
  intros Hwf Hroot Hloc Hfile Hstat w'.
  pose proof (lookup_filepath_Walk cfg env (clock env (ticks w)) (fs w) root loc d m
                Hwf Hroot Hfile) as Hafter.
  assert (Hfs : fs w' = filepath_Walk cfg env (clock env (ticks w)) (fs w)) by reflexivity.
  rewrite <- Hfs in Hafter.
  destruct (swept cfg env (clock env (ticks w)) root loc m).
  - unfold handleImage, bind, os_Stat. rewrite Hloc, Hstat, Hafter. reflexivity.
  - apply (handleImage_same_node cfg env urlPath w' w loc Hloc). rewrite Hafter, Hfile.
    reflexivity.
Qed.

Lemma sweep_then_serve_witness :
  if swept Sample.cfg Sample.env500 (clock Sample.env500 (ticks Sample.world))
       ["app"; "storage"] ["app"; "storage"; "img"; "1600000000000000000-aaaaaa.png"]
       1600000000000000000
  then handleImage Sample.cfg Sample.env500 "/img/1600000000000000000-aaaaaa.png"
         (snd (cleanupOldFiles Sample.cfg Sample.env500 Sample.world))
       = (Ret (http_Error NotFound StatusNotFound),
          snd (cleanupOldFiles Sample.cfg Sample.env500 Sample.world))
  else fst (handleImage Sample.cfg Sample.env500 "/img/1600000000000000000-aaaaaa.png"
              (snd (cleanupOldFiles Sample.cfg Sample.env500 Sample.world)))
       = fst (handleImage Sample.cfg Sample.env500 "/img/1600000000000000000-aaaaaa.png"
                Sample.world).
Proof.
  apply (sweep_then_serve Sample.cfg Sample.env500 Sample.world
           "/img/1600000000000000000-aaaaaa.png"
           ["app"; "storage"; "img"; "1600000000000000000-aaaaaa.png"] ["app"; "storage"]
           [Byte.x01; Byte.x02] 1600000000000000000).
  - reflexivity.
  - vm_compute. reflexivity.
  - vm_compute. reflexivity.
  - reflexivity.
  - reflexivity.
Defined.

(** ** Well-formed trees *)

Lemma child_none_names (s : string) (cs : list (string * node)) :
  child s cs = None -> existsb (String.eqb s) (map fst cs) = false.
Proof.
  induction cs as [|[s0 c0] cs IH]; [reflexivity|].
  cbn. rewrite (String.eqb_sym s s0). destruct (s0 =? s)%string; [discriminate|]. exact IH.
Qed.

Lemma names_distinct_cons (s : string) (c : node) (cs : list (string * node)) :
  child s cs = None -> names_distinct (map fst cs) = true ->
  names_distinct (map fst ((s, c) :: cs)) = true.
Proof. intros Hc Hd. cbn. rewrite (child_none_names s cs Hc), Hd. reflexivity. Qed.

Lemma wf_folder (cs : list (string * node)) :
  wf (Folder cs) = true <->
  names_distinct (map fst cs) = true /\ forallb (fun sc => wf (snd sc)) cs = true.
Proof. cbn [wf]. apply andb_true_iff. Qed.

Lemma set_child_distinct (s : string) (c : node) (cs : list (string * node)) :
  names_distinct (map fst cs) = true -> names_distinct (map fst (set_child s c cs)) = true.
Proof.
  induction cs as [|[s0 c0] cs IH]; intros Hd; [reflexivity|].
  destruct (names_distinct_head s0 c0 cs Hd) as [Hnone Hd'].
  cbn [set_child]. destruct (String.eqb_spec s0 s) as [->|Hne].
  - apply names_distinct_cons; assumption.
  - apply names_distinct_cons; [|apply IH, Hd'].
    rewrite child_set_child_ne by congruence. exact Hnone.
Qed.

Lemma set_child_all_wf (s : string) (c : node) (cs : list (string * node)) :
  wf c = true -> forallb (fun sc => wf (snd sc)) cs = true ->
  forallb (fun sc => wf (snd sc)) (set_child s c cs) = true.
Proof.
  intros Hc. induction cs as [|[s0 c0] cs IH]; intros Hall; cbn.
  - rewrite Hc. reflexivity.
  - cbn in Hall. apply andb_true_iff in Hall. destruct Hall as [H0 Hall].
    destruct (s0 =? s)%string; cbn; [rewrite Hc, Hall|rewrite H0, (IH Hall)]; reflexivity.
Qed.

Lemma wf_set_child (s : string) (c : node) (cs : list (string * node)) :
  wf (Folder cs) = true -> wf c = true -> wf (Folder (set_child s c cs)) = true.
Proof.
  intros H Hc. apply wf_folder in H. destruct H as [Hd Hall]. apply wf_folder.
  split; [apply set_child_distinct, Hd|apply set_child_all_wf; assumption].
Qed.

Lemma wf_remove_child (s : string) (cs : list (string * node)) :
  wf (Folder cs) = true -> wf (Folder (remove_child s cs)) = true.
Proof.
  intros H. apply wf_folder in H. destruct H as [Hd Hall]. apply wf_folder.
  induction cs as [|[s0 c0] cs IH]; [split; reflexivity|].
  destruct (names_distinct_head s0 c0 cs Hd) as [Hnone Hd'].
  cbn in Hall. apply andb_true_iff in Hall. destruct Hall as [H0 Hall].
  cbn [remove_child]. destruct (String.eqb_spec s0 s) as [->|Hne]; [split; assumption|].
  destruct (IH Hd' Hall) as [IH1 IH2]. split.
  - apply names_distinct_cons; [|exact IH1].
    rewrite child_remove_child_ne by congruence. exact Hnone.
  - cbn. rewrite H0, IH2. reflexivity.
Qed.

Lemma wf_mkdir_all (p : list string) :
  forall n n', wf n = true -> mkdir_all n p = inr n' -> wf n' = true.
Proof.
  induction p as [|s p IH]; intros n n' Hwf H.
  - cbn in H. destruct n; [discriminate|]. injection H as <-. exact Hwf.
  - cbn [mkdir_all] in H. destruct n as [d m|cs]; [discriminate|].
    destruct (mkdir_all (match child s cs with Some c => c | None => Folder [] end) p)
      as [e|c'] eqn:Hc; [discriminate|].
    injection H as <-. apply wf_set_child; [exact Hwf|].
    refine (IH _ _ _ Hc).
    destruct (child s cs) as [c|] eqn:E; [apply (wf_child cs s c Hwf E)|reflexivity].
Qed.

Lemma wf_write_file (p : list string) :
  forall n n' data t, wf n = true -> write_file n p data t = inr n' -> wf n' = true.
Proof.
  induction p as [|s p IH]; intros n n' data t Hwf H.
  - cbn in H. destruct n; [|discriminate]. injection H as <-. reflexivity.
  - cbn [write_file] in H. destruct n as [d m|cs]; [discriminate|].
    destruct (child s cs) as [c|] eqn:Hc.
    + destruct (write_file c p data t) as [e|c'] eqn:Hw; [discriminate|].
      injection H as <-. apply wf_set_child; [exact Hwf|].
      apply (IH c c' data t); [apply (wf_child cs s c Hwf Hc)|exact Hw].
    + destruct p; [|discriminate]. injection H as <-.
      apply wf_set_child; [exact Hwf|reflexivity].
Qed.

Lemma wf_walk_children (cfg : Config) (env : Env) (now : Z)
    (f : list string -> node -> option node) (path : list string)
    (cs : list (string * node)) :
  (forall s c c', In (s, c) cs -> f (path ++ [s])%list c = Some c' -> wf c' = true) ->
  wf (Folder cs) = true ->
  wf (Folder (walk_children cfg env now f path cs)) = true.
Proof.
  intros Hf H. apply wf_folder in H. destruct H as [Hd Hall]. apply wf_folder.
  induction cs as [|[s0 c0] cs IH]; [split; reflexivity|].
  destruct (names_distinct_head s0 c0 cs Hd) as [Hnone Hd'].
  cbn in Hall. apply andb_true_iff in Hall. destruct Hall as [H0 Hall].
  assert (Hf' : forall s c c', In (s, c) cs -> f (path ++ [s])%list c = Some c' -> wf c' = true).
  { intros s c c' Hin. apply Hf. right. exact Hin. }
  destruct (IH Hf' Hd' Hall) as [IH1 IH2].
  pose proof (child_walk_children_none cfg env now f path s0 cs Hnone) as Hnone'.
  cbn [walk_children].
  destruct (fault env OpLstat (path ++ [s0])).
  - rewrite walkFn_error. split.
    + apply names_distinct_cons; assumption.
    + cbn. rewrite H0, IH2. reflexivity.
  - destruct (f (path ++ [s0])%list c0) as [c'|] eqn:Hc'; [|split; assumption].
    split.
    + apply names_distinct_cons; assumption.
    + cbn. rewrite (Hf s0 c0 c' ltac:(left; reflexivity) Hc'), IH2. reflexivity.
Qed.

Lemma wf_children_in (cs : list (string * node)) (s : string) (c : node) :
  forallb (fun sc => wf (snd sc)) cs = true -> In (s, c) cs -> wf c = true.
Proof.
  intros Hall Hin. rewrite forallb_forall in Hall. apply (Hall (s, c) Hin).
Qed.

(** The walk keeps a tree well formed. *)
Lemma wf_walk (cfg : Config) (env : Env) (now : Z) :
  forall n path n', wf n = true -> walk cfg env now path n = Some n' -> wf n' = true.
Proof.
  fix wf_walk 1.
  intros n path n' Hwf H. destruct n as [d m|cs].
  - cbn [walk] in H. destruct (walkFn _ _ _ _ _ _); [discriminate|]. injection H as <-. exact Hwf.
  - cbn [walk info_of] in H. rewrite walkFn_dir in H.
    destruct (fault env OpReadDir path); injection H as <-; [exact Hwf|].
    apply wf_walk_children; [|exact Hwf].
    apply wf_folder in Hwf. destruct Hwf as [_ Hall].
    clear - wf_walk Hall. induction cs as [|[s0 c0] cs IH]; intros s c c' Hin Hc.
    + destruct Hin.
    + cbn in Hall. apply andb_true_iff in Hall. destruct Hall as [H0 Hall].
      destruct Hin as [Hin|Hin].
      * injection Hin as <- <-. apply (wf_walk c0 _ _ H0 Hc).
      * apply (IH Hall s c c' Hin Hc).
Qed.

Lemma wf_update_opt (f : node -> option node) (root : list string) :
  (forall n n', wf n = true -> f n = Some n' -> wf n' = true) ->
  forall t t', wf t = true -> update_opt t root f = Some t' -> wf t' = true.
Proof.
  intros Hf. induction root as [|s root IH]; intros t t' Hwf H.
  - cbn in H. apply (Hf t t' Hwf H).
  - cbn [update_opt] in H. destruct t as [d m|cs]; [injection H as <-; exact Hwf|].
    destruct (child s cs) as [c|] eqn:Hc; [|injection H as <-; exact Hwf].
    destruct (update_opt c root f) as [c'|] eqn:Hu; injection H as <-.
    + apply wf_set_child; [exact Hwf|].
      apply (IH c c'); [apply (wf_child cs s c Hwf Hc)|exact Hu].
    + apply wf_remove_child, Hwf.
Qed.

Lemma wf_root_folder (t : node) : wf_root t = true <-> (exists cs, t = Folder cs) /\ wf t = true.
Proof.
  destruct t as [d m|cs]; cbn [wf_root]; split.
  - discriminate.
  - intros [[cs E] _]. discriminate.
  - intros H. split; [eexists; reflexivity|exact H].
  - intros [_ H]. exact H.
Qed.

Lemma wf_root_filepath_Walk (cfg : Config) (env : Env) (now : Z) (t : node) :
  wf_root t = true -> wf_root (filepath_Walk cfg env now t) = true.
Proof.
  intros Hroot. unfold filepath_Walk.
  destruct (resolve (cwd env) (Clean (StoragePath cfg))) as [root|]; [|exact Hroot].
  destruct (fault env OpLstat root); [rewrite walkFn_error; exact Hroot|].
  destruct (lookup t root); [|rewrite walkFn_error; exact Hroot].
  unfold update_at.
  destruct (update_opt t root (walk cfg env now root)) as [t'|] eqn:Hu; [|exact Hroot].
  apply wf_root_folder in Hroot. destruct Hroot as [[cs ->] Hwf].
  apply wf_root_folder. split.
  - destruct root as [|s root]; cbn [update_opt] in Hu.
    + cbn [walk info_of] in Hu. rewrite walkFn_dir in Hu.
      destruct (fault env OpReadDir []); injection Hu as <-; eexists; reflexivity.
    + destruct (child s cs) as [c|]; [|injection Hu as <-; eexists; reflexivity].
      destruct (update_opt c root (walk cfg env now (s :: root)));
        injection Hu as <-; eexists; reflexivity.
  - apply (wf_update_opt (walk cfg env now root) root
             (fun n n' => wf_walk cfg env now n root n') _ _ Hwf Hu).
Qed.

Lemma wf_root_mkdir_all (p : list string) (t t' : node) :
  wf_root t = true -> mkdir_all t p = inr t' -> wf_root t' = true.
Proof.
  intros Hroot H. apply wf_root_folder in Hroot. destruct Hroot as [[cs ->] Hwf].
  apply wf_root_folder. split; [|apply (wf_mkdir_all p _ _ Hwf H)].
  destruct p as [|s p]; cbn [mkdir_all] in H.
  - injection H as <-. eexists; reflexivity.
  - destruct (mkdir_all _ p); [discriminate|]. injection H as <-. eexists; reflexivity.
Qed.

Lemma wf_root_write_file (p : list string) (t t' : node) (data : list Byte.byte) (m : Z) :
  wf_root t = true -> write_file t p data m = inr t' -> wf_root t' = true.
Proof.
  intros Hroot H. apply wf_root_folder in Hroot. destruct Hroot as [[cs ->] Hwf].
  apply wf_root_folder. split; [|apply (wf_write_file p _ _ _ _ Hwf H)].
  destruct p as [|s p]; cbn [write_file] in H; [discriminate|].
  destruct (child s cs).
  - destruct (write_file n p data m); [discriminate|]. injection H as <-. eexists; reflexivity.
  - destruct p; [|discriminate]. injection H as <-. eexists; reflexivity.
Qed.

(** X26. the tree stays well formed. Start-up, every request and every sweep
    take a well-formed tree (the root is a directory and no directory holds a
    name twice) to a well-formed tree; the precondition of the properties of
    the sweep therefore holds in every state the server reaches. *)
Theorem tree_stays_well_formed (cfg : Config) (env : Env) (w : World) :
  wf_root (fs w) = true ->
  (forall r, wf_root (fs (snd (rateLimitHandler cfg env r w))) = true) /\
  (forall r hs, wf_root (fs (snd (handleProxy cfg env r hs w))) = true) /\
  (forall urlPath, wf_root (fs (snd (handleImage cfg env urlPath w))) = true) /\
  wf_root (fs (snd (cleanupOldFiles cfg env w))) = true /\
  (forall environ expiry, wf_root (fs (snd (init env environ expiry w))) = true).
Proof.
  intros Hroot.
  assert (Hproxy : forall r hs, wf_root (fs (snd (handleProxy cfg env r hs w))) = true).
  { intros r hs.
    destruct (handleProxy_cases cfg env r hs w)
      as [H|[(evs & H)|[(msg & w1 & H & Hfs)|[(w1 & H & Hfs)|H]]]].
    - rewrite H. exact Hroot.
    - rewrite H. exact Hroot.
    - rewrite H. cbn [snd]. rewrite Hfs. exact Hroot.
    - rewrite H. cbn [snd].
      destruct Hfs as [-> | [(dloc & Hmk) | (dloc & t1 & loc & data & t & Hmk & Hw)]];
        [exact Hroot|apply (wf_root_mkdir_all dloc _ _ Hroot Hmk)|].
      apply (wf_root_write_file loc t1 _ _ _ (wf_root_mkdir_all dloc _ _ Hroot Hmk) Hw).
    - destruct H as (data & ct & b & evs & dloc & t1 & loc & t2 & H). cbv zeta in H.
      destruct H as (_ & _ & Hmk & _ & Hw & H). rewrite H. cbn [snd fs].
      apply (wf_root_write_file loc t1 t2 _ _ (wf_root_mkdir_all dloc _ _ Hroot Hmk) Hw). }
  assert (Himage : forall urlPath, wf_root (fs (snd (handleImage cfg env urlPath w))) = true).
  { intros urlPath.
    assert (E : snd (handleImage cfg env urlPath w) = w).
    { unfold handleImage, bind, os_Stat, os_Open, ret, panic.
      destruct (resolve _ _) as [loc|]; [|reflexivity].
      destruct (fault env OpStat loc) as [e|].
      { destruct (IsNotExist (Some e)); reflexivity. }
      destruct (lookup (fs w) loc) as [n|e].
      2:{ destruct (IsNotExist (Some e)); reflexivity. }
      cbn [IsNotExist]. destruct (IsDir (info_of n)); [reflexivity|].
      cbv beta. destruct (fault env OpOpen loc); [reflexivity|].
      destruct (lookup (fs w) loc); reflexivity. }
    rewrite E. exact Hroot. }
  split; [|split; [exact Hproxy|split; [exact Himage|split]]].
  - intros r. unfold rateLimitHandler.
    destruct (r_path r =? "/")%string; [exact Hroot|].
    destruct (r_method r =? "OPTIONS")%string; [exact Hroot|].
    destruct (r_path r =? "/proxy")%string; [apply Hproxy|].
    destruct (HasPrefix _ _); [apply Himage|exact Hroot].
  - apply wf_root_filepath_Walk, Hroot.
  - intros environ expiry. unfold init. cbv zeta. unfold bind, os_MkdirAll.
    destruct (resolve _ _) as [root|]; [|exact Hroot].
    destruct (fault env OpMkdirAll root); [exact Hroot|].
    destruct (mkdir_all (fs w) root) as [e|t] eqn:Hmk; [exact Hroot|].
    apply (wf_root_mkdir_all root _ _ Hroot Hmk).
Qed.

Lemma tree_stays_well_formed_witness :
  (forall r, wf_root (fs (snd (rateLimitHandler Sample.cfg Sample.env_retry r Sample.world)))
             = true) /\
  (forall r hs, wf_root (fs (snd (handleProxy Sample.cfg Sample.env_retry r hs Sample.world)))
                = true) /\
  (forall urlPath,
      wf_root (fs (snd (handleImage Sample.cfg Sample.env_retry urlPath Sample.world))) = true) /\
  wf_root (fs (snd (cleanupOldFiles Sample.cfg Sample.env_retry Sample.world))) = true /\
  (forall environ expiry,
      wf_root (fs (snd (init Sample.env_retry environ expiry Sample.world))) = true).
Proof.
  apply (tree_stays_well_formed Sample.cfg Sample.env_retry Sample.world).
  reflexivity.
Defined.

(** ** The background task *)

(** One sweep keeps a file that has not expired. *)
Lemma sweep_keeps_fresh (cfg : Config) (env : Env) (now : Z) (t : node) (loc : list string)
    (d : list Byte.byte) (m : Z) :
  wf_root t = true ->
  lookup t loc = Found (File d m) ->
  Sub now m <= FileExpiryHours cfg ->
  lookup (filepath_Walk cfg env now t) loc = Found (File d m).
Proof.
  intros Hroot Hfile Hage.
  destruct (resolve (cwd env) (Clean (StoragePath cfg))) as [root|] eqn:Hres.
  2:{ unfold Clean in Hres. cbn [resolve] in Hres.
      destruct (HasPrefix (StoragePath cfg) "/"); discriminate. }
  rewrite (lookup_filepath_Walk cfg env now t root loc d m Hroot Hres Hfile).
  unfold swept. destruct (strip_root root loc); [|reflexivity].
  replace (Sub now m >? FileExpiryHours cfg) with false
    by (symmetry; rewrite Z.gtb_ltb; apply Z.ltb_ge; exact Hage).
  rewrite andb_false_r. reflexivity.
Qed.

Lemma ticker_loop_keeps_fresh (cfg : Config) (env : Env) (loc : list string)
    (d : list Byte.byte) (m : Z) (fired : nat) :
  forall w,
    wf_root (fs w) = true ->
    lookup (fs w) loc = Found (File d m) ->
    (forall k, (k < fired)%nat -> Sub (clock env (ticks w + k)%nat) m <= FileExpiryHours cfg) ->
    exists w',
      ticker_loop cfg env fired w = (Ret tt, w') /\
      ticks w' = (ticks w + fired)%nat /\
      trace w' = trace w /\
      wf_root (fs w') = true /\
      lookup (fs w') loc = Found (File d m).
Proof.
  induction fired as [|fired IH]; intros w Hroot Hfile Hage.
  - exists w. cbn. rewrite Nat.add_0_r. auto.
  - cbn [ticker_loop]. unfold bind at 1. unfold cleanupOldFiles, bind, UnixNano.
    cbn [set_fs fs ticks trace].
    set (w1 := {| fs := filepath_Walk cfg env (clock env (ticks w)) (fs w);
                  ticks := S (ticks w); trace := trace w |}).
    destruct (IH w1) as (w' & Hrun & Hticks & Htrace & Hwf & Hlook).
    + apply wf_root_filepath_Walk, Hroot.
    + apply sweep_keeps_fresh; [exact Hroot|exact Hfile|].
      specialize (Hage 0%nat ltac:(lia)). rewrite Nat.add_0_r in Hage. exact Hage.
    + intros k Hk. cbn [ticks w1]. replace (S (ticks w) + k)%nat with (ticks w + S k)%nat by lia.
      apply Hage. lia.
    + exists w'. split; [exact Hrun|]. cbn [ticks trace w1] in Hticks, Htrace.
      split; [lia|]. split; [exact Htrace|]. split; assumption.
Qed.

(** X27. the background task. Up to the moment its ticker has fired [fired]
    times, [startCleanupTask] has made [fired + 1] sweeps, each reading the
    clock once, and a file that had not expired at the time of any of these
    sweeps is still there, with the same bytes. *)
Theorem startCleanupTask_keeps_fresh_files (cfg : Config) (env : Env) (fired : nat)
    (w : World) (loc : list string) (d : list Byte.byte) (m : Z) :
  wf_root (fs w) = true ->
  lookup (fs w) loc = Found (File d m) ->
  (forall k, (k <= fired)%nat -> Sub (clock env (ticks w + k)%nat) m <= FileExpiryHours cfg) ->
  exists w',
    startCleanupTask cfg env fired w = (Ret tt, w') /\
    ticks w' = (ticks w + fired + 1)%nat /\
    trace w' = trace w /\
    lookup (fs w') loc = Found (File d m).
Proof.
  intros Hroot Hfile Hage.
  destruct (ticker_loop_keeps_fresh cfg env loc d m (S fired) w Hroot Hfile) as
    (w' & Hrun & Hticks & Htrace & _ & Hlook).
  - intros k Hk. apply Hage. lia.
  - exists w'. split; [exact Hrun|]. split; [lia|]. split; assumption.
Qed.

Lemma startCleanupTask_keeps_fresh_files_witness :
  exists w',
    startCleanupTask Sample.cfg Sample.env500 3 Sample.world = (Ret tt, w') /\
    ticks w' = (ticks Sample.world + 3 + 1)%nat /\
    trace w' = trace Sample.world /\
    lookup (fs w') ["app"; "storage"; "img"; "1699999999000000000-bbbbbb.gif"]
    = Found (File [Byte.x03] 1699999999000000000).
Proof.
  apply (startCleanupTask_keeps_fresh_files Sample.cfg Sample.env500 3 Sample.world).
  - reflexivity.
  - reflexivity.
  - intros k Hk.
    rewrite Sub_exact;
      unfold Sample.env500, Sample.cfg, Sample.start, minDuration, maxDuration, Second;
      cbn [clock FileExpiryHours ticks Sample.world];
      change (2 ^ 63) with 9223372036854775808; lia.
Defined.
